(** * Folder and file storage engine: catalog, versions, folders, downloads

    A shallow embedding of the backend of the file server
    (routes/folders, routes/files, routes/versions, utils/fileUtils,
    db/database) and the properties of its specification.

    Conventions.
    - A JavaScript string is the list of its UTF-16 code units ([jsstring]);
      [lit] turns an ASCII literal into one.
    - A JavaScript number holding an integer, and a SQLite INTEGER, is a [Z]
      (ids, sizes and version numbers stay within the range where both are
      exact); the result of [parseInt] is a [parsed] ([NaN] or an integer).
    - A table is the list of its rows, oldest first; a query is a filter,
      [find] or sort over that list.
    - A TEXT column is written as the JavaScript string that was bound.
      SQLite keeps its UTF-8 form ([utf8], in which a surrogate on its own
      is U+FFFD): [=], [ORDER BY] and [LIKE] on TEXT go through [utf8] and
      [codepoints], and so do the properties that speak of stored names.
    - A route handler is a function from the request and the [world]
      (catalog, disk, trace of file-system calls) to a response and the
      next world; an early [return res.status(..)] is an [Err]. *)

From Stdlib Require Import ZArith NArith List String Ascii Bool Lia.
From Stdlib Require Import Permutation Sorted.
Import ListNotations.

Local Open Scope Z_scope.

(* ================================================================== *)
(** ** JavaScript strings *)

Module JS.

Definition jsstring := list N.

Definition lit (s : string) : jsstring :=
  List.map N_of_ascii (list_ascii_of_string s).

Definition eqb (a b : jsstring) : bool :=
  if list_eq_dec N.eq_dec a b then true else false.

(** [p] occurs in [s] as a contiguous substring. *)
Definition substring (p s : jsstring) : Prop :=
  exists a b, s = a ++ p ++ b.

(** WhiteSpace and LineTerminator code units, the ones
    [String.prototype.trim] strips. *)
Definition is_space (c : N) : bool :=
  (((9 <=? c) && (c <=? 13)) || (c =? 32) || (c =? 160) || (c =? 5760)
   || ((8192 <=? c) && (c <=? 8202)) || (c =? 8232) || (c =? 8233)
   || (c =? 8239) || (c =? 8287) || (c =? 12288) || (c =? 65279))%N.

Fixpoint trimStart (s : jsstring) : jsstring :=
  match s with
  | c :: t => if is_space c then trimStart t else s
  | [] => []
  end.

Definition trimEnd (s : jsstring) : jsstring := rev (trimStart (rev s)).

Definition trim (s : jsstring) : jsstring := trimEnd (trimStart s).

(** [a || b] on numbers: [0] (like [NaN]) is falsy. *)
Definition or_num (a b : Z) : Z := if a =? 0 then b else a.

(** [a || b] where [a] is [number | null]. *)
Definition or_null (a : option Z) (b : Z) : Z :=
  match a with
  | Some x => or_num x b
  | None => b
  end.

(** The result of [parseInt(_, 10)]. *)
Inductive parsed : Type :=
| NaN
| Num (z : Z).

Definition isNaN (p : parsed) : bool :=
  match p with NaN => true | Num _ => false end.

(** The two halves of a surrogate pair. *)
Definition is_high (c : N) : bool := ((55296 <=? c) && (c <=? 56319))%N.
Definition is_low (c : N) : bool := ((56320 <=? c) && (c <=? 57343))%N.

(** The code points of a string the way it leaves JavaScript for SQLite:
    a surrogate pair is one code point, a surrogate on its own becomes
    U+FFFD. *)
Fixpoint codepoints (s : jsstring) : list N :=
  match s with
  | [] => []
  | c :: t =>
      if is_high c then
        match t with
        | d :: u =>
            if is_low d
            then (65536 + (c - 55296) * 1024 + (d - 56320))%N :: codepoints u
            else 65533%N :: codepoints t
        | [] => [65533%N]
        end
      else if is_low c then 65533%N :: codepoints t
      else c :: codepoints t
  end.

Definition utf8_encode (cp : N) : list N :=
  (if cp <? 128 then [cp]
   else if cp <? 2048 then [192 + cp / 64; 128 + cp mod 64]
   else if cp <? 65536 then
     [224 + cp / 4096; 128 + (cp / 64) mod 64; 128 + cp mod 64]
   else [240 + cp / 262144; 128 + (cp / 4096) mod 64;
         128 + (cp / 64) mod 64; 128 + cp mod 64])%N.

(** The bytes SQLite keeps of a string bound as TEXT.  It compares and
    orders TEXT values by these bytes. *)
Definition utf8 (s : jsstring) : list N := flat_map utf8_encode (codepoints s).

(** The decimal digits of [n] in front of [acc]; [fuel] bounds their
    number. *)
Fixpoint digits_of (fuel : nat) (n : N) (acc : jsstring) : jsstring :=
  match fuel with
  | O => acc
  | S k =>
      let acc' := (48 + n mod 10)%N :: acc in
      if (n / 10 =? 0)%N then acc' else digits_of k (n / 10)%N acc'
  end.

Definition decimal (n : N) : jsstring :=
  digits_of (S (N.to_nat (N.size n))) n [].

(** How a template literal renders an integer. *)
Definition toString (z : Z) : jsstring :=
  if z <? 0 then 45%N :: decimal (Z.to_N (- z)) else decimal (Z.to_N z).

End JS.

Import JS.

(* ================================================================== *)
(** ** utils/fileUtils.ts *)

Module FileUtils.

Definition slash : N := 47.
Definition backslash : N := 92.
Definition dot : N := 46.
Definition underscore : N := 95.

(** The class of the first replacement: slash and backslash. *)
Definition is_separator (c : N) : bool := ((c =? slash) || (c =? backslash))%N.

(** The class of the third replacement: less-than, greater-than, colon,
    double quote, vertical bar, question mark and asterisk. *)
Definition is_reserved (c : N) : bool :=
  ((c =? 60) || (c =? 62) || (c =? 58) || (c =? 34) || (c =? 124)
   || (c =? 63) || (c =? 42))%N.

(** [s.replace(/[...]/g, '_')] for a one-character class. *)
Definition replace_class (cls : N -> bool) (s : jsstring) : jsstring :=
  List.map (fun c => if cls c then underscore else c) s.

(** [s.replace(/\.\./g, '_')]: matches are taken left to right and do not
    overlap. *)
Fixpoint replace_dotdot (s : jsstring) : jsstring :=
  match s with
  | [] => []
  | c :: t =>
      match t with
      | d :: u =>
          if ((c =? dot) && (d =? dot))%N
          then underscore :: replace_dotdot u
          else c :: replace_dotdot t
      | [] => [c]
      end
  end.

Definition sanitizeFilename (filename : jsstring) : jsstring :=
  trim (replace_class is_reserved
          (replace_dotdot (replace_class is_separator filename))).

Section UniqueFilename.
(** Node's [path.extname] and [path.basename], and the decimal and
    base-36 renderings of [Date.now()] and [Math.random()], are taken as
    given. *)
Variable extname : jsstring -> jsstring.
Variable basename : jsstring -> jsstring -> jsstring.
Variable timestamp : jsstring.
Variable random : jsstring.

Definition sanitizedBase (originalFilename : jsstring) : jsstring :=
  let ext := extname originalFilename in
  sanitizeFilename (basename originalFilename ext).

Definition generateUniqueFilename (originalFilename : jsstring) : jsstring :=
  let ext := extname originalFilename in
  let base := basename originalFilename ext in
  let sanitized := sanitizeFilename base in
  sanitized ++ [underscore] ++ timestamp ++ [underscore] ++ random ++ ext.
End UniqueFilename.

(** No two neighbouring code units are both dots. *)
Fixpoint dotdot_free (s : jsstring) : bool :=
  match s with
  | [] => true
  | c :: t =>
      match t with
      | d :: _ => negb ((c =? dot) && (d =? dot))%N && dotdot_free t
      | [] => true
      end
  end.

(** The three facts every sanitized name satisfies. *)
Definition path_safe (s : jsstring) : Prop :=
  ~ In slash s /\ ~ In backslash s /\ ~ substring [dot; dot] s.

End FileUtils.

(* ================================================================== *)
(** ** Generic list helpers for queries *)

Module Query.

Section Sorting.
Context {A : Type}.
Variable leb : A -> A -> bool.

Fixpoint insert_by (x : A) (l : list A) : list A :=
  match l with
  | [] => [x]
  | y :: t => if leb x y then x :: l else y :: insert_by x t
  end.

(** [ORDER BY]: a stable insertion sort under [leb]. *)
Definition order_by (l : list A) : list A := fold_right insert_by [] l.

End Sorting.

(** [MAX(col)]: [NULL] on no rows. *)
Fixpoint sql_max (l : list Z) : option Z :=
  match l with
  | [] => None
  | x :: t => match sql_max t with
              | Some m => Some (Z.max x m)
              | None => Some x
              end
  end.

(** [SUM(col)]: [NULL] on no rows. *)
Definition sql_sum (l : list Z) : option Z :=
  match l with
  | [] => None
  | _ => Some (fold_right Z.add 0 l)
  end.

(** [COUNT( * )]. *)
Definition sql_count {A} (l : list A) : Z := Z.of_nat (List.length l).

(** Equality of two nullable integers, as the idiom
    [col = ? OR (col IS NULL AND ? IS NULL)] computes it. *)
Definition null_safe_eqb (a b : option Z) : bool :=
  match a, b with
  | Some x, Some y => x =? y
  | None, None => true
  | _, _ => false
  end.

End Query.

Import Query.

(* ================================================================== *)
(** ** db/database.ts: the catalog and its schema *)

Module Database.

Definition timestamp := Z.

Record user_row := {
  u_id : Z;
  u_username : jsstring;
  u_password_hash : jsstring;
  u_created_at : timestamp
}.

Record folder_row := {
  fo_id : Z;
  fo_name : jsstring;
  fo_parent_folder_id : option Z;
  fo_created_by : Z;
  fo_created_at : timestamp
}.

(** [folder_id] and [current_version] are the two columns the migration
    adds with [ALTER TABLE]: [folder_id] carries no foreign key,
    [current_version] has [DEFAULT 1]. *)
Record file_row := {
  f_id : Z;
  f_filename : jsstring;
  f_original_filename : jsstring;
  f_file_path : jsstring;
  f_file_size : Z;
  f_mime_type : jsstring;
  f_uploaded_by : Z;
  f_uploaded_at : timestamp;
  f_folder_id : option Z;
  f_current_version : Z
}.

Record version_row := {
  v_id : Z;
  v_file_id : Z;
  v_version_number : Z;
  v_file_path : jsstring;
  v_file_size : Z;
  v_uploaded_by : Z;
  v_uploaded_at : timestamp
}.

(** The four tables, and for the three tables the routes insert into the
    [sqlite_sequence] entry that [AUTOINCREMENT] keeps. *)
Record database := {
  users : list user_row;
  folders : list folder_row;
  files : list file_row;
  file_versions : list version_row;
  seq_folders : Z;
  seq_files : Z;
  seq_versions : Z
}.

(** [INTEGER PRIMARY KEY AUTOINCREMENT]: one more than the largest rowid
    the table holds or has ever held. *)
Definition next_rowid (ids : list Z) (seq : Z) : Z :=
  fold_right Z.max seq ids + 1.

Definition user_exists (d : database) (uid : Z) : bool :=
  existsb (fun u => u_id u =? uid) (users d).

(** [SELECT .. FROM folders WHERE id = ?] *)
Definition get_folder (d : database) (id : Z) : option folder_row :=
  find (fun r => fo_id r =? id) (folders d).

(** [SELECT .. FROM files WHERE id = ?] *)
Definition get_file (d : database) (id : Z) : option file_row :=
  find (fun r => f_id r =? id) (files d).

(** [SELECT .. FROM file_versions WHERE file_id = ? AND version_number = ?] *)
Definition get_version (d : database) (fid vn : Z) : option version_row :=
  find (fun r => (v_file_id r =? fid) && (v_version_number r =? vn))
       (file_versions d).

(** The rows of [file_versions] of one file. *)
Definition versions_of (d : database) (fid : Z) : list version_row :=
  filter (fun r => v_file_id r =? fid) (file_versions d).

(** [a = b] on TEXT: SQLite compares the UTF-8 bytes, in which every
    surrogate on its own is U+FFFD. *)
Definition text_eqb (a b : jsstring) : bool := JS.eqb (utf8 a) (utf8 b).

(** [SELECT id FROM folders WHERE name = ? AND (parent_folder_id = ? OR
    (parent_folder_id IS NULL AND ? IS NULL))] *)
Definition find_sibling (d : database) (name : jsstring) (parent : option Z)
  : option folder_row :=
  find (fun r => text_eqb (fo_name r) name
                 && null_safe_eqb (fo_parent_folder_id r) parent)
       (folders d).

(** [UNIQUE(name, parent_folder_id)]: SQLite holds two [NULL]s distinct, so
    the constraint binds only rows with a parent. *)
Definition folder_unique_ok (d : database) (name : jsstring)
  (parent : option Z) : bool :=
  match parent with
  | None => true
  | Some p =>
      negb (existsb (fun r => text_eqb (fo_name r) name
                              && null_safe_eqb (fo_parent_folder_id r) (Some p))
                    (folders d))
  end.

Definition folder_fk_ok (d : database) (parent : option Z) (creator : Z)
  : bool :=
  match parent with
  | None => true
  | Some p => existsb (fun r => fo_id r =? p) (folders d)
  end && user_exists d creator.

(** [INSERT INTO folders (name, parent_folder_id, created_by)]: [None] when a
    constraint fails and the statement throws. *)
Definition insert_folder (d : database) (name : jsstring) (parent : option Z)
  (creator : Z) (now : timestamp) : option (database * Z) :=
  if folder_fk_ok d parent creator && folder_unique_ok d name parent then
    let id := next_rowid (List.map fo_id (folders d)) (seq_folders d) in
    Some ({| users := users d;
             folders := folders d ++
               [{| fo_id := id; fo_name := name;
                   fo_parent_folder_id := parent;
                   fo_created_by := creator; fo_created_at := now |}];
             files := files d;
             file_versions := file_versions d;
             seq_folders := id;
             seq_files := seq_files d;
             seq_versions := seq_versions d |}, id)
  else None.

(** [INSERT INTO files (filename, original_filename, file_path, file_size,
    mime_type, folder_id, uploaded_by)]; [current_version] takes its
    default. *)
Definition insert_file (d : database) (filename original path : jsstring)
  (size : Z) (mime : jsstring) (folder : option Z) (uploader : Z)
  (now : timestamp) : option (database * Z) :=
  if user_exists d uploader then
    let id := next_rowid (List.map f_id (files d)) (seq_files d) in
    Some ({| users := users d;
             folders := folders d;
             files := files d ++
               [{| f_id := id; f_filename := filename;
                   f_original_filename := original; f_file_path := path;
                   f_file_size := size; f_mime_type := mime;
                   f_uploaded_by := uploader; f_uploaded_at := now;
                   f_folder_id := folder; f_current_version := 1 |}];
             file_versions := file_versions d;
             seq_folders := seq_folders d;
             seq_files := id;
             seq_versions := seq_versions d |}, id)
  else None.

(** [INSERT INTO file_versions (file_id, version_number, file_path,
    file_size, uploaded_by)], under both foreign keys and
    [UNIQUE(file_id, version_number)]. *)
Definition insert_version (d : database) (fid vn : Z) (path : jsstring)
  (size : Z) (uploader : Z) (now : timestamp) : option (database * Z) :=
  if existsb (fun r => f_id r =? fid) (files d)
     && user_exists d uploader
     && negb (existsb (fun r => (v_file_id r =? fid)
                                && (v_version_number r =? vn))
                      (file_versions d))
  then
    let id := next_rowid (List.map v_id (file_versions d)) (seq_versions d) in
    Some ({| users := users d;
             folders := folders d;
             files := files d;
             file_versions := file_versions d ++
               [{| v_id := id; v_file_id := fid; v_version_number := vn;
                   v_file_path := path; v_file_size := size;
                   v_uploaded_by := uploader; v_uploaded_at := now |}];
             seq_folders := seq_folders d;
             seq_files := seq_files d;
             seq_versions := id |}, id)
  else None.

Definition set_current_version (r : file_row) (vn : Z) : file_row :=
  {| f_id := f_id r; f_filename := f_filename r;
     f_original_filename := f_original_filename r;
     f_file_path := f_file_path r; f_file_size := f_file_size r;
     f_mime_type := f_mime_type r; f_uploaded_by := f_uploaded_by r;
     f_uploaded_at := f_uploaded_at r; f_folder_id := f_folder_id r;
     f_current_version := vn |}.

(** [UPDATE files SET current_version = ? WHERE id = ?] *)
Definition update_current_version (d : database) (vn fid : Z) : database :=
  {| users := users d;
     folders := folders d;
     files := List.map (fun r => if f_id r =? fid
                                 then set_current_version r vn else r)
                       (files d);
     file_versions := file_versions d;
     seq_folders := seq_folders d;
     seq_files := seq_files d;
     seq_versions := seq_versions d |}.

(** [ON DELETE CASCADE] on [folders.parent_folder_id]: the rows whose id is
    in [frontier] go, then the rows that referenced them, and so on.
    Every round after the first removes a row, so [fuel] above the number
    of rows is never exhausted. *)
Fixpoint cascade (fuel : nat) (frontier : list Z) (rows : list folder_row)
  : list folder_row :=
  match fuel with
  | O => rows
  | S k =>
      let kept :=
        filter (fun r => negb (existsb (Z.eqb (fo_id r)) frontier)) rows in
      let next :=
        List.map fo_id
          (filter (fun r => match fo_parent_folder_id r with
                            | Some p => existsb (Z.eqb p) frontier
                            | None => false
                            end) kept) in
      match next with
      | [] => kept
      | _ :: _ => cascade k next kept
      end
  end.

(** The ids of the folders [n] levels below the folders [frontier], by
    the rounds of the cascade: a row that is gone is not reached again. *)
Fixpoint levels_below (n : nat) (frontier : list Z) (rows : list folder_row)
  : list Z :=
  match n with
  | O => frontier
  | S k =>
      let kept :=
        filter (fun r => negb (existsb (Z.eqb (fo_id r)) frontier)) rows in
      levels_below k
        (List.map fo_id
           (filter (fun r => match fo_parent_folder_id r with
                             | Some p => existsb (Z.eqb p) frontier
                             | None => false
                             end) kept))
        kept
  end.

(** SQLite runs [ON DELETE CASCADE] as nested trigger programs, one level
    of nesting for each level of folders, and allows 1000 levels
    ([SQLITE_MAX_TRIGGER_DEPTH]). *)
Definition trigger_depth : nat := 1000.

(** [DELETE FROM folders WHERE id = ?] throws `too many levels of trigger
    recursion`, and deletes nothing, when a folder lies [trigger_depth]
    levels below the one deleted. *)
Definition cascade_too_deep (d : database) (id : Z) : bool :=
  match levels_below trigger_depth [id] (folders d) with
  | [] => false
  | _ :: _ => true
  end.

(** [DELETE FROM folders WHERE id = ?] with foreign keys on, when the
    statement succeeds.  No other table references [folders], so only
    folder rows go. *)
Definition delete_folder (d : database) (id : Z) : database :=
  {| users := users d;
     folders := cascade (S (List.length (folders d))) [id] (folders d);
     files := files d;
     file_versions := file_versions d;
     seq_folders := seq_folders d;
     seq_files := seq_files d;
     seq_versions := seq_versions d |}.

(** What the schema guarantees of every catalog state: primary keys of
    [users] are unique, a version's uploader is a user, and
    [(file_id, version_number)] is unique. *)
Definition unique_user_ids (d : database) : Prop :=
  NoDup (List.map u_id (users d)).

Definition version_uploaders_exist (d : database) : Prop :=
  forall v, In v (file_versions d) -> user_exists d (v_uploaded_by v) = true.

Definition version_numbers_unique (d : database) : Prop :=
  NoDup (List.map (fun v => (v_file_id v, v_version_number v))
                  (file_versions d)).

Record schema_ok (d : database) : Prop := {
  ok_user_ids : unique_user_ids d;
  ok_version_uploaders : version_uploaders_exist d;
  ok_version_numbers : version_numbers_unique d
}.

End Database.

Import Database.

(* ================================================================== *)
(** ** Node's [path] module (POSIX flavour) and the configuration *)

Module Path.

Import FileUtils.

Fixpoint split (s : jsstring) : list jsstring :=
  match s with
  | [] => [[]]
  | c :: t =>
      if (c =? slash)%N then [] :: split t
      else match split t with
           | seg :: rest => (c :: seg) :: rest
           | [] => [[c]]
           end
  end.

Fixpoint join_segments (l : list jsstring) : jsstring :=
  match l with
  | [] => []
  | [x] => x
  | x :: t => x ++ [slash] ++ join_segments t
  end.

(** One segment against the stack of segments kept so far (last segment
    first): empty and [.] segments vanish, [..] pops a segment, or is kept
    when nothing can be popped and the path is relative. *)
Definition push_segment (allowAboveRoot : bool) (stack : list jsstring)
  (seg : jsstring) : list jsstring :=
  if JS.eqb seg [] || JS.eqb seg [dot] then stack
  else if JS.eqb seg [dot; dot] then
    match stack with
    | top :: below =>
        if JS.eqb top [dot; dot]
        then (if allowAboveRoot then seg :: stack else stack)
        else below
    | [] => if allowAboveRoot then [seg] else []
    end
  else seg :: stack.

Definition normalizeString (path : jsstring) (allowAboveRoot : bool)
  : jsstring :=
  join_segments (rev (fold_left (push_segment allowAboveRoot) (split path) [])).

Definition isAbsolute (p : jsstring) : bool :=
  match p with
  | c :: _ => (c =? slash)%N
  | [] => false
  end.

(** [path.normalize] *)
Definition normalize (path : jsstring) : jsstring :=
  match path with
  | [] => [dot]
  | _ :: _ =>
      let abs := isAbsolute path in
      let trailing := match rev path with
                      | c :: _ => (c =? slash)%N
                      | [] => false
                      end in
      let n := normalizeString path (negb abs) in
      match n with
      | [] => if abs then [slash]
              else if trailing then [dot; slash] else [dot]
      | _ :: _ =>
          let n' := if trailing then n ++ [slash] else n in
          if abs then slash :: n' else n'
      end
  end.

(** [path.join] *)
Definition join (parts : list jsstring) : jsstring :=
  match filter (fun p => negb (JS.eqb p [])) parts with
  | [] => [dot]
  | l => normalize (join_segments l)
  end.

(** One turn of the loop of [path.resolve]: arguments are taken from the
    right until the path built is absolute; empty ones are skipped. *)
Definition resolve_step (path : jsstring) (acc : jsstring * bool)
  : jsstring * bool :=
  let '(resolvedPath, resolvedAbsolute) := acc in
  if resolvedAbsolute then acc
  else match path with
       | [] => acc
       | _ :: _ => (path ++ [slash] ++ resolvedPath, isAbsolute path)
       end.

(** [path.resolve(p)] in a process whose working directory is [cwd]. *)
Definition resolve (cwd p : jsstring) : jsstring :=
  let '(resolvedPath, resolvedAbsolute) :=
    resolve_step cwd (resolve_step p ([], false)) in
  let n := normalizeString resolvedPath (negb resolvedAbsolute) in
  if resolvedAbsolute then slash :: n
  else match n with
       | [] => [dot]
       | _ :: _ => n
       end.

(** [s.startsWith(p)] *)
Fixpoint startsWith (s p : jsstring) : bool :=
  match p, s with
  | [], _ => true
  | x :: p', y :: s' => (x =? y)%N && startsWith s' p'
  | _ :: _, [] => false
  end.

(** config.ts: [UPLOAD_DIR = path.join(process.cwd(), 'uploads')]. *)
Definition uploadDir (cwd : jsstring) : jsstring :=
  join [cwd; lit "uploads"].

(** A resolved path lies within the directory [root] when it is [root]
    itself or continues it past a separator. *)
Definition within (root p : jsstring) : bool :=
  JS.eqb p root || startsWith p (root ++ [slash]).

End Path.

(* ================================================================== *)
(** ** The world a route handler runs in *)

Module Server.

Import FileUtils.

(** Calls into [fs] a handler makes, in order. *)
Inductive fs_event : Type :=
| ExistsSync (p : jsstring)
| CreateReadStream (p : jsstring).

Record world := {
  w_db : database;
  w_disk : jsstring -> bool;   (* what [fs.existsSync] answers *)
  w_cwd : jsstring;            (* [process.cwd()] *)
  w_trace : list fs_event
}.

Definition with_db (w : world) (d : database) : world :=
  {| w_db := d; w_disk := w_disk w; w_cwd := w_cwd w; w_trace := w_trace w |}.

Definition log (w : world) (e : fs_event) : world :=
  {| w_db := w_db w; w_disk := w_disk w; w_cwd := w_cwd w;
     w_trace := w_trace w ++ [e] |}.

(** [res.status(s).json(body)] or [res.status(s).json({ error })]. *)
Inductive response (A : Type) : Type :=
| Ok (status : Z) (body : A)
| Err (status : Z) (error : string).
Arguments Ok {A} status body.
Arguments Err {A} status error.

(** The error kinds of the specification, read off a response. *)
Inductive error_kind : Type :=
| InvalidInput | NotFound | Conflict | PermissionDenied | AccessDenied
| Internal.

Definition kind {A} (r : response A) : option error_kind :=
  match r with
  | Ok _ _ => None
  | Err status msg =>
      Some (if status =? 404 then NotFound
            else if status =? 403 then
              (if String.eqb msg "Access denied" then AccessDenied
               else PermissionDenied)
            else if status =? 400 then
              (if String.eqb msg "Folder with this name already exists"
               then Conflict else InvalidInput)
            else Internal)
  end.

(** A request field that is either falsy ([None]) or was handed to
    [parseInt]. *)
Definition field := option parsed.

(** [if (x)] on [number | null]. *)
Definition truthy (x : field) : bool :=
  match x with
  | Some (Num z) => negb (z =? 0)
  | _ => false
  end.

(** The value a [number | null] is bound to in a statement: [NaN] is
    stored as [NULL]. *)
Definition sql_bind (x : field) : option Z :=
  match x with
  | Some (Num z) => Some z
  | _ => None
  end.

(** The message of the [SqliteError] a failed constraint raises. *)
Definition constraint_failed : string := "SQLITE_CONSTRAINT".

(** A file as multer hands it over, its bytes already on disk. *)
Record multer_file := {
  mf_originalname : jsstring;
  mf_filename : jsstring;
  mf_path : jsstring;
  mf_size : Z;
  mf_mimetype : jsstring
}.

(* ---------------------------------------------------------------- *)
(** *** routes/folders.ts *)

Record folder_created := {
  fc_id : Z;
  fc_name : jsstring;
  fc_parentFolderId : field
}.

Definition createFolder (name : option jsstring) (parentFolderId : field)
  (userId : Z) (now : timestamp) (w : world)
  : response folder_created * world :=
  let d := w_db w in
  match name with
  | None => (Err 400 "Folder name is required", w)
  | Some name =>
      match trim name with
      | [] => (Err 400 "Folder name is required", w)
      | _ :: _ =>
          let sanitizedName := sanitizeFilename (trim name) in
          match sanitizedName with
          | [] => (Err 400 "Invalid folder name", w)
          | _ :: _ =>
              let parentId := parentFolderId in
              if truthy parentId
                 && match sql_bind parentId with
                    | Some p => match get_folder d p with
                                | None => true
                                | Some _ => false
                                end
                    | None => false
                    end
              then (Err 404 "Parent folder not found", w)
              else
                match find_sibling d sanitizedName (sql_bind parentId) with
                | Some _ =>
                    (Err 400 "Folder with this name already exists", w)
                | None =>
                    match insert_folder d sanitizedName (sql_bind parentId)
                                        userId now with
                    | None => (Err 500 "Internal server error", w)
                    | Some (d', id) =>
                        (Ok 201 {| fc_id := id; fc_name := sanitizedName;
                                   fc_parentFolderId := parentId |},
                         with_db w d')
                    end
                end
          end
      end
  end.

Record folder_item := {
  fi_id : Z;
  fi_name : jsstring;
  fi_createdAt : timestamp;
  fi_createdBy : jsstring
}.

Record file_item := {
  li_id : Z;
  li_filename : jsstring;
  li_size : Z;
  li_mimeType : jsstring;
  li_uploadedAt : timestamp;
  li_currentVersion : Z;
  li_uploadedBy : jsstring
}.

(** [.. JOIN users u ON row.key = u.id]: one result per matching user. *)
Definition join_users {A B} (d : database) (key : A -> Z)
  (mk : A -> user_row -> B) (rows : list A) : list B :=
  flat_map (fun r => List.map (mk r)
                       (filter (fun u => u_id u =? key r) (users d))) rows.

(** [memcmp] order on code units or bytes: the first difference decides,
    a prefix comes first. *)
Fixpoint str_leb (a b : jsstring) : bool :=
  match a, b with
  | [], _ => true
  | _ :: _, [] => false
  | x :: a', y :: b' =>
      if (x <? y)%N then true
      else if (y <? x)%N then false
      else str_leb a' b'
  end.

(** [ORDER BY name]: SQLite orders TEXT by the UTF-8 bytes. *)
Definition text_leb (a b : jsstring) : bool := str_leb (utf8 a) (utf8 b).

Definition listContents (folderId : field) (w : world)
  : response (list folder_item * list file_item) * world :=
  let d := w_db w in
  if truthy folderId && match folderId with
                        | Some p => isNaN p
                        | None => false
                        end
  then (Err 400 "Invalid folder ID", w)
  else if truthy folderId
          && match sql_bind folderId with
             | Some id => match get_folder d id with
                          | None => true
                          | Some _ => false
                          end
             | None => false
             end
  then (Err 404 "Folder not found", w)
  else
    let subfolders :=
      order_by (fun a b => text_leb (fi_name a) (fi_name b))
        (join_users d fo_created_by
           (fun f u => {| fi_id := fo_id f; fi_name := fo_name f;
                          fi_createdAt := fo_created_at f;
                          fi_createdBy := u_username u |})
           (filter (fun f => null_safe_eqb (fo_parent_folder_id f)
                                           (sql_bind folderId))
                   (folders d))) in
    let contained :=
      order_by (fun a b => li_uploadedAt b <=? li_uploadedAt a)
        (join_users d f_uploaded_by
           (fun f u => {| li_id := f_id f;
                          li_filename := f_original_filename f;
                          li_size := f_file_size f;
                          li_mimeType := f_mime_type f;
                          li_uploadedAt := f_uploaded_at f;
                          li_currentVersion := f_current_version f;
                          li_uploadedBy := u_username u |})
           (filter (fun f => null_safe_eqb (f_folder_id f)
                                           (sql_bind folderId))
                   (files d))) in
    (Ok 200 (subfolders, contained), w).

Definition deleteFolder (folderId : parsed) (userId : Z) (w : world)
  : response unit * world :=
  let d := w_db w in
  match folderId with
  | NaN => (Err 400 "Invalid folder ID", w)
  | Num id =>
      match get_folder d id with
      | None => (Err 404 "Folder not found", w)
      | Some folder =>
          if negb (fo_created_by folder =? userId)
          then (Err 403 "You can only delete folders you created", w)
          else if cascade_too_deep d id
          then (Err 500 "Internal server error", w)
          else (Ok 200 tt, with_db w (delete_folder d id))
      end
  end.

(* ---------------------------------------------------------------- *)
(** *** routes/files.ts *)

Record uploaded := {
  up_id : Z;
  up_filename : jsstring;
  up_size : Z;
  up_mimeType : jsstring;
  up_uploadedAt : timestamp
}.

(** The [for (const file of files)] loop: a failing insert throws and keeps
    the rows already inserted. *)
Fixpoint upload_loop (d : database) (files : list multer_file)
  (folderId : field) (userId : Z) (now : timestamp) (acc : list uploaded)
  : database * option (list uploaded) :=
  match files with
  | [] => (d, Some acc)
  | multerFile :: rest =>
      let originalFilename := sanitizeFilename (mf_originalname multerFile) in
      match insert_file d (mf_filename multerFile) originalFilename
                        (mf_path multerFile) (mf_size multerFile)
                        (mf_mimetype multerFile) (sql_bind folderId)
                        userId now with
      | None => (d, None)
      | Some (d', id) =>
          upload_loop d' rest folderId userId now
            (acc ++ [{| up_id := id; up_filename := originalFilename;
                        up_size := mf_size multerFile;
                        up_mimeType := mf_mimetype multerFile;
                        up_uploadedAt := now |}])
      end
  end.

Definition uploadFiles (files : list multer_file) (folderId : field)
  (userId : Z) (now : timestamp) (w : world)
  : response (list uploaded) * world :=
  let d := w_db w in
  match files with
  | [] => (Err 400 "No files uploaded", w)
  | _ :: _ =>
      if truthy folderId
         && match sql_bind folderId with
            | Some id => match get_folder d id with
                         | None => true
                         | Some _ => false
                         end
            | None => false
            end
      then (Err 404 "Folder not found", w)
      else
        match upload_loop d files folderId userId now [] with
        | (d', Some uploadedFiles) => (Ok 201 uploadedFiles, with_db w d')
        | (d', None) => (Err 500 constraint_failed, with_db w d')
        end
  end.

(** What a download answers with: the headers, and the path handed to
    [fs.createReadStream]. *)
Record download := {
  dl_contentType : jsstring;
  dl_filename : jsstring;          (* the sanitized name in the disposition *)
  dl_versionSuffix : option Z;     (* the [_v<n>] after it, if any *)
  dl_contentLength : Z;
  dl_stream : jsstring
}.

(** The tail both download routes share: existence on disk, the traversal
    guard, then the stream. *)
(** What [res.setHeader] accepts in a header value: a tab, and the code
    units 32..126 and 128..255.  For anything else it throws. *)
Definition header_char_ok (c : N) : bool :=
  ((c =? 9) || ((32 <=? c) && (c <=? 126)) || ((128 <=? c) && (c <=? 255)))%N.

Definition header_ok (value : jsstring) : bool := forallb header_char_ok value.

Definition quote : N := 34.

(** [`attachment; filename="${name}${suffix}"`] *)
Definition disposition (name suffix : jsstring) : jsstring :=
  lit "attachment; filename=" ++ [quote] ++ name ++ suffix ++ [quote].

(** The tail both download routes share: [fs.existsSync], the guard, the
    [res.setHeader] calls with the values [headers] (a number, as for
    [Content-Length], always passes and is left out), and the stream.  A
    [setHeader] that throws is answered by the [catch]. *)
Definition send_file (filePath : jsstring) (missing : string)
  (headers : list jsstring) (body : download) (w : world)
  : response download * world :=
  let w1 := log w (ExistsSync filePath) in
  if negb (w_disk w filePath) then (Err 404 missing, w1)
  else
    let resolvedPath := Path.resolve (w_cwd w) filePath in
    let uploadDir := Path.resolve (w_cwd w) (Path.uploadDir (w_cwd w)) in
    if negb (Path.startsWith resolvedPath uploadDir)
    then (Err 403 "Access denied", w1)
    else if negb (forallb header_ok headers)
    then (Err 500 "Internal server error", w1)
    else (Ok 200 body, log w1 (CreateReadStream filePath)).

Definition downloadFile (id : parsed) (w : world)
  : response download * world :=
  let d := w_db w in
  match id with
  | NaN => (Err 400 "Invalid file ID", w)
  | Num fileId =>
      match get_file d fileId with
      | None => (Err 404 "File not found", w)
      | Some file =>
          send_file (f_file_path file) "File not found on disk"
            [f_mime_type file;
             disposition (sanitizeFilename (f_original_filename file)) []]
            {| dl_contentType := f_mime_type file;
               dl_filename := sanitizeFilename (f_original_filename file);
               dl_versionSuffix := None;
               dl_contentLength := f_file_size file;
               dl_stream := f_file_path file |} w
      end
  end.

Definition set_folder_id (r : file_row) (folder : option Z) : file_row :=
  {| f_id := f_id r; f_filename := f_filename r;
     f_original_filename := f_original_filename r;
     f_file_path := f_file_path r; f_file_size := f_file_size r;
     f_mime_type := f_mime_type r; f_uploaded_by := f_uploaded_by r;
     f_uploaded_at := f_uploaded_at r; f_folder_id := folder;
     f_current_version := f_current_version r |}.

(** [UPDATE files SET folder_id = ? WHERE id = ?] *)
Definition update_folder_id (d : database) (folder : option Z) (fid : Z)
  : database :=
  {| users := users d;
     folders := folders d;
     files := List.map (fun r => if f_id r =? fid
                                 then set_folder_id r folder else r)
                       (files d);
     file_versions := file_versions d;
     seq_folders := seq_folders d;
     seq_files := seq_files d;
     seq_versions := seq_versions d |}.

Definition moveFile (id : parsed) (folderId : field) (userId : Z)
  (w : world) : response unit * world :=
  let d := w_db w in
  match id with
  | NaN => (Err 400 "Invalid file ID", w)
  | Num fileId =>
      let targetFolderId := folderId in
      match folderId with
      | Some NaN => (Err 400 "Invalid folder ID", w)
      | _ =>
          match get_file d fileId with
          | None => (Err 404 "File not found", w)
          | Some file =>
              if negb (f_uploaded_by file =? userId)
              then (Err 403 "You can only move files you uploaded", w)
              else if truthy targetFolderId
                      && match sql_bind targetFolderId with
                         | Some t => match get_folder d t with
                                     | None => true
                                     | Some _ => false
                                     end
                         | None => false
                         end
              then (Err 404 "Target folder not found", w)
              else (Ok 200 tt,
                    with_db w (update_folder_id d (sql_bind targetFolderId)
                                                fileId))
          end
      end
  end.

Record storage_stats := {
  totalStorage : Z;
  filesTotal : Z;
  versionsTotal : Z;
  fileCount : Z
}.

Definition stats (w : world) : response storage_stats * world :=
  let d := w_db w in
  let filesResult := sql_sum (List.map f_file_size (files d)) in
  let versionsResult := sql_sum (List.map v_file_size (file_versions d)) in
  let filesTotal := or_null filesResult 0 in
  let versionsTotal := or_null versionsResult 0 in
  let totalStorage := filesTotal + versionsTotal in
  let fileCountResult := sql_count (files d) in
  (Ok 200 {| totalStorage := totalStorage; filesTotal := filesTotal;
             versionsTotal := versionsTotal;
             fileCount := fileCountResult |}, w).

(* ---------------------------------------------------------------- *)
(** *** routes/versions.ts *)

Record version_created := {
  vc_id : Z;
  vc_versionNumber : Z;
  vc_fileSize : Z;
  vc_uploadedAt : timestamp
}.

(** The number the next version gets, from [MAX(version_number)] of the
    file's rows and the file's [current_version]. *)
Definition next_version (d : database) (fileId : Z) : Z :=
  let maxVersion :=
    sql_max (List.map v_version_number (versions_of d fileId)) in
  let currentFile := get_file d fileId in
  let currentVersion := or_null (option_map f_current_version currentFile) 0 in
  let maxVersionNum := or_null maxVersion currentVersion in
  Z.max maxVersionNum currentVersion + 1.

Definition addVersion (id : parsed) (file : option multer_file) (userId : Z)
  (now : timestamp) (w : world) : response version_created * world :=
  let d := w_db w in
  match id with
  | NaN => (Err 400 "Invalid file ID", w)
  | Num fileId =>
      match file with
      | None => (Err 400 "No file uploaded", w)
      | Some reqFile =>
          match get_file d fileId with
          | None => (Err 404 "File not found", w)
          | Some _ =>
              let nextVersion := next_version d fileId in
              match insert_version d fileId nextVersion (mf_path reqFile)
                                   (mf_size reqFile) userId now with
              | None => (Err 500 constraint_failed, w)
              | Some (d1, rowid) =>
                  let d2 := update_current_version d1 nextVersion fileId in
                  (Ok 201 {| vc_id := rowid;
                             vc_versionNumber := nextVersion;
                             vc_fileSize := mf_size reqFile;
                             vc_uploadedAt := now |},
                   with_db w d2)
              end
          end
      end
  end.

Record version_info := {
  vi_id : Z;
  vi_versionNumber : Z;
  vi_fileSize : Z;
  vi_uploadedAt : timestamp;
  vi_uploadedBy : jsstring;
  vi_isCurrent : bool
}.

Record version_list := {
  lv_fileId : Z;
  lv_filename : jsstring;
  lv_currentVersion : Z;
  lv_versions : list version_info
}.

(** The rows of [SELECT .. FROM file_versions v JOIN users u ON
    v.uploaded_by = u.id WHERE v.file_id = ? ORDER BY v.version_number
    DESC]. *)
Definition select_versions (d : database) (fileId : Z)
  : list (version_row * user_row) :=
  order_by (fun a b => v_version_number (fst b) <=? v_version_number (fst a))
    (join_users d v_uploaded_by (fun v u => (v, u)) (versions_of d fileId)).

Definition listVersions (id : parsed) (w : world)
  : response version_list * world :=
  let d := w_db w in
  match id with
  | NaN => (Err 400 "Invalid file ID", w)
  | Num fileId =>
      match get_file d fileId with
      | None => (Err 404 "File not found", w)
      | Some file =>
          let versions := select_versions d fileId in
          (Ok 200
             {| lv_fileId := f_id file;
                lv_filename := f_original_filename file;
                lv_currentVersion := f_current_version file;
                lv_versions :=
                  List.map
                    (fun vu =>
                       let v := fst vu in
                       {| vi_id := v_id v;
                          vi_versionNumber := v_version_number v;
                          vi_fileSize := v_file_size v;
                          vi_uploadedAt := v_uploaded_at v;
                          vi_uploadedBy := u_username (snd vu);
                          vi_isCurrent :=
                            v_version_number v =? f_current_version file |})
                    versions |}, w)
      end
  end.

Definition restoreVersion (id vn : parsed) (w : world)
  : response Z * world :=
  let d := w_db w in
  match id, vn with
  | Num fileId, Num versionNumber =>
      match get_file d fileId with
      | None => (Err 404 "File not found", w)
      | Some _ =>
          match get_version d fileId versionNumber with
          | None => (Err 404 "Version not found", w)
          | Some _ =>
              (Ok 200 versionNumber,
               with_db w (update_current_version d versionNumber fileId))
          end
      end
  | _, _ => (Err 400 "Invalid file ID or version number", w)
  end.

Definition downloadVersion (id vn : parsed) (w : world)
  : response download * world :=
  let d := w_db w in
  match id, vn with
  | Num fileId, Num versionNumber =>
      match get_file d fileId with
      | None => (Err 404 "File not found", w)
      | Some file =>
          match get_version d fileId versionNumber with
          | None => (Err 404 "Version not found", w)
          | Some version =>
              send_file (v_file_path version) "Version file not found on disk"
                [lit "application/octet-stream";
                 disposition (sanitizeFilename (f_original_filename file))
                             (lit "_v" ++ toString versionNumber)]
                {| dl_contentType := lit "application/octet-stream";
                   dl_filename := sanitizeFilename (f_original_filename file);
                   dl_versionSuffix := Some versionNumber;
                   dl_contentLength := v_file_size version;
                   dl_stream := v_file_path version |} w
          end
      end
  | _, _ => (Err 400 "Invalid file ID or version number", w)
  end.

(* ---------------------------------------------------------------- *)
(** *** Requests and reachable states *)

Inductive request : Type :=
| CreateFolder (name : option jsstring) (parentFolderId : field)
    (userId : Z) (now : timestamp)
| ListContents (folderId : field)
| DeleteFolder (folderId : parsed) (userId : Z)
| UploadFiles (files : list multer_file) (folderId : field) (userId : Z)
    (now : timestamp)
| DownloadFile (id : parsed)
| MoveFile (id : parsed) (folderId : field) (userId : Z)
| Stats
| AddVersion (id : parsed) (file : option multer_file) (userId : Z)
    (now : timestamp)
| ListVersions (id : parsed)
| RestoreVersion (id vn : parsed)
| DownloadVersion (id vn : parsed).

(** The world after the server has answered a request. *)
Definition handle (r : request) (w : world) : world :=
  match r with
  | CreateFolder name parent userId now =>
      snd (createFolder name parent userId now w)
  | ListContents folderId => snd (listContents folderId w)
  | DeleteFolder folderId userId => snd (deleteFolder folderId userId w)
  | UploadFiles files folderId userId now =>
      snd (uploadFiles files folderId userId now w)
  | DownloadFile id => snd (downloadFile id w)
  | MoveFile id folderId userId => snd (moveFile id folderId userId w)
  | Stats => snd (stats w)
  | AddVersion id file userId now => snd (addVersion id file userId now w)
  | ListVersions id => snd (listVersions id w)
  | RestoreVersion id vn => snd (restoreVersion id vn w)
  | DownloadVersion id vn => snd (downloadVersion id vn w)
  end.

Definition run (rs : list request) (w : world) : world :=
  fold_left (fun w r => handle r w) rs w.

(** A freshly created catalog: users only, counters at zero. *)
Definition fresh (d : database) : Prop :=
  NoDup (List.map u_id (users d)) /\ folders d = [] /\ files d = []
  /\ file_versions d = []
  /\ seq_folders d = 0 /\ seq_files d = 0 /\ seq_versions d = 0.

End Server.

Import Server.

(* ================================================================== *)
(** ** Invariants of the catalog and notions the properties use *)

Module Invariants.

(** The ids the cascade from [roots] reaches: a root, or a row whose
    parent is reached. *)
Inductive in_subtree (rows : list folder_row) (roots : list Z) : Z -> Prop :=
| subtree_root (d : Z) : In d roots -> in_subtree rows roots d
| subtree_child (r : folder_row) (p : Z) :
    In r rows -> fo_parent_folder_id r = Some p ->
    in_subtree rows roots p -> in_subtree rows roots (fo_id r).

(** No two folders with the same parent (or both at the root) carry the
    same name. *)
Definition sibling_names_unique (d : database) : Prop :=
  NoDup (List.map (fun r => (fo_parent_folder_id r, fo_name r)) (folders d)).

(** Folder names are non-empty results of the sanitizer. *)
Definition folder_names_sanitized (d : database) : Prop :=
  forall r, In r (folders d) ->
    fo_name r <> [] /\ FileUtils.sanitizeFilename (fo_name r) = fo_name r.

Definition folder_parents_exist (d : database) : Prop :=
  forall r p, In r (folders d) -> fo_parent_folder_id r = Some p ->
    exists r', In r' (folders d) /\ fo_id r' = p.

Definition folder_ids_positive (d : database) : Prop :=
  (forall r, In r (folders d) -> 0 < fo_id r) /\ 0 <= seq_folders d.

Definition version_files_exist (d : database) : Prop :=
  forall v, In v (file_versions d) ->
    In (v_file_id v) (List.map f_id (files d)).

(** What holds of the catalog in every state the server reaches. *)
Record catalog_ok (d : database) : Prop := {
  ok_schema : schema_ok d;
  ok_version_files : version_files_exist d;
  ok_sibling_names : sibling_names_unique d;
  ok_folder_names : folder_names_sanitized d;
  ok_folder_parents : folder_parents_exist d;
  ok_folder_ids : folder_ids_positive d
}.

(** The [current_version] of the file [fid], when it exists. *)
Definition current_version_of (d : database) (fid : Z) : option Z :=
  option_map f_current_version (get_file d fid).

(** The version numbers of the rows of the file [fid], oldest row first. *)
Definition version_numbers (d : database) (fid : Z) : list Z :=
  List.map v_version_number (versions_of d fid).

(** [max(existing version numbers and currentVersion) + 1], as the
    specification words it. *)
Definition spec_next_version (d : database) (fid : Z) : option Z :=
  option_map (fun cv => fold_right Z.max cv (version_numbers d fid) + 1)
             (current_version_of d fid).

(** A new version of one file: what was uploaded, by whom, when. *)
Record version_upload := {
  vu_file : multer_file;
  vu_userId : Z;
  vu_now : timestamp
}.

(** [AddVersion] called once per upload, in order, on the file [fid]. *)
Fixpoint addVersions (fid : Z) (ups : list version_upload) (w : world)
  : list (response version_created) * world :=
  match ups with
  | [] => ([], w)
  | u :: rest =>
      let '(r, w1) :=
        addVersion (Num fid) (Some (vu_file u)) (vu_userId u) (vu_now u) w in
      let '(rs, w2) := addVersions fid rest w1 in
      (r :: rs, w2)
  end.

(** The numbers [a, a+1, .., a+n-1]. *)
Fixpoint zseq (a : Z) (n : nat) : list Z :=
  match n with
  | O => []
  | S k => a :: zseq (a + 1) k
  end.

(** A file row differs from another at most in [current_version]. *)
Definition same_but_current_version (r r' : file_row) : Prop :=
  f_id r' = f_id r /\ f_filename r' = f_filename r
  /\ f_original_filename r' = f_original_filename r
  /\ f_file_path r' = f_file_path r /\ f_file_size r' = f_file_size r
  /\ f_mime_type r' = f_mime_type r /\ f_uploaded_by r' = f_uploaded_by r
  /\ f_uploaded_at r' = f_uploaded_at r /\ f_folder_id r' = f_folder_id r.

(** The version number a response to [AddVersion] carries. *)
Definition returned_version (r : response version_created) : option Z :=
  match r with
  | Ok status body =>
      if status =? 201 then Some (vc_versionNumber body) else None
  | Err _ _ => None
  end.

(** The worlds in which the calls of [addVersions] run, first call
    first. *)
Fixpoint states_before (fid : Z) (ups : list version_upload) (w : world)
  : list world :=
  match ups with
  | [] => []
  | u :: rest =>
      w :: states_before fid rest
             (snd (addVersion (Num fid) (Some (vu_file u)) (vu_userId u)
                              (vu_now u) w))
  end.

(** The sum of a column. *)
Definition total (l : list Z) : Z := fold_right Z.add 0 l.

(** A request that asks for a new version of the file [fid]. *)
Definition adds_version_to (fid : Z) (r : request) : bool :=
  match r with
  | AddVersion (Num id) _ _ _ => id =? fid
  | _ => false
  end.

(** The file [fid] is as first upload made it: its row (with display name
    [name]) says version 1 and it has no version rows. *)
Definition first_version_only (d : database) (fid : Z) (name : jsstring)
  : Prop :=
  (exists r, get_file d fid = Some r /\ f_current_version r = 1
             /\ f_original_filename r = name)
  /\ versions_of d fid = [].

(** A folder id given with a request names an existing folder. *)
Definition folder_given_exists (d : database) (folderId : field) : Prop :=
  forall id, folderId = Some (Num id) -> id <> 0 -> get_folder d id <> None.

(** What C5 asserts of a world in which the file [fid] has had one new
    version after its first upload. *)
Definition restore_first_version_claim (w : world) (fid : Z) : Prop :=
  exists w' body e1 e2,
    restoreVersion (Num fid) (Num 1) w = (Ok 200 1, w')
    /\ current_version_of (w_db w') fid = Some 1
    /\ listVersions (Num fid) w' = (Ok 200 body, w')
    /\ lv_versions body = [e1; e2]
    /\ exists e, In e (lv_versions body)
                 /\ vi_versionNumber e = 1 /\ vi_isCurrent e = true.

End Invariants.

Import Invariants.

(* ================================================================== *)
(** ** The scenario of the specification, and other concrete worlds *)

Module Scenario.

Definition user_a : user_row :=
  {| u_id := 1; u_username := lit "jonah";
     u_password_hash := lit "$2b$10$a"; u_created_at := 0 |}.

Definition user_b : user_row :=
  {| u_id := 2; u_username := lit "steven";
     u_password_hash := lit "$2b$10$b"; u_created_at := 0 |}.

Definition empty_catalog : database :=
  {| users := [user_a; user_b]; folders := []; files := [];
     file_versions := [];
     seq_folders := 0; seq_files := 0; seq_versions := 0 |}.

Definition start : world :=
  {| w_db := empty_catalog;
     w_disk := fun _ => true;
     w_cwd := lit "/srv/app";
     w_trace := [] |}.

Definition clip_v1 : multer_file :=
  {| mf_originalname := lit "clip.mp4";
     mf_filename := lit "clip_1700000000000_k3x9q2a.mp4";
     mf_path := lit "/srv/app/uploads/clip_1700000000000_k3x9q2a.mp4";
     mf_size := 2097152;
     mf_mimetype := lit "video/mp4" |}.

Definition clip_v2 : multer_file :=
  {| mf_originalname := lit "clip.mp4";
     mf_filename := lit "clip_1700000100000_p7m2w5z.mp4";
     mf_path := lit "/srv/app/uploads/clip_1700000100000_p7m2w5z.mp4";
     mf_size := 3145728;
     mf_mimetype := lit "video/mp4" |}.

Definition clip_v3 : multer_file :=
  {| mf_originalname := lit "clip.mp4";
     mf_filename := lit "clip_1700000200000_b1c8d4e.mp4";
     mf_path := lit "/srv/app/uploads/clip_1700000200000_b1c8d4e.mp4";
     mf_size := 4194304;
     mf_mimetype := lit "video/mp4" |}.

(** Root folder "Media" (id 1), with a folder "Raw" (id 2) inside it and
    "Takes" (id 3) inside that. *)
Definition folder_requests : list request :=
  [CreateFolder (Some (lit "Media")) None 1 100;
   CreateFolder (Some (lit "Raw")) (Some (Num 1)) 1 110;
   CreateFolder (Some (lit "Takes")) (Some (Num 2)) 2 120].

(** "clip.mp4" uploaded into folder 1 by user 1: file 1. *)
Definition upload_request : request :=
  UploadFiles [clip_v1] (Some (Num 1)) 1 200.

Definition with_folders : world := run folder_requests start.

Definition with_file : world := handle upload_request with_folders.

(** One new version of file 1 by user 1. *)
Definition with_version : world :=
  handle (AddVersion (Num 1) (Some clip_v2) 1 300) with_file.

(** A second new version, by user 2. *)
Definition with_two_versions : world :=
  handle (AddVersion (Num 1) (Some clip_v3) 2 400) with_version.

Definition two_uploads : list version_upload :=
  [{| vu_file := clip_v2; vu_userId := 1; vu_now := 300 |};
   {| vu_file := clip_v3; vu_userId := 2; vu_now := 400 |}].

(** A stored path that climbs out of the upload directory, and a disk on
    which that path leads to a file. *)
Definition traversal_path : jsstring := lit "uploads/../../etc/passwd".

(** A catalog whose one file row points next to the upload directory,
    at a file that exists. *)
Definition sibling_path : jsstring := lit "/srv/app/uploads_private/keys.pem".

Definition stray_file : file_row :=
  {| f_id := 1; f_filename := lit "keys.pem";
     f_original_filename := lit "keys.pem";
     f_file_path := sibling_path; f_file_size := 1704;
     f_mime_type := lit "video/mp4"; f_uploaded_by := 1;
     f_uploaded_at := 50; f_folder_id := None; f_current_version := 2 |}.

Definition stray_version : version_row :=
  {| v_id := 1; v_file_id := 1; v_version_number := 2;
     v_file_path := sibling_path; v_file_size := 1704;
     v_uploaded_by := 1; v_uploaded_at := 60 |}.

Definition stray : world :=
  {| w_db := {| users := [user_a; user_b]; folders := [];
                files := [stray_file]; file_versions := [stray_version];
                seq_folders := 0; seq_files := 1; seq_versions := 1 |};
     w_disk := fun p => JS.eqb p sibling_path;
     w_cwd := lit "/srv/app";
     w_trace := [] |}.

End Scenario.


(* ================================================================== *)
(** ** More of JavaScript: [parseInt], number rendering, [split] *)

Module JSMore.

(** [s.split(sep)] for a one-character separator. *)
Fixpoint split_on (sep : N) (s : jsstring) : list jsstring :=
  match s with
  | [] => [[]]
  | c :: t =>
      if (c =? sep)%N then [] :: split_on sep t
      else match split_on sep t with
           | part :: rest => (c :: part) :: rest
           | [] => [[c]]
           end
  end.

Definition is_digit (c : N) : bool := ((48 <=? c) && (c <=? 57))%N.

(** The value of the longest prefix of decimal digits, starting from
    [acc]; [None] when the string does not start with a digit. *)
Fixpoint digits_value (s : jsstring) (acc : option N) : option N :=
  match s with
  | c :: t =>
      if is_digit c
      then digits_value t (Some (match acc with
                                 | Some a => a * 10 + (c - 48)
                                 | None => c - 48
                                 end)%N)
      else acc
  | [] => acc
  end.

(** [parseInt(s, 10)]: leading white space is skipped, one sign is read,
    then the longest run of digits; no digit gives [NaN].  The value is
    exact, as JavaScript's is up to 2^53. *)
Definition parseInt (s : jsstring) : parsed :=
  match trimStart s with
  | c :: t =>
      if (c =? 45)%N then
        match digits_value t None with
        | Some n => Num (- Z.of_N n)
        | None => NaN
        end
      else if (c =? 43)%N then
        match digits_value t None with
        | Some n => Num (Z.of_N n)
        | None => NaN
        end
      else
        match digits_value (c :: t) None with
        | Some n => Num (Z.of_N n)
        | None => NaN
        end
  | [] => NaN
  end.

(** [parseInt(x) || dflt]. *)
Definition or_parsed (p : parsed) (dflt : Z) : Z :=
  match p with
  | NaN => dflt
  | Num z => or_num z dflt
  end.

(** [Math.ceil(a / b)] on integers, [b] not zero. *)
Definition ceil_div (a b : Z) : Z := - ((- a) / b).

(** ASCII lower case, the folding SQLite's [LIKE] applies. *)
Definition lower (c : N) : N :=
  if ((65 <=? c) && (c <=? 90))%N then (c + 32)%N else c.

Definition percent : N := 37.

(** The matcher of SQLite's [LIKE], without [ESCAPE], on two lists of
    characters: [%] stands for any run of characters, [_] for any one
    character, letters match without regard to ASCII case. *)
Fixpoint like (pattern text : jsstring) {struct pattern} : bool :=
  match pattern with
  | [] => match text with [] => true | _ :: _ => false end
  | c :: p' =>
      if (c =? percent)%N then
        (fix any_run (s : jsstring) : bool :=
           like p' s || match s with
                        | [] => false
                        | _ :: s' => any_run s'
                        end) text
      else
        match text with
        | [] => false
        | x :: s' =>
            ((c =? FileUtils.underscore) || (lower c =? lower x))%N
            && like p' s'
        end
  end.

(** A C string ends at its first NUL. *)
Fixpoint until_nul (s : list N) : list N :=
  match s with
  | [] => []
  | c :: t => if (c =? 0)%N then [] else c :: until_nul t
  end.

(** The characters [LIKE] sees of a TEXT value: its code points, up to
    the first NUL. *)
Definition sql_chars (s : jsstring) : list N := until_nul (codepoints s).

(** [text LIKE pattern] *)
Definition sql_like (pattern text : jsstring) : bool :=
  like (sql_chars pattern) (sql_chars text).

(** A JavaScript number bound where SQLite wants an integer must be one
    it can hold in 64 bits, the two ends left out. *)
Definition sql_integer (z : Z) : bool := (- 2 ^ 63 <? z) && (z <? 2 ^ 63).

(** [LIMIT limit OFFSET offset]: a negative limit is no limit, a negative
    offset is none; [None] when a bound is no integer for SQLite and the
    statement throws `datatype mismatch`. *)
Definition sql_limit {A} (rows : list A) (limit offset : Z)
  : option (list A) :=
  if sql_integer limit && sql_integer offset then
    let rest := skipn (Z.to_nat offset) rows in
    Some (if limit <? 0 then rest else firstn (Z.to_nat limit) rest)
  else None.

End JSMore.

Import JSMore.

(* ================================================================== *)
(** ** config.ts and the upload filter *)

Module Config.

Definition allowedMimeTypes : list jsstring :=
  [lit "video/mp4"; lit "video/mpeg"; lit "video/quicktime";
   lit "video/x-msvideo"; lit "video/x-ms-wmv"; lit "video/webm";
   lit "audio/mpeg"; lit "audio/mp4"; lit "audio/wav"; lit "audio/x-wav";
   lit "audio/ogg"; lit "audio/webm";
   lit "image/jpeg"; lit "image/png"; lit "image/gif"; lit "image/webp";
   lit "image/svg+xml"; lit "image/bmp"].

(** fileUtils.ts: [config.allowedMimeTypes.includes(mimeType)]. *)
Definition isValidMimeType (mimeType : jsstring) : bool :=
  existsb (JS.eqb mimeType) allowedMimeTypes.

(** FileUpload.tsx, [validateFiles], for one file: its type starts with
    [video/], [audio/] or [image/]. *)
(** [config.maxFileSize] with [MAX_FILE_SIZE] unset: 10 GB. *)
Definition maxFileSize : Z := 10737418240.

(** What multer hands to a handler: a file the [fileFilter] accepted and
    the size limit did not stop. *)
Definition multer_passes (file : multer_file) : Prop :=
  isValidMimeType (mf_mimetype file) = true
  /\ 0 <= mf_size file <= maxFileSize.

(** What [upload.array('files', 10)] hands to the handler: at most ten
    such files. *)
Definition multer_array (files : list multer_file) : Prop :=
  (List.length files <= 10)%nat /\ Forall multer_passes files.

Definition clientAccepts (type : jsstring) : bool :=
  let isVideo := Path.startsWith type (lit "video/") in
  let isAudio := Path.startsWith type (lit "audio/") in
  let isImage := Path.startsWith type (lit "image/") in
  negb (negb isVideo && negb isAudio && negb isImage).

End Config.

(* ================================================================== *)
(** ** middleware/auth.ts and routes/auth.ts *)

Module Auth.

Definition colon : N := 58.

(** What the middleware does with a request: hand it on with the caller's
    identity, or answer it. *)
Inductive outcome : Type :=
| Next (userId : Z) (username : jsstring)
| Deny (status : Z) (error : string).

(** [SELECT id, username FROM users WHERE id = ? AND username = ?] *)
Definition find_user (d : database) (id : Z) (name : jsstring)
  : option user_row :=
  find (fun u => (u_id u =? id) && JS.eqb (u_username u) name) (users d).

Definition requireAuth (d : database) (authorization : option jsstring)
  : outcome :=
  match authorization with
  | None => Deny 401 "Authentication required"
  | Some authHeader =>
      if negb (Path.startsWith authHeader (lit "Bearer "))
      then Deny 401 "Authentication required"
      else
        let token := skipn 7 authHeader in
        match split_on colon token with
        | userId :: rest =>
            match parseInt userId with
            | NaN => Deny 401 "Invalid authentication token"
            | Num userIdNum =>
                match rest with
                | username :: _ =>
                    match find_user d userIdNum username with
                    | Some _ => Next userIdNum username
                    | None => Deny 401 "Invalid authentication token"
                    end
                | [] => Deny 401 "Invalid authentication token"
                end
            end
        | [] => Deny 401 "Invalid authentication token"
        end
  end.

Record session := {
  se_token : jsstring;
  se_userId : Z;
  se_username : jsstring
}.

Section Login.
(** [bcrypt.compare(password, hash)] is taken as given. *)
Variable bcrypt_compare : jsstring -> jsstring -> bool.

Definition login (d : database) (username password : option jsstring)
  : response session :=
  match username, password with
  | Some ((_ :: _) as name), Some ((_ :: _) as pass) =>
      match find (fun u => JS.eqb (u_username u) name) (users d) with
      | None => Err 401 "Invalid credentials"
      | Some user =>
          if negb (bcrypt_compare pass (u_password_hash user))
          then Err 401 "Invalid credentials"
          else
            Ok 200 {| se_token :=
                        toString (u_id user) ++ [colon] ++ u_username user;
                      se_userId := u_id user;
                      se_username := u_username user |}
      end
  | _, _ => Err 400 "Username and password are required"
  end.
End Login.

End Auth.

(* ================================================================== *)
(** ** The read-only routes: breadcrumbs, the file list, search *)

Module Browse.

Record path_entry := {
  pe_id : Z;
  pe_name : jsstring
}.

(** The [while (currentId)] loop of the breadcrumb route, [path.unshift]
    and all; [None] when [fuel] turns of the loop were not enough. *)
Fixpoint path_loop (fuel : nat) (d : database) (currentId : option Z)
  (path : list path_entry) {struct fuel} : option (list path_entry) :=
  match currentId with
  | None => Some path
  | Some c =>
      if c =? 0 then Some path
      else
        match fuel with
        | O => None
        | S k =>
            match get_folder d c with
            | None => Some path
            | Some folder =>
                path_loop k d (fo_parent_folder_id folder)
                  ({| pe_id := fo_id folder; pe_name := fo_name folder |}
                   :: path)
            end
        end
  end.

Definition folderPath (fuel : nat) (folderId : parsed) (w : world)
  : option (response (list path_entry) * world) :=
  match folderId with
  | NaN => Some (Err 400 "Invalid folder ID", w)
  | Num id =>
      match path_loop fuel (w_db w) (Some id) [] with
      | Some path => Some (Ok 200 path, w)
      | None => None
      end
  end.

Record file_entry := {
  fe_id : Z;
  fe_filename : jsstring;
  fe_size : Z;
  fe_mimeType : jsstring;
  fe_uploadedAt : timestamp;
  fe_uploadedBy : jsstring
}.

Definition file_entry_of (fu : file_row * user_row) : file_entry :=
  let f := fst fu in
  {| fe_id := f_id f; fe_filename := f_original_filename f;
     fe_size := f_file_size f; fe_mimeType := f_mime_type f;
     fe_uploadedAt := f_uploaded_at f;
     fe_uploadedBy := u_username (snd fu) |}.

(** [.. FROM files f JOIN users u ON f.uploaded_by = u.id [WHERE keep]
    ORDER BY f.uploaded_at DESC] *)
Definition select_files (d : database) (keep : file_row -> bool)
  : list (file_row * user_row) :=
  order_by (fun a b => f_uploaded_at (fst b) <=? f_uploaded_at (fst a))
    (join_users d f_uploaded_by (fun f u => (f, u)) (filter keep (files d))).

Record pagination := {
  pg_page : Z;
  pg_limit : Z;
  pg_total : Z;
  pg_totalPages : Z
}.

Definition listFiles (queryPage queryLimit : parsed) (w : world)
  : response (list file_entry * pagination) * world :=
  let d := w_db w in
  let page := or_parsed queryPage 1 in
  let limit := or_parsed queryLimit 50 in
  let offset := (page - 1) * limit in
  match sql_limit (select_files d (fun _ => true)) limit offset with
  | None => (Err 500 "Internal server error", w)
  | Some rows =>
      let total := sql_count (files d) in
      (Ok 200 (List.map file_entry_of rows,
               {| pg_page := page; pg_limit := limit; pg_total := total;
                  pg_totalPages := ceil_div total limit |}), w)
  end.

Definition searchFiles (q : option jsstring) (w : world)
  : response (list file_entry * jsstring) * world :=
  let d := w_db w in
  match q with
  | None => (Err 400 "Search query is required", w)
  | Some query =>
      match trim query with
      | [] => (Err 400 "Search query is required", w)
      | _ :: _ =>
          let searchTerm := [percent] ++ trim query ++ [percent] in
          let rows :=
            select_files d
              (fun f => sql_like searchTerm (f_original_filename f)) in
          (Ok 200 (List.map file_entry_of rows, query), w)
      end
  end.

End Browse.

Import Browse.


(* ================================================================== *)
(** ** What else holds of a catalog the server has built *)

Module History.

(** A world the server reaches from a fresh catalog. *)
Definition reachable (w : world) : Prop :=
  exists w0 rs, fresh (w_db w0) /\ w = run rs w0.

Definition folder_parents_older (d : database) : Prop :=
  forall r p, In r (folders d) -> fo_parent_folder_id r = Some p ->
    p < fo_id r.

Definition folder_ids_issued (d : database) : Prop :=
  NoDup (List.map fo_id (folders d))
  /\ forall r, In r (folders d) -> fo_id r <= seq_folders d.

Definition file_ids_issued (d : database) : Prop :=
  NoDup (List.map f_id (files d))
  /\ 0 <= seq_files d
  /\ forall f, In f (files d) -> 0 < f_id f <= seq_files d.

Definition creators_exist (d : database) : Prop :=
  (forall r, In r (folders d) -> user_exists d (fo_created_by r) = true)
  /\ (forall f, In f (files d) -> user_exists d (f_uploaded_by f) = true).

(** A file's folder reference is an id the folders table has issued (the
    folder may be gone since), or 0. *)
Definition file_folders_issued (d : database) : Prop :=
  forall f x, In f (files d) -> f_folder_id f = Some x ->
    0 <= x <= seq_folders d.

Definition file_names_sanitized (d : database) : Prop :=
  forall f, In f (files d) ->
    FileUtils.sanitizeFilename (f_original_filename f)
    = f_original_filename f.

Definition versions_numbered (d : database) : Prop :=
  (forall v, In v (file_versions d) -> 2 <= v_version_number v)
  /\ (forall f, In f (files d) -> 1 <= f_current_version f).

(** The current version of a file is 1 while it has no version rows, and
    the number of one of its version rows ever after. *)
Definition current_version_consistent (d : database) : Prop :=
  forall f, In f (files d) ->
    (versions_of d (f_id f) = [] /\ f_current_version f = 1)
    \/ In (f_current_version f) (version_numbers d (f_id f)).

Record history_ok (d : database) : Prop := {
  hi_parents_older : folder_parents_older d;
  hi_folder_ids : folder_ids_issued d;
  hi_file_ids : file_ids_issued d;
  hi_creators : creators_exist d;
  hi_file_folders : file_folders_issued d;
  hi_file_names : file_names_sanitized d;
  hi_numbered : versions_numbered d;
  hi_current : current_version_consistent d
}.

(** A request that can change the storage statistics. *)
Definition stores_bytes (r : request) : bool :=
  match r with
  | UploadFiles _ _ _ _ | AddVersion _ _ _ _ => true
  | _ => false
  end.

(** A request that touches versions only. *)
Definition is_version_request (r : request) : bool :=
  match r with
  | AddVersion _ _ _ _ | RestoreVersion _ _ => true
  | _ => false
  end.

(** A path component a resolved path is made of: not empty, not [.],
    not [..], and without a slash. *)
Definition plain_segment (s : jsstring) : Prop :=
  s <> [] /\ s <> [FileUtils.dot] /\ s <> [FileUtils.dot; FileUtils.dot]
  /\ ~ In FileUtils.slash s.

(** The absolute path with the components [segs]. *)
Definition rooted (segs : list jsstring) : jsstring :=
  FileUtils.slash :: Path.join_segments segs.

(** [q] occurs in [s] up to ASCII case. *)
Definition contains_nocase (q s : jsstring) : Prop :=
  exists a m b, s = a ++ m ++ b /\ List.map lower m = List.map lower q.

(** What the statistics route reports. *)
Definition stats_of (w : world) : storage_stats :=
  match fst (stats w) with
  | Ok _ body => body
  | Err _ _ =>
      {| totalStorage := 0; filesTotal := 0; versionsTotal := 0;
         fileCount := 0 |}
  end.

(** The rows page [k] of the file list shows, [limit] rows a page. *)
Definition page_entries (w : world) (limit k : Z) : list file_entry :=
  match fst (listFiles (Num k) (Num limit) w) with
  | Ok _ body => fst body
  | Err _ _ => []
  end.

End History.

Import History.

(* ================================================================== *)
(** ** Concrete inputs for the further properties *)

Module Cases.

(** The row of file 1 of the scenario, at a given current version. *)
Definition clip_row (currentVersion : Z) : file_row :=
  {| f_id := 1; f_filename := mf_filename Scenario.clip_v1;
     f_original_filename := lit "clip.mp4";
     f_file_path := mf_path Scenario.clip_v1;
     f_file_size := 2097152; f_mime_type := lit "video/mp4";
     f_uploaded_by := 1; f_uploaded_at := 200;
     f_folder_id := Some 1; f_current_version := currentVersion |}.

(** The components of the working directory of the scenario. *)
Definition app_dir : list jsstring := [lit "srv"; lit "app"].

(** The scenario after user 1 has deleted folder 1. *)
Definition after_delete : world :=
  snd (deleteFolder (Num 1) 1 Scenario.with_file).

(** What the first new version of file 1 is answered with. *)
Definition version_two : version_created :=
  {| vc_id := 1; vc_versionNumber := 2; vc_fileSize := 3145728;
     vc_uploadedAt := 300 |}.

(** What the upload of the scenario is answered with. *)
Definition first_upload : list uploaded :=
  [{| up_id := 1; up_filename := lit "clip.mp4"; up_size := 2097152;
      up_mimeType := lit "video/mp4"; up_uploadedAt := 200 |}].

(** A password check that accepts. *)
Definition any_password (password hash : jsstring) : bool := true.

Definition jonah_session : Auth.session :=
  {| Auth.se_token := lit "1:jonah"; Auth.se_userId := 1;
     Auth.se_username := lit "jonah" |}.

End Cases.

(** Folders nested one inside the other, as many as one likes: the
    server sets no bound on the depth of a tree. *)
Module Deep.

(** The request that creates folder [k + 1], inside folder [k] (the
    first one at the root), by user 1. *)
Definition nest (k : nat) : request :=
  CreateFolder (Some (lit "d"))
               (match k with
                | O => None
                | S _ => Some (Num (Z.of_nat k))
                end)
               1 0.

Definition chain (n : nat) : list request := List.map nest (seq 0 n).

(** 1001 folders: folder 1001 lies 1000 levels below folder 1. *)
Definition tree : world := run (chain 1001) Scenario.start.

(** The row of folder [k + 1] in that chain, and the catalog of the
    chain. *)
Definition row (k : nat) : folder_row :=
  {| fo_id := Z.of_nat (S k); fo_name := lit "d";
     fo_parent_folder_id := match k with
                            | O => None
                            | S _ => Some (Z.of_nat k)
                            end;
     fo_created_by := 1; fo_created_at := 0 |}.

Definition catalog : database :=
  {| users := users Scenario.empty_catalog;
     folders := List.map row (seq 0 1001);
     files := []; file_versions := [];
     seq_folders := 1001; seq_files := 0; seq_versions := 0 |}.

End Deep.

(* ================================================================== *)
(** * Properties *)

(** ** Strings and the filename sanitizer *)

Lemma jsstring_eqb_eq (a b : jsstring) : JS.eqb a b = true <-> a = b.
Proof.
  unfold JS.eqb. destruct (list_eq_dec N.eq_dec a b); split; congruence.
Qed.

Lemma jsstring_eqb_refl (a : jsstring) : JS.eqb a a = true.
Proof. now apply jsstring_eqb_eq. Qed.

Lemma text_eqb_refl (a : jsstring) : text_eqb a a = true.
Proof. apply jsstring_eqb_refl. Qed.

Lemma substring_trans (p q s : jsstring) :
  substring p q -> substring q s -> substring p s.
Proof.
  intros (a & b & ->) (c & d & ->).
  exists (c ++ a), (b ++ d). now rewrite <- !app_assoc.
Qed.

Lemma trimStart_suffix (s : jsstring) : exists a, s = a ++ trimStart s.
Proof.
  induction s as [|c t [a Ha]]; simpl.
  - now exists [].
  - destruct (is_space c).
    + exists (c :: a). simpl. now f_equal.
    + now exists [].
Qed.

Lemma trimEnd_prefix (s : jsstring) : exists b, s = trimEnd s ++ b.
Proof.
  unfold trimEnd. destruct (trimStart_suffix (rev s)) as [a Ha].
  exists (rev a). rewrite <- rev_app_distr, <- Ha. now rewrite rev_involutive.
Qed.

Lemma trim_substring (s : jsstring) : substring (trim s) s.
Proof.
  unfold trim. destruct (trimStart_suffix s) as [a Ha].
  destruct (trimEnd_prefix (trimStart s)) as [b Hb].
  exists a, b. now rewrite <- Hb.
Qed.

Lemma substring_In (p s : jsstring) (c : N) :
  substring p s -> In c p -> In c s.
Proof.
  intros (a & b & ->) H. apply in_or_app. right. apply in_or_app. now left.
Qed.


Import FileUtils.

Lemma dotdot_free_cons (c : N) (t : jsstring) :
  dotdot_free (c :: t) = true -> dotdot_free t = true.
Proof.
  destruct t as [|d u]; [reflexivity|].
  intros H. change (negb ((c =? dot) && (d =? dot))%N
                    && dotdot_free (d :: u) = true) in H.
  now apply andb_prop in H.
Qed.

Lemma dotdot_free_sound (s : jsstring) :
  dotdot_free s = true -> ~ substring [dot; dot] s.
Proof.
  intros H (a & b & E). subst s. induction a as [|x a IH].
  - simpl in H. discriminate.
  - apply IH. exact (dotdot_free_cons _ _ H).
Qed.

Lemma replace_dotdot_head (c : N) (t : jsstring) :
  c <> dot -> replace_dotdot (c :: t) = c :: replace_dotdot t.
Proof.
  intros Hc. simpl. destruct t as [|d u]; [reflexivity|].
  apply N.eqb_neq in Hc. now rewrite Hc.
Qed.

Lemma replace_dotdot_free_aux (n : nat) :
  forall s, (List.length s <= n)%nat -> dotdot_free (replace_dotdot s) = true.
Proof.
  induction n as [|n IH]; intros s Hn.
  - destruct s; [reflexivity | simpl in Hn; lia].
  - destruct s as [|c [|d u]]; try reflexivity.
    simpl in Hn.
    change (replace_dotdot (c :: d :: u))
      with (if ((c =? dot) && (d =? dot))%N
            then underscore :: replace_dotdot u
            else c :: replace_dotdot (d :: u)).
    destruct ((c =? dot) && (d =? dot))%N eqn:E.
    + assert (Hu : dotdot_free (replace_dotdot u) = true)
        by (apply IH; lia).
      simpl. destruct (replace_dotdot u); [reflexivity|].
      now rewrite Hu.
    + assert (Ht : dotdot_free (replace_dotdot (d :: u)) = true)
        by (apply IH; simpl; lia).
      destruct (N.eq_dec d dot) as [Hd|Hd].
      * (* then [c] is not a dot *)
        subst d. rewrite N.eqb_refl, andb_true_r in E.
        remember (replace_dotdot (dot :: u)) as r.
        simpl. destruct r; [reflexivity|].
        now rewrite E, Ht.
      * rewrite (replace_dotdot_head d u Hd) in *.
        simpl. simpl in Ht. rewrite Ht.
        apply N.eqb_neq in Hd. rewrite Hd, andb_false_r. reflexivity.
Qed.

Lemma replace_dotdot_free (s : jsstring) :
  dotdot_free (replace_dotdot s) = true.
Proof. now apply (replace_dotdot_free_aux (List.length s)). Qed.

Lemma replace_class_dotdot_free (cls : N -> bool) (s : jsstring) :
  dotdot_free s = true -> dotdot_free (replace_class cls s) = true.
Proof.
  unfold replace_class. induction s as [|c t IH]; [reflexivity|].
  destruct t as [|d u]; [reflexivity|].
  intros H. simpl in H. apply andb_prop in H. destruct H as [H1 H2].
  specialize (IH H2). simpl in *. rewrite IH, andb_true_r.
  destruct (cls c); [reflexivity|].
  destruct (cls d); [now rewrite andb_false_r|exact H1].
Qed.

Lemma replace_dotdot_In (x : N) (s : jsstring) :
  In x (replace_dotdot s) -> In x s \/ x = underscore.
Proof.
  revert x. enough (H : forall n s, (List.length s <= n)%nat ->
    forall x, In x (replace_dotdot s) -> In x s \/ x = underscore)
    by (intros x; now apply (H (List.length s))).
  clear s. induction n as [|n IH]; intros s Hn x Hx.
  - destruct s; [now left | simpl in Hn; lia].
  - destruct s as [|c [|d u]]; [now left | now left |].
    simpl in Hn.
    change (replace_dotdot (c :: d :: u))
      with (if ((c =? dot) && (d =? dot))%N
            then underscore :: replace_dotdot u
            else c :: replace_dotdot (d :: u)) in Hx.
    destruct ((c =? dot) && (d =? dot))%N.
    + destruct Hx as [<-|Hx]; [now right|].
      destruct (IH u ltac:(lia) x Hx); [left; simpl; tauto | now right].
    + destruct Hx as [<-|Hx]; [left; simpl; tauto|].
      destruct (IH (d :: u) ltac:(simpl; lia) x Hx);
        [left; simpl in *; tauto | now right].
Qed.

Lemma replace_class_In (cls : N -> bool) (x : N) (s : jsstring) :
  In x (replace_class cls s) -> (In x s /\ cls x = false) \/ x = underscore.
Proof.
  unfold replace_class. intros H. apply in_map_iff in H.
  destruct H as (c & Hc & Hin). destruct (cls c) eqn:E.
  - now right.
  - left. subst. now split.
Qed.

Lemma sanitizeFilename_no_separator (s : jsstring) (x : N) :
  is_separator x = true -> ~ In x (sanitizeFilename s).
Proof.
  intros Hx Hin. unfold sanitizeFilename in Hin.
  apply (substring_In _ _ _ (trim_substring _)) in Hin.
  assert (Hu : x <> underscore).
  { intros ->. discriminate. }
  apply replace_class_In in Hin. destruct Hin as [[Hin _]|]; [|tauto].
  apply replace_dotdot_In in Hin. destruct Hin as [Hin|]; [|tauto].
  apply replace_class_In in Hin. destruct Hin as [[_ Hin]|]; [|tauto].
  congruence.
Qed.

Lemma sanitizeFilename_no_dotdot (s : jsstring) :
  ~ substring [dot; dot] (sanitizeFilename s).
Proof.
  intros H. unfold sanitizeFilename in H.
  apply (fun H' => substring_trans _ _ _ H' (trim_substring _)) in H.
  revert H. apply dotdot_free_sound, replace_class_dotdot_free.
  apply replace_dotdot_free.
Qed.

Lemma sanitizeFilename_path_safe (s : jsstring) :
  path_safe (sanitizeFilename s).
Proof.
  repeat split.
  - now apply sanitizeFilename_no_separator.
  - now apply sanitizeFilename_no_separator.
  - apply sanitizeFilename_no_dotdot.
Qed.

Lemma dotdot_free_complete (s : jsstring) :
  ~ substring [dot; dot] s -> dotdot_free s = true.
Proof.
  induction s as [|c t IH]; intros H; [reflexivity|].
  destruct t as [|d u]; [reflexivity|].
  change (negb ((c =? dot) && (d =? dot))%N && dotdot_free (d :: u) = true).
  apply andb_true_intro. split.
  - destruct ((c =? dot) && (d =? dot))%N eqn:E; [|reflexivity].
    exfalso. apply andb_prop in E. destruct E as [E1 E2].
    apply N.eqb_eq in E1, E2. subst. apply H. now exists [], u.
  - apply IH. intros (a & b & E). apply H. exists (c :: a), b.
    simpl. now rewrite E.
Qed.

Lemma replace_dotdot_fixed (s : jsstring) :
  dotdot_free s = true -> replace_dotdot s = s.
Proof.
  induction s as [|c t IH]; intros H; [reflexivity|].
  destruct t as [|d u]; [reflexivity|].
  change (negb ((c =? dot) && (d =? dot))%N && dotdot_free (d :: u) = true)
    in H.
  apply andb_prop in H. destruct H as [H1 H2].
  change (replace_dotdot (c :: d :: u))
    with (if ((c =? dot) && (d =? dot))%N
          then underscore :: replace_dotdot u
          else c :: replace_dotdot (d :: u)).
  apply negb_true_iff in H1. rewrite H1. f_equal. now apply IH.
Qed.

Lemma replace_class_fixed (cls : N -> bool) (s : jsstring) :
  (forall x, In x s -> cls x = false) -> replace_class cls s = s.
Proof.
  intros H. unfold replace_class. rewrite <- (map_id s) at 2.
  apply map_ext_in. intros x Hx. now rewrite (H x Hx).
Qed.

Lemma trimStart_fixed (s : jsstring) :
  match s with c :: _ => is_space c = false | [] => True end ->
  trimStart s = s.
Proof. destruct s as [|c t]; [reflexivity|]. simpl. now intros ->. Qed.

Lemma trimStart_clean (s : jsstring) :
  match trimStart s with c :: _ => is_space c = false | [] => True end.
Proof.
  induction s as [|c t IH]; [exact I|].
  simpl. destruct (is_space c) eqn:E; [exact IH|exact E].
Qed.

Lemma trimStart_idempotent (s : jsstring) :
  trimStart (trimStart s) = trimStart s.
Proof. apply trimStart_fixed, trimStart_clean. Qed.

Lemma trim_idempotent (s : jsstring) : trim (trim s) = trim s.
Proof.
  unfold trim. set (a := trimStart s).
  assert (Hb : trimStart (trimEnd a) = trimEnd a).
  { apply trimStart_fixed. destruct (trimEnd_prefix a) as [x Hx].
    pose proof (trimStart_clean s) as Ha. fold a in Ha.
    destruct (trimEnd a) as [|c t]; [exact I|].
    rewrite Hx in Ha. exact Ha. }
  rewrite Hb. unfold trimEnd at 1. unfold trimEnd at 1.
  rewrite rev_involutive, trimStart_idempotent. reflexivity.
Qed.

Lemma sanitizeFilename_no_reserved (s : jsstring) (x : N) :
  In x (sanitizeFilename s) -> is_reserved x = false.
Proof.
  intros Hin. unfold sanitizeFilename in Hin.
  apply (substring_In _ _ _ (trim_substring _)) in Hin.
  apply replace_class_In in Hin. destruct Hin as [[_ H]|H]; [exact H|].
  now subst x.
Qed.

(** Sanitizing a sanitized name changes nothing. *)
Lemma sanitizeFilename_idempotent (s : jsstring) :
  sanitizeFilename (sanitizeFilename s) = sanitizeFilename s.
Proof.
  set (t := sanitizeFilename s).
  assert (Hsep : forall x, In x t -> is_separator x = false).
  { intros x Hx. destruct (is_separator x) eqn:E; [|reflexivity].
    exfalso. exact (sanitizeFilename_no_separator s x E Hx). }
  assert (Hres : forall x, In x t -> is_reserved x = false)
    by (intros x; apply sanitizeFilename_no_reserved).
  assert (Hdd : dotdot_free t = true)
    by (apply dotdot_free_complete, sanitizeFilename_no_dotdot).
  unfold sanitizeFilename at 1.
  rewrite (replace_class_fixed _ _ Hsep), (replace_dotdot_fixed _ Hdd),
    (replace_class_fixed _ _ Hres).
  unfold t, sanitizeFilename. apply trim_idempotent.
Qed.


(** ** Queries *)

Section SortingFacts.
Context {A : Type}.
Variable leb : A -> A -> bool.
Hypothesis leb_total : forall x y, leb x y = true \/ leb y x = true.

Lemma insert_by_perm (x : A) (l : list A) :
  Permutation (x :: l) (insert_by leb x l).
Proof.
  induction l as [|y t IH]; simpl; [reflexivity|].
  destruct (leb x y); [reflexivity|].
  rewrite perm_swap. now constructor.
Qed.

Lemma order_by_perm (l : list A) : Permutation l (order_by leb l).
Proof.
  induction l as [|x t IH]; simpl; [reflexivity|].
  rewrite <- insert_by_perm. now constructor.
Qed.

Lemma insert_by_sorted (x : A) (l : list A) :
  Sorted (fun a b => leb a b = true) l ->
  Sorted (fun a b => leb a b = true) (insert_by leb x l).
Proof.
  induction 1 as [|y t Ht IH Hy]; simpl.
  - repeat constructor.
  - destruct (leb x y) eqn:E.
    + repeat constructor; assumption.
    + constructor; [assumption|].
      destruct (leb_total x y) as [H'|H']; [congruence|].
      destruct t as [|z u]; simpl.
      * now constructor.
      * destruct (leb x z); constructor; trivial.
        now inversion Hy.
Qed.

Lemma order_by_sorted (l : list A) :
  Sorted (fun a b => leb a b = true) (order_by leb l).
Proof.
  induction l as [|x t IH]; simpl; [constructor|].
  now apply insert_by_sorted.
Qed.

End SortingFacts.

Lemma order_by_In {A} (leb : A -> A -> bool) (l : list A) (x : A) :
  In x (order_by leb l) <-> In x l.
Proof.
  split; intros H.
  - eapply Permutation_in; [symmetry; apply order_by_perm | exact H].
  - eapply Permutation_in; [apply order_by_perm | exact H].
Qed.

Lemma order_by_length {A} (leb : A -> A -> bool) (l : list A) :
  List.length (order_by leb l) = List.length l.
Proof. symmetry. apply Permutation_length, order_by_perm. Qed.

Lemma null_safe_eqb_eq (a b : option Z) : null_safe_eqb a b = true <-> a = b.
Proof.
  destruct a, b; simpl; split; try congruence.
  - intros H. apply Z.eqb_eq in H. congruence.
  - intros [= ->]. apply Z.eqb_refl.
Qed.

Lemma sql_max_ge (l : list Z) (m x : Z) :
  sql_max l = Some m -> In x l -> x <= m.
Proof.
  revert m. induction l as [|y t IH]; intros m Hm Hx; [easy|].
  simpl in Hm. destruct (sql_max t) as [m'|] eqn:E.
  - injection Hm as <-. destruct Hx as [<-|Hx]; [lia|].
    specialize (IH m' eq_refl Hx). lia.
  - injection Hm as <-. destruct Hx as [<-|Hx]; [lia|].
    destruct t; [easy | simpl in E; destruct (sql_max t); discriminate].
Qed.

Lemma sql_max_In (l : list Z) (m : Z) : sql_max l = Some m -> In m l.
Proof.
  revert m. induction l as [|y t IH]; intros m Hm; [easy|].
  simpl in Hm. destruct (sql_max t) as [m'|] eqn:E.
  - injection Hm as <-. specialize (IH m' eq_refl).
    destruct (Z.max_spec y m') as [[_ ->]|[_ ->]]; simpl; tauto.
  - injection Hm as <-. now left.
Qed.

Lemma sql_max_None (l : list Z) : sql_max l = None <-> l = [].
Proof.
  destruct l as [|y t]; simpl; [tauto|].
  destruct (sql_max t); split; discriminate.
Qed.


(** ** Sanitized names *)

Lemma createFolder_appends name parentFolderId userId now w :
  folders (w_db (snd (createFolder name parentFolderId userId now w)))
    = folders (w_db w)
  \/ exists id,
       folders (w_db (snd (createFolder name parentFolderId userId now w)))
       = folders (w_db w) ++
           [{| fo_id := id;
               fo_name := sanitizeFilename (trim (match name with
                                                  | Some n => n
                                                  | None => []
                                                  end));
               fo_parent_folder_id := sql_bind parentFolderId;
               fo_created_by := userId; fo_created_at := now |}]
         /\ id = next_rowid (List.map fo_id (folders (w_db w)))
                            (seq_folders (w_db w))
         /\ seq_folders
              (w_db (snd (createFolder name parentFolderId userId now w)))
            = id.
Proof.
  unfold createFolder. destruct name as [n|]; [|now left].
  destruct (trim n); [now left|].
  destruct (sanitizeFilename _) eqn:Es; [now left|].
  destruct (truthy parentFolderId && _); [now left|].
  destruct (find_sibling _ _ _); [now left|].
  unfold insert_folder.
  destruct (folder_fk_ok _ _ _ && folder_unique_ok _ _ _); [|now left].
  right. eexists. simpl. repeat split.
Qed.

(** C9. Whatever the input, [sanitizeFilename] returns a string with no
    slash, no backslash and no two consecutive dots; so the name of every
    folder row [createFolder] inserts, and the sanitized base every
    generated storage name starts with, are free of path separators and of
    the parent-directory sequence. *)
Theorem sanitizeFilename_never_traverses :
  (forall s : jsstring,
     ~ In slash (sanitizeFilename s)
     /\ ~ In backslash (sanitizeFilename s)
     /\ ~ substring (lit "..") (sanitizeFilename s))
  /\ (forall name parentFolderId userId now w,
        exists added,
          folders (w_db (snd (createFolder name parentFolderId userId now w)))
            = folders (w_db w) ++ added
          /\ Forall (fun r => path_safe (fo_name r)) added)
  /\ (forall extname basename timestamp random original,
        exists ext,
          generateUniqueFilename extname basename timestamp random original
            = sanitizedBase extname basename original
              ++ [underscore] ++ timestamp ++ [underscore] ++ random ++ ext
          /\ path_safe (sanitizedBase extname basename original)).
Proof.
  split; [|split].
  - intros s. apply sanitizeFilename_path_safe.
  - intros name parentFolderId userId now w.
    destruct (createFolder_appends name parentFolderId userId now w)
      as [E|(id & E & _)]; rewrite E.
    + exists []. now rewrite app_nil_r.
    + eexists. split; [reflexivity|].
      constructor; [|constructor]. apply sanitizeFilename_path_safe.
  - intros extname basename timestamp random original.
    exists (extname original). split; [reflexivity|].
    apply sanitizeFilename_path_safe.
Qed.

(** ** Storage statistics *)

Lemma or_null_sql_sum (l : list Z) : or_null (sql_sum l) 0 = total l.
Proof.
  destruct l as [|x t]; [reflexivity|].
  unfold sql_sum, or_null, or_num, total.
  destruct (fold_right Z.add 0 (x :: t) =? 0) eqn:E; [|reflexivity].
  apply Z.eqb_eq in E. now rewrite E.
Qed.

(** C8. In every catalog state the statistics route answers with
    [filesTotal] the sum of [file_size] over all file rows,
    [versionsTotal] the sum of [file_size] over all version rows,
    [totalStorage] the sum of the two, and [fileCount] the number of file
    rows; the world is left as it was. *)
Theorem stats_sums_files_and_versions (w : world) :
  stats w =
    (Ok 200
       {| totalStorage :=
            total (List.map f_file_size (files (w_db w)))
            + total (List.map v_file_size (file_versions (w_db w)));
          filesTotal := total (List.map f_file_size (files (w_db w)));
          versionsTotal :=
            total (List.map v_file_size (file_versions (w_db w)));
          fileCount := Z.of_nat (List.length (files (w_db w))) |},
     w).
Proof.
  unfold stats. now rewrite !or_null_sql_sum.
Qed.

(** ** Updating the current version *)

Lemma find_map_id {A} (key : A -> Z) (upd : A -> A) (k : Z) (l : list A) :
  (forall r, key (upd r) = key r) ->
  find (fun r => key r =? k) (List.map upd l)
  = option_map upd (find (fun r => key r =? k) l).
Proof.
  intros Hk. induction l as [|x t IH]; [reflexivity|].
  simpl. rewrite Hk. destruct (key x =? k); [reflexivity|exact IH].
Qed.

Lemma get_file_update_current_version (d : database) (vn fid k : Z) :
  get_file (update_current_version d vn fid) k
  = option_map (fun r => if f_id r =? fid then set_current_version r vn
                         else r)
               (get_file d k).
Proof.
  unfold get_file, update_current_version. simpl.
  apply find_map_id. intros r. now destruct (f_id r =? fid).
Qed.

Lemma get_file_id (d : database) (k : Z) (f : file_row) :
  get_file d k = Some f -> f_id f = k /\ In f (files d).
Proof.
  unfold get_file. intros H. apply find_some in H.
  destruct H as [H1 H2]. apply Z.eqb_eq in H2. now split.
Qed.

Lemma current_version_after_update (d : database) (vn fid : Z) (f : file_row) :
  get_file d fid = Some f ->
  current_version_of (update_current_version d vn fid) fid = Some vn.
Proof.
  intros H. unfold current_version_of.
  rewrite get_file_update_current_version, H. simpl.
  destruct (get_file_id _ _ _ H) as [-> _]. now rewrite Z.eqb_refl.
Qed.

Lemma Forall2_map_r {A} (R : A -> A -> Prop) (f : A -> A) (l : list A) :
  (forall x, R x (f x)) -> Forall2 R l (List.map f l).
Proof. intros H. induction l; simpl; constructor; auto. Qed.

(** C3. [restoreVersion] answers 404 and leaves the world untouched when
    the file is absent, or when it is present but has no row with that
    version number.  When both exist it answers 200 and the world changes
    in one place only: [current_version] of the file becomes the number
    asked for.  Every file row keeps its id, names, path, size, mime type,
    uploader, timestamp and folder (rows of other files are identical);
    users, folders, version rows and counters, the disk, and the trace of
    file-system calls (so: nothing read, written or moved) are as
    before. *)
Theorem restoreVersion_changes_only_current_version
  (w : world) (fid vn : Z) :
  let d := w_db w in
  let '(r, w') := restoreVersion (Num fid) (Num vn) w in
  match get_file d fid, get_version d fid vn with
  | None, _ =>
      r = Err 404 "File not found" /\ kind r = Some NotFound /\ w' = w
  | Some _, None =>
      r = Err 404 "Version not found" /\ kind r = Some NotFound /\ w' = w
  | Some _, Some _ =>
      r = Ok 200 vn
      /\ current_version_of (w_db w') fid = Some vn
      /\ Forall2 (fun f f' => same_but_current_version f f'
                              /\ (f_id f <> fid -> f' = f))
                 (files d) (files (w_db w'))
      /\ users (w_db w') = users d
      /\ folders (w_db w') = folders d
      /\ file_versions (w_db w') = file_versions d
      /\ seq_folders (w_db w') = seq_folders d
      /\ seq_files (w_db w') = seq_files d
      /\ seq_versions (w_db w') = seq_versions d
      /\ w_disk w' = w_disk w
      /\ w_cwd w' = w_cwd w
      /\ w_trace w' = w_trace w
  end.
Proof.
  unfold restoreVersion. simpl.
  destruct (get_file (w_db w) fid) as [f|] eqn:Ef; [|now repeat split].
  destruct (get_version (w_db w) fid vn) as [v|] eqn:Ev; [|now repeat split].
  split; [reflexivity|]. split.
  { simpl. eapply current_version_after_update; eassumption. }
  split; [|now repeat split].
  simpl. apply Forall2_map_r. intros x.
  destruct (f_id x =? fid) eqn:E.
  - split; [now repeat split|]. apply Z.eqb_eq in E. congruence.
  - split; [now repeat split|reflexivity].
Qed.

(** ** Appending versions *)

Lemma zseq_In (x a : Z) (n : nat) :
  In x (zseq a n) <-> a <= x < a + Z.of_nat n.
Proof.
  revert a. induction n as [|n IH]; intros a; simpl zseq.
  - simpl. lia.
  - simpl In. rewrite IH. lia.
Qed.

Lemma zseq_snoc (a : Z) (n : nat) :
  zseq a (S n) = zseq a n ++ [a + Z.of_nat n].
Proof.
  revert a. induction n as [|n IH]; intros a.
  - simpl. now rewrite Z.add_0_r.
  - change (zseq a (S (S n))) with (a :: zseq (a + 1) (S n)).
    rewrite IH. simpl. do 3 f_equal. lia.
Qed.

Lemma zseq_NoDup (a : Z) (n : nat) : NoDup (zseq a n).
Proof.
  revert a. induction n as [|n IH]; intros a; simpl; constructor.
  - rewrite zseq_In. lia.
  - apply IH.
Qed.

Lemma fold_max_bounded (c : Z) (l : list Z) :
  (forall x, In x l -> x <= c) -> fold_right Z.max c l = c.
Proof.
  induction l as [|y t IH]; intros H; [reflexivity|].
  simpl. rewrite IH by (intros; apply H; now right).
  specialize (H y (or_introl eq_refl)). lia.
Qed.

Lemma user_exists_ext (d d' : database) (uid : Z) :
  users d' = users d -> user_exists d' uid = user_exists d uid.
Proof. unfold user_exists. now intros ->. Qed.

Lemma get_file_existsb (d : database) (fid : Z) (f : file_row) :
  get_file d fid = Some f ->
  existsb (fun r => f_id r =? fid) (files d) = true.
Proof.
  intros H. apply existsb_exists. exists f.
  destruct (get_file_id _ _ _ H) as [E Hin]. split; [exact Hin|].
  now apply Z.eqb_eq.
Qed.

Lemma version_absent (d : database) (fid vn : Z) :
  ~ In vn (version_numbers d fid) ->
  existsb (fun r => (v_file_id r =? fid) && (v_version_number r =? vn))
          (file_versions d) = false.
Proof.
  intros H. destruct (existsb _ _) eqn:E; [|reflexivity].
  exfalso. apply H. apply existsb_exists in E.
  destruct E as (r & Hin & Hr). apply andb_prop in Hr.
  destruct Hr as [H1 H2]. apply Z.eqb_eq in H2. subst vn.
  unfold version_numbers, versions_of. apply in_map, filter_In. now split.
Qed.

(** The number [addVersion] picks when the file's rows are numbered at
    most its current version, and that is positive. *)
Lemma next_version_bounded (d : database) (fid c : Z) :
  current_version_of d fid = Some c -> 0 < c ->
  (forall x, In x (version_numbers d fid) -> 0 < x <= c) ->
  next_version d fid = c + 1
  /\ spec_next_version d fid = Some (c + 1).
Proof.
  intros Hc Hpos Hb. unfold spec_next_version. rewrite Hc. simpl.
  rewrite fold_max_bounded by (intros x Hx; apply Hb in Hx; lia).
  split; [|reflexivity].
  unfold next_version. fold (version_numbers d fid).
  unfold current_version_of in Hc. rewrite Hc. simpl.
  assert (E : or_num c 0 = c).
  { unfold or_num. destruct (c =? 0) eqn:E; [apply Z.eqb_eq in E; lia|].
    reflexivity. }
  rewrite E.
  destruct (sql_max (version_numbers d fid)) as [m|] eqn:Em; simpl.
  - apply sql_max_In in Em. apply Hb in Em.
    unfold or_num. destruct (m =? 0) eqn:E0; [apply Z.eqb_eq in E0|]; lia.
  - lia.
Qed.

Lemma addVersion_step (w : world) (fid : Z) (k : nat) (up : multer_file)
  (uid : Z) (now : timestamp) :
  current_version_of (w_db w) fid = Some (Z.of_nat k + 1) ->
  version_numbers (w_db w) fid = zseq 2 k ->
  user_exists (w_db w) uid = true ->
  exists rowid w',
    addVersion (Num fid) (Some up) uid now w
    = (Ok 201 {| vc_id := rowid; vc_versionNumber := Z.of_nat k + 2;
                 vc_fileSize := mf_size up; vc_uploadedAt := now |}, w')
    /\ spec_next_version (w_db w) fid = Some (Z.of_nat k + 2)
    /\ current_version_of (w_db w') fid = Some (Z.of_nat (S k) + 1)
    /\ version_numbers (w_db w') fid = zseq 2 (S k)
    /\ users (w_db w') = users (w_db w).
Proof.
  intros Hc Hv Hu.
  destruct (next_version_bounded (w_db w) fid (Z.of_nat k + 1) Hc)
    as [Hn Hs]; [lia| |].
  { intros x Hx. rewrite Hv in Hx. apply zseq_In in Hx. lia. }
  replace (Z.of_nat k + 1 + 1) with (Z.of_nat k + 2) in * by lia.
  unfold addVersion.
  unfold current_version_of in Hc.
  destruct (get_file (w_db w) fid) as [f|] eqn:Ef; [|discriminate].
  rewrite Hn. unfold insert_version.
  rewrite (get_file_existsb _ _ _ Ef), Hu, version_absent; cycle 1.
  { rewrite Hv, zseq_In. lia. }
  cbn [andb negb]. do 2 eexists. split; [reflexivity|].
  split; [exact Hs|]. split; [|split; [|reflexivity]].
  - unfold current_version_of, with_db. cbn [w_db].
    rewrite get_file_update_current_version.
    change (get_file _ fid) with (get_file (w_db w) fid). rewrite Ef.
    destruct (get_file_id _ _ _ Ef) as [Eid _]. cbn [option_map].
    rewrite Eid, Z.eqb_refl. cbn [set_current_version f_current_version].
    f_equal. lia.
  - unfold version_numbers, versions_of, with_db in *.
    cbn [w_db update_current_version file_versions].
    rewrite filter_app, map_app, Hv, zseq_snoc.
    cbn [filter v_file_id]. rewrite Z.eqb_refl.
    cbn [List.map v_version_number]. do 2 f_equal. lia.
Qed.

Lemma addVersions_from (fid : Z) (ups : list version_upload) :
  forall (k : nat) (w : world),
    current_version_of (w_db w) fid = Some (Z.of_nat k + 1) ->
    version_numbers (w_db w) fid = zseq 2 k ->
    Forall (fun u => user_exists (w_db w) (vu_userId u) = true) ups ->
    let n := List.length ups in
    List.map returned_version (fst (addVersions fid ups w))
      = List.map Some (zseq (Z.of_nat k + 2) n)
    /\ List.map (fun wk => spec_next_version (w_db wk) fid)
                (states_before fid ups w)
       = List.map Some (zseq (Z.of_nat k + 2) n)
    /\ current_version_of (w_db (snd (addVersions fid ups w))) fid
       = Some (Z.of_nat (k + n) + 1)
    /\ version_numbers (w_db (snd (addVersions fid ups w))) fid
       = zseq 2 (k + n).
Proof.
  induction ups as [|u rest IH]; intros k w Hc Hv Hu.
  - simpl. rewrite Nat.add_0_r. now repeat split.
  - inversion Hu as [|? ? Hu1 Hu2]; subst.
    destruct (addVersion_step w fid k (vu_file u) (vu_userId u) (vu_now u)
                Hc Hv Hu1) as (rowid & w1 & E & Hs & Hc1 & Hv1 & Hus).
    assert (Hu' : Forall (fun u => user_exists (w_db w1) (vu_userId u) = true)
                         rest).
    { eapply Forall_impl; [|exact Hu2]. intros a Ha. simpl in Ha.
      now rewrite (user_exists_ext _ _ _ Hus). }
    specialize (IH (S k) w1 Hc1 Hv1 Hu').
    cbn zeta in IH. destruct IH as (I1 & I2 & I3 & I4).
    cbn zeta. cbn [addVersions states_before List.length zseq]. rewrite E.
    destruct (addVersions fid rest w1) as [rs w2] eqn:E2.
    cbn [fst snd List.map returned_version] in *.
    replace (Z.of_nat k + 2 + 1) with (Z.of_nat (S k) + 2) by lia.
    replace (k + S (List.length rest))%nat
      with (S k + List.length rest)%nat by lia.
    rewrite I1, I2, Hs. repeat split; assumption.
Qed.

(** C1. Take a file as first upload leaves it: [current_version] is 1 and
    it has no version rows.  Calling [addVersion] on it [N] times in a row
    (each time by a user of the catalog) answers 201 every time with the
    version numbers 2, 3, .., N+1 in this order, which are pairwise
    distinct; the number each call returns is
    [max(existing version numbers and current_version) + 1] in the state
    the call ran in; at the end [current_version] is N+1 and the rows of
    the file carry exactly the numbers 2, .., N+1. *)
Theorem addVersion_numbers_in_sequence
  (w : world) (fid : Z) (ups : list version_upload) :
  current_version_of (w_db w) fid = Some 1 ->
  versions_of (w_db w) fid = [] ->
  Forall (fun u => user_exists (w_db w) (vu_userId u) = true) ups ->
  let N := List.length ups in
  let '(rs, w') := addVersions fid ups w in
  List.map returned_version rs = List.map Some (zseq 2 N)
  /\ NoDup (zseq 2 N)
  /\ List.map (fun wk => spec_next_version (w_db wk) fid)
              (states_before fid ups w)
     = List.map Some (zseq 2 N)
  /\ current_version_of (w_db w') fid = Some (Z.of_nat N + 1)
  /\ version_numbers (w_db w') fid = zseq 2 N.
Proof.
  intros Hc Hv Hu N.
  pose proof (addVersions_from fid ups 0 w Hc) as H.
  unfold version_numbers in H at 1. rewrite Hv in H.
  specialize (H eq_refl Hu). cbn zeta in H.
  destruct (addVersions fid ups w) as [rs w'].
  simpl in H. destruct H as (H1 & H2 & H3 & H4).
  repeat split; try assumption. apply zseq_NoDup.
Qed.

(** ** Cascading folder deletion *)

Lemma existsb_eqb_In (x : Z) (l : list Z) :
  existsb (Z.eqb x) l = true <-> In x l.
Proof.
  rewrite existsb_exists. split.
  - intros (y & Hy & E). apply Z.eqb_eq in E. now subst.
  - intros H. exists x. split; [exact H|apply Z.eqb_refl].
Qed.

Lemma filter_filter {A} (f g : A -> bool) (l : list A) :
  filter g (filter f l) = filter (fun x => f x && g x) l.
Proof.
  induction l as [|x t IH]; [reflexivity|].
  simpl. destruct (f x); simpl; [destruct (g x)|]; now rewrite IH.
Qed.

(** The cascade only ever removes rows. *)
Lemma cascade_is_filter (fuel : nat) :
  forall frontier rows, exists keep, cascade fuel frontier rows = filter keep rows.
Proof.
  induction fuel as [|k IH]; intros frontier rows.
  - exists (fun _ => true). simpl. induction rows; simpl; congruence.
  - simpl. destruct (List.map fo_id _) as [|n ns].
    + eexists. reflexivity.
    + destruct (IH (n :: ns)
                  (filter (fun r => negb (existsb (Z.eqb (fo_id r)) frontier))
                          rows)) as [g Hg].
      rewrite Hg, filter_filter. eexists. reflexivity.
Qed.

Section CascadeRound.
Variable rows : list folder_row.
Variable frontier : list Z.

Let kept :=
  filter (fun r => negb (existsb (Z.eqb (fo_id r)) frontier)) rows.
Let next :=
  List.map fo_id
    (filter (fun r => match fo_parent_folder_id r with
                      | Some p => existsb (Z.eqb p) frontier
                      | None => false
                      end) kept).

Lemma kept_In (r : folder_row) :
  In r kept <-> In r rows /\ ~ In (fo_id r) frontier.
Proof.
  unfold kept. rewrite filter_In, negb_true_iff, <- not_true_iff_false.
  now rewrite existsb_eqb_In.
Qed.

Lemma next_In (d : Z) :
  In d next <-> exists r p, In r kept /\ fo_id r = d
                            /\ fo_parent_folder_id r = Some p
                            /\ In p frontier.
Proof.
  unfold next. rewrite in_map_iff. split.
  - intros (r & E & Hr). apply filter_In in Hr. destruct Hr as [Hk Hp].
    destruct (fo_parent_folder_id r) as [p|] eqn:Ep; [|discriminate].
    exists r, p. apply existsb_eqb_In in Hp. now repeat split.
  - intros (r & p & Hk & E & Ep & Hp). exists r. split; [exact E|].
    apply filter_In. split; [exact Hk|]. rewrite Ep.
    now apply existsb_eqb_In.
Qed.

(** One round splits the subtree into the frontier and what the next
    round reaches. *)
Lemma subtree_round (d : Z) :
  in_subtree rows frontier d
  <-> In d frontier \/ in_subtree kept next d.
Proof.
  split.
  - induction 1 as [d Hd | r p Hr Ep Hp IH]; [now left|].
    destruct (in_dec Z.eq_dec (fo_id r) frontier) as [Hin|Hout];
      [now left|].
    right. assert (Hk : In r kept) by (apply kept_In; now split).
    destruct IH as [IH|IH].
    + apply subtree_root. apply next_In. exists r, p. now repeat split.
    + eapply subtree_child; eassumption.
  - intros [Hd|H]; [now apply subtree_root|].
    induction H as [d Hd | r p Hr Ep Hp IH].
    + apply next_In in Hd. destruct Hd as (r & p & Hk & <- & Ep & Hp).
      apply kept_In in Hk. eapply subtree_child; [apply Hk|exact Ep|].
      now apply subtree_root.
    + apply kept_In in Hr. eapply subtree_child; [apply Hr|exact Ep|exact IH].
Qed.

Lemma kept_shorter :
  (exists r, In r rows /\ In (fo_id r) frontier) ->
  (List.length kept < List.length rows)%nat.
Proof.
  intros (r & Hr & Hf). unfold kept. clear next.
  induction rows as [|x t IH]; [easy|].
  simpl. destruct Hr as [->|Hr].
  - apply existsb_eqb_In in Hf. rewrite Hf. simpl.
    pose proof (filter_length_le
      (fun r => negb (existsb (Z.eqb (fo_id r)) frontier)) t). lia.
  - specialize (IH Hr).
    destruct (negb _); simpl; lia.
Qed.
End CascadeRound.

(** With fuel above the number of rows the cascade removes exactly the
    rows whose id lies in the subtree of the frontier. *)
Lemma cascade_round (k : nat) (frontier : list Z) (rows : list folder_row) :
  cascade (S k) frontier rows
  = let kept :=
      filter (fun r => negb (existsb (Z.eqb (fo_id r)) frontier)) rows in
    let next :=
      List.map fo_id
        (filter (fun r => match fo_parent_folder_id r with
                          | Some p => existsb (Z.eqb p) frontier
                          | None => false
                          end) kept) in
    match next with
    | [] => kept
    | _ :: _ => cascade k next kept
    end.
Proof. reflexivity. Qed.

Lemma subtree_of_nothing (rows : list folder_row) (d : Z) :
  ~ in_subtree rows [] d.
Proof. induction 1; auto. Qed.

Lemma cascade_spec (k : nat) :
  forall frontier rows,
    (frontier = [] \/ exists r, In r rows /\ In (fo_id r) frontier) ->
    (List.length rows <= k)%nat ->
    forall r, In r (cascade (S k) frontier rows)
              <-> In r rows /\ ~ in_subtree rows frontier (fo_id r).
Proof.
  induction k as [|k IH]; intros frontier rows Hcond Hlen r;
    rewrite cascade_round; cbv zeta;
    pose proof (subtree_round rows frontier (fo_id r)) as Hround;
    pose proof (kept_In rows frontier r) as Hkept;
    pose proof (next_In rows frontier) as Hnext;
    pose proof (kept_shorter rows frontier) as Hshort;
    remember (filter (fun r => negb (existsb (Z.eqb (fo_id r)) frontier))
                     rows) as kept eqn:Ekept;
    remember (List.map fo_id
                (filter (fun r => match fo_parent_folder_id r with
                                  | Some p => existsb (Z.eqb p) frontier
                                  | None => false
                                  end) kept)) as next eqn:Enext;
    clear Ekept Enext;
    assert (Hex : next <> [] ->
                  exists x, In x rows /\ In (fo_id x) frontier)
      by (intros Hne; destruct Hcond as [->|Hex]; [|exact Hex];
          destruct next as [|n ns]; [easy|];
          destruct (proj1 (Hnext n) (or_introl eq_refl))
            as (? & ? & _ & _ & _ & []));
    destruct next as [|n ns].
  - rewrite Hkept, Hround. split; intros [H1 H2]; (split; [exact H1|]).
    + intros [H|H]; [tauto|]. exact (subtree_of_nothing _ _ H).
    + tauto.
  - exfalso. specialize (Hshort (Hex ltac:(discriminate))). lia.
  - rewrite Hkept, Hround. split; intros [H1 H2]; (split; [exact H1|]).
    + intros [H|H]; [tauto|]. exact (subtree_of_nothing _ _ H).
    + tauto.
  - specialize (Hshort (Hex ltac:(discriminate))).
    rewrite IH.
    + rewrite Hkept, Hround. tauto.
    + right. destruct (proj1 (Hnext n) (or_introl eq_refl))
        as (x & p & Hk & E & _).
      exists x. split; [exact Hk|]. rewrite E. now left.
    + lia.
Qed.

Lemma delete_folder_spec (d : database) (id : Z) (f r : folder_row) :
  get_folder d id = Some f ->
  In r (folders (delete_folder d id))
  <-> In r (folders d) /\ ~ in_subtree (folders d) [id] (fo_id r).
Proof.
  intros Hf. unfold delete_folder. cbn [folders].
  apply cascade_spec; [|lia].
  right. exists f. apply find_some in Hf. destruct Hf as [Hin E].
  apply Z.eqb_eq in E. split; [exact Hin|]. rewrite E. now left.
Qed.

(** ** The catalog invariants hold in every reachable state *)

Lemma NoDup_snoc {A} (l : list A) (x : A) :
  NoDup l -> ~ In x l -> NoDup (l ++ [x]).
Proof.
  intros Hl Hx. apply NoDup_app; [exact Hl | repeat constructor; easy |].
  intros a Ha [<-|[]]. contradiction.
Qed.

Lemma NoDup_map_filter {A B} (key : A -> B) (keep : A -> bool) (l : list A) :
  NoDup (List.map key l) -> NoDup (List.map key (filter keep l)).
Proof.
  induction l as [|x t IH]; intros H; [constructor|].
  simpl in *. inversion H as [|? ? Hx Ht]; subst.
  destruct (keep x); [|now apply IH].
  simpl. constructor; [|now apply IH].
  intros Hin. apply Hx. apply in_map_iff in Hin.
  destruct Hin as (y & E & Hy). apply filter_In in Hy.
  apply in_map_iff. exists y. tauto.
Qed.

Lemma next_rowid_above (ids : list Z) (seq : Z) :
  seq < next_rowid ids seq /\ forall x, In x ids -> x < next_rowid ids seq.
Proof.
  unfold next_rowid. induction ids as [|y t [IH1 IH2]]; simpl.
  - split; [lia|easy].
  - split; [lia|]. intros x [->|Hx]; [lia|]. specialize (IH2 x Hx). lia.
Qed.

Lemma find_sibling_None (d : database) (name : jsstring) (parent : option Z) :
  find_sibling d name parent = None ->
  ~ In (parent, name)
       (List.map (fun r => (fo_parent_folder_id r, fo_name r)) (folders d)).
Proof.
  unfold find_sibling. intros H Hin. apply in_map_iff in Hin.
  destruct Hin as (r & E & Hr). injection E as E1 E2.
  pose proof (find_none _ _ H r Hr) as Hn. cbv beta in Hn.
  rewrite E1, E2, text_eqb_refl in Hn. simpl in Hn.
  now rewrite (proj2 (null_safe_eqb_eq parent parent) eq_refl) in Hn.
Qed.

Lemma insert_folder_ok (d d' : database) (name : jsstring)
  (parent : option Z) (creator : Z) (now : timestamp) (id : Z) :
  catalog_ok d -> name <> [] /\ sanitizeFilename name = name ->
  find_sibling d name parent = None ->
  insert_folder d name parent creator now = Some (d', id) ->
  catalog_ok d'.
Proof.
  intros [[H1 H2 H3] H4 H5 H6 H7 [H8 H9]] Hname Hsib. unfold insert_folder.
  destruct (folder_fk_ok d parent creator && _) eqn:Echk; [|discriminate].
  intros [= <- <-]. apply andb_prop in Echk. destruct Echk as [Hfk _].
  apply andb_prop in Hfk. destruct Hfk as [Hfk _].
  pose proof (next_rowid_above (List.map fo_id (folders d)) (seq_folders d))
    as [Hseq Hids].
  split; [split| | | | |split]; cbn [users folders files file_versions
                                     seq_folders]; try assumption.
  - unfold sibling_names_unique in *. cbn [folders]. rewrite map_app.
    apply NoDup_snoc; [exact H5|]. now apply find_sibling_None.
  - intros r Hr. cbn [folders] in Hr. apply in_app_or in Hr.
    destruct Hr as [Hr|[<-|[]]]; [now apply H6 | exact Hname].
  - intros r p Hr Ep. cbn [folders] in *. apply in_app_or in Hr.
    destruct Hr as [Hr|[<-|[]]].
    + destruct (H7 r p Hr Ep) as (r' & Hr' & E). exists r'.
      split; [apply in_or_app; now left|exact E].
    + cbn [fo_parent_folder_id] in Ep. subst parent.
      apply existsb_exists in Hfk. destruct Hfk as (r' & Hr' & E).
      apply Z.eqb_eq in E. exists r'.
      split; [apply in_or_app; now left|exact E].
  - intros r Hr. cbn [folders] in Hr. apply in_app_or in Hr.
    destruct Hr as [Hr|[<-|[]]]; [now apply H8|]. cbn [fo_id]. lia.
  - lia.
Qed.

Lemma delete_folder_ok (d : database) (id : Z) (f : folder_row) :
  catalog_ok d -> get_folder d id = Some f -> catalog_ok (delete_folder d id).
Proof.
  intros [[H1 H2 H3] H4 H5 H6 H7 [H8 H9]] Hf.
  pose proof (fun r => delete_folder_spec d id f r Hf) as Hspec.
  split; [split| | | | |split]; try assumption.
  - unfold sibling_names_unique, delete_folder in *. cbn [folders].
    destruct (cascade_is_filter (S (List.length (folders d))) [id] (folders d))
      as [keep ->].
    now apply NoDup_map_filter.
  - intros r Hr. apply Hspec in Hr. now apply H6.
  - intros r p Hr Ep. apply Hspec in Hr. destruct Hr as [Hr Hsub].
    destruct (H7 r p Hr Ep) as (r' & Hr' & E). exists r'.
    split; [|exact E]. apply Hspec. split; [exact Hr'|].
    intros Hp. apply Hsub. rewrite E in Hp.
    eapply subtree_child; eassumption.
  - intros r Hr. apply Hspec in Hr. now apply H8.
Qed.

Lemma insert_file_ok (d d' : database) filename original path size mime
  folder uploader now (id : Z) :
  catalog_ok d ->
  insert_file d filename original path size mime folder uploader now
    = Some (d', id) ->
  catalog_ok d'.
Proof.
  intros [[H1 H2 H3] H4 H5 H6 H7 [H8 H9]]. unfold insert_file.
  destruct (user_exists d uploader); [|discriminate].
  intros [= <- <-].
  split; [split| | | | |split]; try assumption.
  intros v Hv. cbn [files file_versions] in *. rewrite map_app.
  apply in_or_app. left. now apply H4.
Qed.

Lemma insert_version_ok (d d' : database) fid vn path size uploader now
  (id : Z) :
  catalog_ok d ->
  insert_version d fid vn path size uploader now = Some (d', id) ->
  catalog_ok d'.
Proof.
  intros [[H1 H2 H3] H4 H5 H6 H7 [H8 H9]]. unfold insert_version.
  destruct (existsb _ (files d)) eqn:Ef; [|discriminate].
  destruct (user_exists d uploader) eqn:Eu; [|discriminate].
  destruct (existsb _ (file_versions d)) eqn:Ev; [discriminate|].
  intros [= <- <-].
  split; [split| | | | |split]; try assumption.
  - intros v Hv. cbn [file_versions] in Hv. apply in_app_or in Hv.
    destruct Hv as [Hv|[<-|[]]]; [now apply H2 | exact Eu].
  - unfold version_numbers_unique in *. cbn [file_versions]. rewrite map_app.
    apply NoDup_snoc; [exact H3|]. cbn [List.map v_file_id v_version_number].
    intros Hin. apply in_map_iff in Hin. destruct Hin as (r & E & Hr).
    injection E as E1 E2.
    assert (Ht : existsb (fun r => (v_file_id r =? fid)
                                   && (v_version_number r =? vn))
                         (file_versions d) = true).
    { apply existsb_exists. exists r. split; [exact Hr|].
      now rewrite E1, E2, !Z.eqb_refl. }
    congruence.
  - intros v Hv. cbn [files file_versions] in *. apply in_app_or in Hv.
    destruct Hv as [Hv|[<-|[]]]; [now apply H4|]. cbn [v_file_id].
    apply existsb_exists in Ef. destruct Ef as (r & Hr & E).
    apply Z.eqb_eq in E. subst fid. now apply in_map.
Qed.

Lemma same_ids_ok (d d' : database) :
  users d' = users d -> folders d' = folders d ->
  List.map f_id (files d') = List.map f_id (files d) ->
  file_versions d' = file_versions d -> seq_folders d' = seq_folders d ->
  catalog_ok d -> catalog_ok d'.
Proof.
  intros E1 E2 E3 E4 E5 [[H1 H2 H3] H4 H5 H6 H7 [H8 H9]].
  split; [split| | | | |split].
  - unfold unique_user_ids. now rewrite E1.
  - intros v Hv. rewrite E4 in Hv. unfold user_exists. rewrite E1.
    now apply H2.
  - unfold version_numbers_unique. now rewrite E4.
  - intros v Hv. rewrite E4 in Hv. rewrite E3. now apply H4.
  - unfold sibling_names_unique. now rewrite E2.
  - intros r Hr. rewrite E2 in Hr. now apply H6.
  - intros r p Hr. rewrite E2 in *. now apply H7.
  - intros r Hr. rewrite E2 in Hr. now apply H8.
  - now rewrite E5.
Qed.

Lemma map_id_update {A} (key : A -> Z) (upd : A -> A) (l : list A) :
  (forall r, key (upd r) = key r) ->
  List.map key (List.map upd l) = List.map key l.
Proof.
  intros H. rewrite map_map. apply map_ext. exact H.
Qed.

Lemma update_current_version_ok (d : database) (vn fid : Z) :
  catalog_ok d -> catalog_ok (update_current_version d vn fid).
Proof.
  apply same_ids_ok; try reflexivity. cbn [update_current_version files].
  apply map_id_update. intros r. now destruct (f_id r =? fid).
Qed.

Lemma update_folder_id_ok (d : database) (folder : option Z) (fid : Z) :
  catalog_ok d -> catalog_ok (update_folder_id d folder fid).
Proof.
  apply same_ids_ok; try reflexivity. cbn [update_folder_id files].
  apply map_id_update. intros r. now destruct (f_id r =? fid).
Qed.

Lemma upload_loop_ok (files : list multer_file) folderId userId now :
  forall d acc, catalog_ok d ->
    catalog_ok (fst (upload_loop d files folderId userId now acc)).
Proof.
  induction files as [|x t IH]; intros d acc Hd; [exact Hd|].
  cbn [upload_loop].
  destruct (insert_file _ _ _ _ _ _ _ _ _) as [[d' id]|] eqn:E; [|exact Hd].
  apply IH. eapply insert_file_ok; eassumption.
Qed.

Lemma send_file_db filePath missing headers body w :
  w_db (snd (send_file filePath missing headers body w)) = w_db w.
Proof.
  unfold send_file. destruct (negb (w_disk w filePath)); [reflexivity|].
  destruct (negb (Path.startsWith _ _)); [reflexivity|].
  now destruct (negb (forallb header_ok headers)).
Qed.

Lemma handle_ok (r : request) (w : world) :
  catalog_ok (w_db w) -> catalog_ok (w_db (handle r w)).
Proof.
  intros H.
  destruct r as [name parentFolderId userId now | folderId
                | folderId userId | ups folderId userId now | id
                | id folderId userId | | id file userId now | id
                | id vn | id vn]; cbn [handle].
  - (* createFolder *)
    unfold createFolder. destruct name as [n|]; [|exact H].
    destruct (trim n); [exact H|].
    destruct (sanitizeFilename _) eqn:Es; [exact H|].
    destruct (truthy parentFolderId && _); [exact H|].
    destruct (find_sibling _ _ _) eqn:Ef; [exact H|].
    destruct (insert_folder _ _ _ _ _) as [[d' id]|] eqn:Ei; [|exact H].
    cbn [snd with_db w_db].
    eapply insert_folder_ok; [exact H| |exact Ef|exact Ei].
    split; [discriminate|]. rewrite <- Es. apply sanitizeFilename_idempotent.
  - unfold listContents. now repeat destruct (_ && _).
  - unfold deleteFolder. destruct folderId as [|id]; [exact H|].
    destruct (get_folder _ _) as [f|] eqn:Ef; [|exact H].
    destruct (negb _); [exact H|].
    destruct (cascade_too_deep _ _); [exact H|]. cbn [snd with_db w_db].
    eapply delete_folder_ok; eassumption.
  - unfold uploadFiles. destruct ups as [|x t]; [exact H|].
    destruct (truthy folderId && _); [exact H|].
    pose proof (upload_loop_ok (x :: t) folderId userId now (w_db w) [] H)
      as Hl.
    destruct (upload_loop _ _ _ _ _ _) as [d' [u|]]; exact Hl.
  - unfold downloadFile. destruct id; [exact H|].
    destruct (get_file _ _); [|exact H]. now rewrite send_file_db.
  - unfold moveFile. destruct id as [|fileId]; [exact H|].
    destruct folderId as [[|target]|]; try exact H;
      (destruct (get_file _ _); [|exact H]);
      (destruct (negb _); [exact H|]);
      (destruct (truthy _ && _); [exact H|]);
      cbn [snd with_db w_db]; now apply update_folder_id_ok.
  - exact H.
  - unfold addVersion. destruct id; [exact H|].
    destruct file; [|exact H]. destruct (get_file _ _); [|exact H].
    destruct (insert_version _ _ _ _ _ _ _) as [[d1 rowid]|] eqn:Ei;
      [|exact H].
    cbn [snd with_db w_db]. apply update_current_version_ok.
    eapply insert_version_ok; eassumption.
  - unfold listVersions. destruct id; [exact H|].
    now destruct (get_file _ _).
  - unfold restoreVersion. destruct id; [exact H|]. destruct vn; [exact H|].
    destruct (get_file _ _); [|exact H].
    destruct (get_version _ _ _); [|exact H].
    cbn [snd with_db w_db]. now apply update_current_version_ok.
  - unfold downloadVersion. destruct id; [exact H|]. destruct vn; [exact H|].
    destruct (get_file _ _); [|exact H].
    destruct (get_version _ _ _); [|exact H]. now rewrite send_file_db.
Qed.

Lemma fresh_ok (d : database) : fresh d -> catalog_ok d.
Proof.
  intros (H1 & H2 & H3 & H4 & H5 & _).
  split; [split| | | | |split].
  - exact H1.
  - intros v Hv. rewrite H4 in Hv. destruct Hv.
  - unfold version_numbers_unique. rewrite H4. constructor.
  - intros v Hv. rewrite H4 in Hv. destruct Hv.
  - unfold sibling_names_unique. rewrite H2. constructor.
  - intros r Hr. rewrite H2 in Hr. destruct Hr.
  - intros r p Hr. rewrite H2 in Hr. destruct Hr.
  - intros r Hr. rewrite H2 in Hr. destruct Hr.
  - lia.
Qed.

(** Whatever requests a server started on a fresh catalog has answered,
    the catalog satisfies the invariants. *)
Lemma run_ok (rs : list request) :
  forall w, catalog_ok (w_db w) -> catalog_ok (w_db (run rs w)).
Proof.
  induction rs as [|r rs IH]; intros w H; [exact H|].
  apply IH. now apply handle_ok.
Qed.

(** ** Creating folders *)

Lemma get_folder_Some_iff (d : database) (id : Z) :
  get_folder d id <> None <-> exists r, In r (folders d) /\ fo_id r = id.
Proof.
  unfold get_folder. split.
  - destruct (find _ _) as [r|] eqn:E; [|easy]. intros _.
    apply find_some in E. exists r. now rewrite <- Z.eqb_eq.
  - intros (r & Hr & E) Hn.
    pose proof (find_none _ _ Hn r Hr) as H. cbv beta in H.
    rewrite E, Z.eqb_refl in H. discriminate.
Qed.

Lemma sanitizeFilename_nil : sanitizeFilename [] = [].
Proof. reflexivity. Qed.

Lemma createFolder_conflict (w : world) (name : jsstring)
  (parentFolderId : field) (userId : Z) (now : timestamp) (r : folder_row) :
  catalog_ok (w_db w) ->
  In r (folders (w_db w)) ->
  fo_parent_folder_id r = sql_bind parentFolderId ->
  fo_name r = sanitizeFilename (trim name) ->
  createFolder (Some name) parentFolderId userId now w
  = (Err 400 "Folder with this name already exists", w).
Proof.
  intros Hok Hr Hp Hn. unfold createFolder.
  pose proof (proj1 (ok_folder_names _ Hok r Hr)) as Hne. rewrite Hn in Hne.
  destruct (trim name) as [|c t] eqn:Et; [now rewrite sanitizeFilename_nil in Hne|].
  destruct (sanitizeFilename (c :: t)) as [|c' t'] eqn:Es; [easy|].
  assert (Hchk : truthy parentFolderId
                 && match sql_bind parentFolderId with
                    | Some p => match get_folder (w_db w) p with
                                | None => true
                                | Some _ => false
                                end
                    | None => false
                    end = false).
  { destruct (sql_bind parentFolderId) as [p|] eqn:Eb;
      [|apply andb_false_r].
    destruct (get_folder (w_db w) p) eqn:Eg; [apply andb_false_r|].
    exfalso. revert Eg. apply get_folder_Some_iff.
    exact (ok_folder_parents _ Hok r p Hr Hp). }
  rewrite Hchk.
  destruct (find_sibling (w_db w) (c' :: t') (sql_bind parentFolderId))
    eqn:Ef; [reflexivity|].
  exfalso. unfold find_sibling in Ef.
  pose proof (find_none _ _ Ef r Hr) as H. cbv beta in H.
  rewrite Hn, Hp, text_eqb_refl in H.
  now rewrite (proj2 (null_safe_eqb_eq _ _) eq_refl) in H.
Qed.

(** C2. In every state the server reaches from a fresh catalog, no two
    folders under the same parent (or both at the root) carry the same
    name, as stored or sanitized again; and a [createFolder] whose sanitized name is already the name of
    a folder under the same parent (or at the root, when no parent is
    given) is answered 400 "Folder with this name already exists", the
    conflict outcome, and inserts nothing. *)
Theorem createFolder_keeps_sibling_names_unique
  (w0 : world) (rs : list request) (name : jsstring)
  (parentFolderId : field) (userId : Z) (now : timestamp) :
  fresh (w_db w0) ->
  let w := run rs w0 in
  sibling_names_unique (w_db w)
  /\ NoDup (List.map (fun r => (fo_parent_folder_id r,
                                sanitizeFilename (fo_name r)))
                     (folders (w_db w)))
  /\ ((exists r, In r (folders (w_db w))
                 /\ fo_parent_folder_id r = sql_bind parentFolderId
                 /\ fo_name r = sanitizeFilename (trim name)) ->
      let res := createFolder (Some name) parentFolderId userId now w in
      fst res = Err 400 "Folder with this name already exists"
      /\ kind (fst res) = Some Conflict
      /\ snd res = w).
Proof.
  intros Hfresh w.
  assert (Hok : catalog_ok (w_db w)) by (apply run_ok, fresh_ok, Hfresh).
  split; [apply Hok|]. split.
  { rewrite (map_ext_in _ (fun r => (fo_parent_folder_id r, fo_name r)));
      [apply Hok|].
    intros r Hr. now rewrite (proj2 (ok_folder_names _ Hok r Hr)). }
  intros (r & Hr & Hp & Hn) res. subst res.
  rewrite (createFolder_conflict w name parentFolderId userId now r Hok Hr Hp Hn).
  now repeat split.
Qed.

(** ** Deleting folders *)

Lemma get_folder_None_deleted (d : database) (id dsc : Z) (f : folder_row) :
  get_folder d id = Some f ->
  in_subtree (folders d) [id] dsc ->
  get_folder (delete_folder d id) dsc = None.
Proof.
  intros Hf Hsub.
  destruct (get_folder (delete_folder d id) dsc) as [x|] eqn:E;
    [|reflexivity].
  exfalso. unfold get_folder in E. apply find_some in E.
  destruct E as [Hx Ex]. apply Z.eqb_eq in Ex.
  apply (delete_folder_spec d id f x Hf) in Hx. destruct Hx as [_ Hx].
  apply Hx. now rewrite Ex.
Qed.

Lemma subtree_id_positive (d : database) (id dsc : Z) (f : folder_row) :
  folder_ids_positive d -> get_folder d id = Some f ->
  in_subtree (folders d) [id] dsc -> 0 < dsc.
Proof.
  intros [Hpos _] Hf Hsub. destruct Hsub as [x Hx|r p Hr _ _].
  - destruct Hx as [<-|[]]. unfold get_folder in Hf. apply find_some in Hf.
    destruct Hf as [Hin E]. apply Z.eqb_eq in E. rewrite <- E.
    now apply Hpos.
  - now apply Hpos.
Qed.

(** ** Listing versions *)

Lemma filter_key_none {A} (key : A -> Z) (k : Z) (l : list A) :
  ~ In k (List.map key l) -> filter (fun e => key e =? k) l = [].
Proof.
  induction l as [|x t IH]; intros H; [reflexivity|].
  simpl in *. destruct (key x =? k) eqn:E.
  - apply Z.eqb_eq in E. tauto.
  - apply IH. tauto.
Qed.

Lemma filter_key_unique {A} (key : A -> Z) (k : Z) (l : list A) :
  NoDup (List.map key l) -> In k (List.map key l) ->
  exists e, filter (fun e => key e =? k) l = [e] /\ key e = k.
Proof.
  induction l as [|x t IH]; intros Hnd Hin; [destruct Hin|].
  simpl in *. inversion Hnd as [|? ? Hx Ht]; subst.
  destruct (key x =? k) eqn:E.
  - apply Z.eqb_eq in E. exists x. split; [|exact E].
    rewrite filter_key_none; [reflexivity|]. now rewrite <- E.
  - apply IH; [exact Ht|]. destruct Hin as [Hin|Hin]; [|exact Hin].
    apply Z.eqb_neq in E. contradiction.
Qed.

Lemma join_users_fst {A} (d : database) (key : A -> Z) (rows : list A) :
  unique_user_ids d ->
  (forall r, In r rows -> user_exists d (key r) = true) ->
  List.map fst (join_users d key (fun r u => (r, u)) rows) = rows.
Proof.
  intros Hnd. induction rows as [|r t IH]; intros H; [reflexivity|].
  unfold join_users in *. cbn [flat_map]. rewrite map_app, IH
    by (intros; apply H; now right).
  destruct (filter_key_unique u_id (key r) (users d) Hnd) as (u & -> & _).
  - specialize (H r (or_introl eq_refl)). unfold user_exists in H.
    apply existsb_exists in H. destruct H as (u & Hu & E).
    apply Z.eqb_eq in E. rewrite <- E. now apply in_map.
  - reflexivity.
Qed.

Lemma version_numbers_NoDup (d : database) (fid : Z) :
  version_numbers_unique d -> NoDup (version_numbers d fid).
Proof.
  unfold version_numbers_unique, version_numbers, versions_of.
  induction (file_versions d) as [|v t IH]; intros H; [constructor|].
  simpl in *. inversion H as [|? ? Hv Ht]; subst.
  destruct (v_file_id v =? fid) eqn:E; [|now apply IH].
  simpl. constructor; [|now apply IH].
  intros Hin. apply Hv. apply in_map_iff in Hin.
  destruct Hin as (x & Ex & Hx). apply filter_In in Hx.
  destruct Hx as [Hx Ef]. apply Z.eqb_eq in E, Ef.
  apply in_map_iff. exists x. split; [|exact Hx]. congruence.
Qed.

Lemma Sorted_map {A B} (R : A -> A -> Prop) (R' : B -> B -> Prop)
  (g : A -> B) (l : list A) :
  (forall a b, R a b -> R' (g a) (g b)) ->
  Sorted R l -> Sorted R' (List.map g l).
Proof.
  intros HR. induction 1 as [|x t Ht IH Hx]; simpl; constructor; [exact IH|].
  destruct Hx; simpl; constructor; auto.
Qed.

Lemma descending_strict (l : list Z) :
  Sorted Z.ge l -> NoDup l -> StronglySorted Z.gt l.
Proof.
  intros Hs Hn. apply Sorted_StronglySorted in Hs; [|intros a b c; lia].
  induction Hs as [|x t Ht IH Hx]; constructor.
  - apply IH. now inversion Hn.
  - inversion Hn as [|? ? Hnx _]; subst. rewrite Forall_forall in *.
    intros y Hy. specialize (Hx y Hy).
    assert (x <> y) by (intros ->; contradiction). lia.
Qed.

Lemma select_versions_numbers (d : database) (fid : Z) :
  catalog_ok d ->
  Permutation (List.map (fun vu => v_version_number (fst vu))
                        (select_versions d fid))
              (version_numbers d fid)
  /\ StronglySorted Z.gt (List.map (fun vu => v_version_number (fst vu))
                                   (select_versions d fid)).
Proof.
  intros Hok. destruct (ok_schema _ Hok) as [Hu Hup Hvn].
  assert (Hperm : Permutation
            (List.map (fun vu => v_version_number (fst vu))
                      (select_versions d fid))
            (version_numbers d fid)).
  { unfold select_versions. rewrite <- order_by_perm.
    rewrite <- (map_map fst v_version_number), join_users_fst;
      [reflexivity|exact Hu|].
    intros r Hr. apply filter_In in Hr. now apply Hup. }
  split; [exact Hperm|].
  apply descending_strict.
  - unfold select_versions.
    eapply Sorted_map; [|apply order_by_sorted].
    + intros a b H. cbv beta in H. apply Z.leb_le in H. lia.
    + intros x y. cbv beta. rewrite !Z.leb_le. lia.
  - eapply Permutation_NoDup; [symmetry; exact Hperm|].
    now apply version_numbers_NoDup.
Qed.

(** What [listVersions] answers for a file that exists. *)
Lemma listVersions_entries (w : world) (fid : Z) (f : file_row) :
  catalog_ok (w_db w) -> get_file (w_db w) fid = Some f ->
  exists entries,
    listVersions (Num fid) w
    = (Ok 200 {| lv_fileId := f_id f;
                 lv_filename := f_original_filename f;
                 lv_currentVersion := f_current_version f;
                 lv_versions := entries |}, w)
    /\ Permutation (List.map vi_versionNumber entries)
                   (version_numbers (w_db w) fid)
    /\ StronglySorted Z.gt (List.map vi_versionNumber entries)
    /\ Forall (fun e => vi_isCurrent e
                        = (vi_versionNumber e =? f_current_version f))
              entries.
Proof.
  intros Hok Hf. unfold listVersions. rewrite Hf.
  eexists. split; [reflexivity|].
  destruct (select_versions_numbers (w_db w) fid Hok) as [Hp Hs].
  rewrite map_map. cbn [vi_versionNumber]. repeat split; try assumption.
  apply Forall_forall. intros e He. apply in_map_iff in He.
  destruct He as (vu & <- & _). reflexivity.
Qed.

Lemma StronglySorted_gt_NoDup (l : list Z) : StronglySorted Z.gt l -> NoDup l.
Proof.
  induction 1 as [|x t Ht IH Hx]; constructor; [|exact IH].
  intros Hin. rewrite Forall_forall in Hx. specialize (Hx x Hin). lia.
Qed.

Lemma get_version_numbers (d : database) (fid vn : Z) :
  get_version d fid vn <> None <-> In vn (version_numbers d fid).
Proof.
  unfold get_version, version_numbers, versions_of. split.
  - destruct (find _ _) as [r|] eqn:E; [|easy]. intros _.
    apply find_some in E. destruct E as [Hr E]. apply andb_prop in E.
    destruct E as [E1 E2]. apply Z.eqb_eq in E2. subst vn.
    apply in_map, filter_In. now split.
  - intros Hin Hn. apply in_map_iff in Hin. destruct Hin as (r & E & Hr).
    apply filter_In in Hr. destruct Hr as [Hr Ef].
    pose proof (find_none _ _ Hn r Hr) as H. cbv beta in H.
    rewrite Ef, E, Z.eqb_refl in H. discriminate.
Qed.

Lemma one_current_entry (entries : list version_info) (cv : Z) :
  StronglySorted Z.gt (List.map vi_versionNumber entries) ->
  Forall (fun e => vi_isCurrent e = (vi_versionNumber e =? cv)) entries ->
  In cv (List.map vi_versionNumber entries) ->
  exists e, filter vi_isCurrent entries = [e] /\ vi_versionNumber e = cv.
Proof.
  intros Hs Hf Hin.
  destruct (filter_key_unique vi_versionNumber cv entries
              (StronglySorted_gt_NoDup _ Hs) Hin) as (e & He & E).
  exists e. split; [|exact E]. rewrite <- He.
  apply filter_ext_in. intros x Hx. rewrite Forall_forall in Hf.
  now apply Hf.
Qed.

(** C6. For a file that exists, [listVersions] answers 200 with one entry
    per version row of the file, ordered by version number, largest
    first, each flagged current exactly when its number is the file's
    [current_version].  So when [restoreVersion] has succeeded for a
    number [v] that has a version row, the list shows exactly one entry
    flagged current, and that entry is version [v]. *)
Theorem listVersions_descending_one_current
  (w : world) (fid : Z) (f : file_row) :
  catalog_ok (w_db w) -> get_file (w_db w) fid = Some f ->
  exists body,
    listVersions (Num fid) w = (Ok 200 body, w)
    /\ Permutation (List.map vi_versionNumber (lv_versions body))
                   (version_numbers (w_db w) fid)
    /\ StronglySorted Z.gt (List.map vi_versionNumber (lv_versions body))
    /\ Forall (fun e => vi_isCurrent e
                        = (vi_versionNumber e =? f_current_version f))
              (lv_versions body)
    /\ forall v, get_version (w_db w) fid v <> None ->
         exists w1 body1 e,
           restoreVersion (Num fid) (Num v) w = (Ok 200 v, w1)
           /\ listVersions (Num fid) w1 = (Ok 200 body1, w1)
           /\ filter vi_isCurrent (lv_versions body1) = [e]
           /\ vi_versionNumber e = v.
Proof.
  intros Hok Hf.
  destruct (listVersions_entries w fid f Hok Hf) as (entries & E & Hp & Hs & Hc).
  eexists. split; [exact E|]. cbn [lv_versions]. repeat split; try assumption.
  intros v Hv. unfold restoreVersion. rewrite Hf.
  assert (Hin : In v (version_numbers (w_db w) fid))
    by now apply get_version_numbers.
  destruct (get_version (w_db w) fid v) eqn:Ev; [|easy].
  set (w1 := with_db w (update_current_version (w_db w) v fid)).
  assert (Hok1 : catalog_ok (w_db w1)) by now apply update_current_version_ok.
  assert (Hf1 : get_file (w_db w1) fid = Some (set_current_version f v)).
  { unfold w1. cbn [with_db w_db].
    rewrite get_file_update_current_version, Hf. cbn [option_map].
    destruct (get_file_id _ _ _ Hf) as [-> _]. now rewrite Z.eqb_refl. }
  destruct (listVersions_entries w1 fid _ Hok1 Hf1)
    as (entries1 & E1 & Hp1 & Hs1 & Hc1).
  destruct (one_current_entry entries1 v Hs1 Hc1) as (e & He & Hev).
  { eapply Permutation_in; [symmetry; exact Hp1|]. exact Hin. }
  exists w1. eexists. exists e. split; [reflexivity|].
  split; [exact E1|]. now split.
Qed.

(** ** First upload *)

Lemma find_app_l {A} (p : A -> bool) (l l' : list A) (x : A) :
  find p l = Some x -> find p (l ++ l') = Some x.
Proof.
  induction l as [|y t IH]; [discriminate|].
  simpl. destruct (p y); [easy|exact IH].
Qed.

Lemma find_app_r {A} (p : A -> bool) (l l' : list A) :
  (forall y, In y l -> p y = false) -> find p (l ++ l') = find p l'.
Proof.
  induction l as [|y t IH]; intros H; [reflexivity|].
  simpl. rewrite (H y (or_introl eq_refl)). apply IH.
  intros z Hz. apply H. now right.
Qed.

Lemma upload_loop_stable (ups : list multer_file) folderId userId now :
  forall d acc,
    let d' := fst (upload_loop d ups folderId userId now acc) in
    file_versions d' = file_versions d
    /\ users d' = users d
    /\ forall k r, get_file d k = Some r -> get_file d' k = Some r.
Proof.
  induction ups as [|x t IH]; intros d acc; [now repeat split|].
  cbn [upload_loop]. unfold insert_file.
  destruct (user_exists d userId); [|now repeat split].
  cbv zeta in IH |- *.
  match goal with
  | |- context [upload_loop ?d1 t folderId userId now ?acc1] =>
      destruct (IH d1 acc1) as (I1 & I2 & I3)
  end.
  rewrite I1, I2. repeat split. intros k r Hr. apply I3.
  unfold get_file in *. cbn [files]. now apply find_app_l.
Qed.

Lemma unversioned_when_fresh (d : database) (id : Z) :
  version_files_exist d -> ~ In id (List.map f_id (files d)) ->
  versions_of d id = [].
Proof.
  intros Hv Hid. unfold versions_of.
  destruct (filter _ _) as [|v t] eqn:E; [reflexivity|].
  exfalso. assert (Hin : In v (filter (fun r => v_file_id r =? id)
                                      (file_versions d)))
    by (rewrite E; now left).
  apply filter_In in Hin. destruct Hin as [Hin Ev].
  apply Z.eqb_eq in Ev. apply Hid. rewrite <- Ev. now apply Hv.
Qed.

Lemma upload_loop_created (ups : list multer_file) folderId userId now :
  forall d acc,
    catalog_ok d -> user_exists d userId = true ->
    exists created,
      snd (upload_loop d ups folderId userId now acc) = Some (acc ++ created)
      /\ List.length created = List.length ups
      /\ forall c, In c created ->
           first_version_only
             (fst (upload_loop d ups folderId userId now acc))
             (up_id c) (up_filename c).
Proof.
  induction ups as [|x t IH]; intros d acc Hok Hu.
  - exists []. cbn. rewrite app_nil_r. now repeat split.
  - cbn [upload_loop].
    destruct (insert_file d (mf_filename x)
                (sanitizeFilename (mf_originalname x)) (mf_path x)
                (mf_size x) (mf_mimetype x) (sql_bind folderId) userId now)
      as [[d1 id1]|] eqn:Ei;
      [|unfold insert_file in Ei; rewrite Hu in Ei; discriminate].
    pose proof (insert_file_ok _ _ _ _ _ _ _ _ _ _ _ Hok Ei) as Hok1.
    unfold insert_file in Ei. rewrite Hu in Ei. injection Ei as Ed1 Eid1.
    assert (Hu1 : user_exists d1 userId = true).
    { rewrite <- Ed1. exact Hu. }
    assert (Hfiles : files d1 = files d ++
              [{| f_id := id1; f_filename := mf_filename x;
                  f_original_filename := sanitizeFilename (mf_originalname x);
                  f_file_path := mf_path x; f_file_size := mf_size x;
                  f_mime_type := mf_mimetype x; f_uploaded_by := userId;
                  f_uploaded_at := now; f_folder_id := sql_bind folderId;
                  f_current_version := 1 |}]).
    { rewrite <- Ed1, <- Eid1. reflexivity. }
    assert (Hvers : file_versions d1 = file_versions d).
    { rewrite <- Ed1. reflexivity. }
    match goal with
    | |- context [upload_loop d1 t folderId userId now ?acc1] =>
        destruct (IH d1 acc1 Hok1 Hu1) as (created & E & Hlen & Hall);
        pose proof (upload_loop_stable t folderId userId now d1 acc1)
          as (S1 & _ & S3)
    end.
    eexists (_ :: created). split; [|split].
    + rewrite E, <- app_assoc. reflexivity.
    + cbn [List.length]. now rewrite Hlen.
    + intros c [<-|Hc]; [|now apply Hall].
      cbn [up_id up_filename].
      pose proof (next_rowid_above (List.map f_id (files d)) (seq_files d))
        as [_ Hfresh].
      assert (Hnot : ~ In id1 (List.map f_id (files d))).
      { intros Hin. apply Hfresh in Hin. lia. }
      split.
      * eexists. split.
        -- apply S3. unfold get_file. rewrite Hfiles, find_app_r.
           ++ cbn [find f_id]. now rewrite Z.eqb_refl.
           ++ intros y Hy. apply Z.eqb_neq. intros Ey. apply Hnot.
              rewrite <- Ey. now apply in_map.
        -- split; reflexivity.
      * unfold versions_of. rewrite S1, Hvers.
        now apply (unversioned_when_fresh d id1 (ok_version_files _ Hok)).
Qed.

Lemma folder_check_passes (d : database) (folderId : field) :
  folder_given_exists d folderId ->
  truthy folderId
  && match sql_bind folderId with
     | Some id => match get_folder d id with
                  | None => true
                  | Some _ => false
                  end
     | None => false
     end = false.
Proof.
  intros H. destruct folderId as [[|id]|]; try reflexivity.
  cbn [truthy sql_bind]. destruct (id =? 0) eqn:E0; [reflexivity|].
  apply Z.eqb_neq in E0. specialize (H id eq_refl E0).
  now destruct (get_folder d id).
Qed.

(** What a successful first upload leaves behind. *)
Lemma uploadFiles_created (w : world) (ups : list multer_file)
  (folderId : field) (userId : Z) (now : timestamp) :
  catalog_ok (w_db w) -> user_exists (w_db w) userId = true ->
  ups <> [] -> folder_given_exists (w_db w) folderId ->
  exists created w',
    uploadFiles ups folderId userId now w = (Ok 201 created, w')
    /\ List.length created = List.length ups
    /\ catalog_ok (w_db w')
    /\ users (w_db w') = users (w_db w)
    /\ forall c, In c created ->
         first_version_only (w_db w') (up_id c) (up_filename c).
Proof.
  intros Hok Hu Hne Hfold. unfold uploadFiles.
  destruct ups as [|x t]; [easy|].
  rewrite (folder_check_passes _ _ Hfold).
  destruct (upload_loop_created (x :: t) folderId userId now (w_db w) []
              Hok Hu) as (created & E & Hlen & Hall).
  pose proof (upload_loop_ok (x :: t) folderId userId now (w_db w) [] Hok)
    as Hok'.
  pose proof (upload_loop_stable (x :: t) folderId userId now (w_db w) [])
    as (_ & Hus & _).
  destruct (upload_loop (w_db w) (x :: t) folderId userId now [])
    as [d' res]. cbn [fst snd] in *. subst res.
  exists created. eexists. split; [reflexivity|].
  split; [exact Hlen|]. split; [exact Hok'|]. split; [exact Hus|exact Hall].
Qed.

(** ** Files nobody added a version to *)

Lemma first_version_only_same (d d' : database) (fid : Z) (name : jsstring) :
  get_file d' fid = get_file d fid -> file_versions d' = file_versions d ->
  first_version_only d fid name -> first_version_only d' fid name.
Proof.
  intros E1 E2 [H1 H2]. split.
  - now rewrite E1.
  - unfold versions_of in *. now rewrite E2.
Qed.

Lemma first_version_only_other (d : database) (vn id fid : Z)
  (name : jsstring) :
  id <> fid ->
  first_version_only d fid name ->
  first_version_only (update_current_version d vn id) fid name.
Proof.
  intros Hne [(r & Hr & Hcv & Hn) Hv]. split; [|exact Hv].
  exists r. rewrite get_file_update_current_version, Hr. cbn [option_map].
  destruct (get_file_id _ _ _ Hr) as [Eid _].
  destruct (f_id r =? id) eqn:E; [apply Z.eqb_eq in E; congruence|].
  now repeat split.
Qed.

Lemma createFolder_keeps_files name parentFolderId userId now w :
  files (w_db (snd (createFolder name parentFolderId userId now w)))
    = files (w_db w)
  /\ file_versions (w_db (snd (createFolder name parentFolderId userId now w)))
     = file_versions (w_db w).
Proof.
  unfold createFolder. destruct name as [n|]; [|now split].
  destruct (trim n); [now split|].
  destruct (sanitizeFilename _); [now split|].
  destruct (truthy parentFolderId && _); [now split|].
  destruct (find_sibling _ _ _); [now split|].
  unfold insert_folder.
  destruct (folder_fk_ok _ _ _ && folder_unique_ok _ _ _); now split.
Qed.

Lemma handle_keeps_first_version (r : request) (w : world) (fid : Z)
  (name : jsstring) :
  adds_version_to fid r = false ->
  first_version_only (w_db w) fid name ->
  first_version_only (w_db (handle r w)) fid name.
Proof.
  intros Hr H.
  destruct r as [fname parentFolderId userId now | folderId
                | folderId userId | ups folderId userId now | id
                | id folderId userId | | id file userId now | id
                | id vn | id vn]; cbn [handle].
  - destruct (createFolder_keeps_files fname parentFolderId userId now w)
      as [E1 E2].
    eapply first_version_only_same; [|exact E2|exact H].
    unfold get_file. now rewrite E1.
  - unfold listContents. now repeat destruct (_ && _).
  - unfold deleteFolder. destruct folderId as [|k]; [exact H|].
    destruct (get_folder _ _); [|exact H].
    destruct (negb _); [exact H|]. now destruct (cascade_too_deep _ _).
  - unfold uploadFiles. destruct ups as [|x t]; [exact H|].
    destruct (truthy folderId && _); [exact H|].
    pose proof (upload_loop_stable (x :: t) folderId userId now (w_db w) [])
      as (S1 & _ & S3).
    destruct H as [(r & Hget & Hcv & Hn) Hv].
    assert (H' : first_version_only
                   (fst (upload_loop (w_db w) (x :: t) folderId userId now []))
                   fid name).
    { split; [exists r; split; [now apply S3|now split]|].
      unfold versions_of in *. now rewrite S1. }
    destruct (upload_loop _ _ _ _ _ _) as [d' [u|]]; exact H'.
  - unfold downloadFile. destruct id; [exact H|].
    destruct (get_file _ _); [|exact H]. now rewrite send_file_db.
  - unfold moveFile. destruct id as [|fileId]; [exact H|].
    assert (Hmove : forall t,
      first_version_only (update_folder_id (w_db w) t fileId) fid name).
    { intros t. destruct H as [(r & Hget & Hcv & Hn) Hv]. split; [|exact Hv].
      unfold get_file, update_folder_id in *. cbn [files].
      rewrite (find_map_id f_id), Hget
        by (intros y; now destruct (f_id y =? fileId)).
      cbn [option_map]. eexists. split; [reflexivity|].
      now destruct (f_id r =? fileId). }
    destruct folderId as [[|target]|]; try exact H;
      (destruct (get_file _ _); [|exact H]);
      (destruct (negb _); [exact H|]);
      (destruct (truthy _ && _); [exact H|]);
      cbn [snd with_db w_db]; apply Hmove.
  - exact H.
  - unfold addVersion. destruct id as [|id]; [exact H|].
    cbn [adds_version_to] in Hr. apply Z.eqb_neq in Hr.
    destruct file as [reqFile|]; [|exact H].
    destruct (get_file _ _); [|exact H]. unfold insert_version.
    destruct (_ && _); [|exact H]. cbn [snd with_db w_db].
    apply first_version_only_other; [exact Hr|].
    destruct H as [H1 H2]. split; [exact H1|].
    unfold versions_of in *. cbn [file_versions].
    rewrite filter_app, H2. cbn [filter v_file_id].
    apply Z.eqb_neq in Hr. now rewrite Hr.
  - unfold listVersions. destruct id; [exact H|].
    now destruct (get_file _ _).
  - unfold restoreVersion. destruct id as [|id]; [exact H|].
    destruct vn as [|vn]; [exact H|].
    destruct (get_file _ _); [|exact H].
    destruct (get_version (w_db w) id vn) eqn:Ev; [|exact H].
    cbn [snd with_db w_db]. apply first_version_only_other; [|exact H].
    intros ->. destruct H as [_ Hv].
    assert (Hin : In vn (version_numbers (w_db w) fid))
      by (apply get_version_numbers; congruence).
    unfold version_numbers in Hin. now rewrite Hv in Hin.
  - unfold downloadVersion. destruct id; [exact H|]. destruct vn; [exact H|].
    destruct (get_file _ _); [|exact H].
    destruct (get_version _ _ _); [|exact H]. now rewrite send_file_db.
Qed.

Lemma run_keeps_first_version (rs : list request) (fid : Z)
  (name : jsstring) :
  forall w,
    forallb (fun r => negb (adds_version_to fid r)) rs = true ->
    first_version_only (w_db w) fid name ->
    first_version_only (w_db (run rs w)) fid name.
Proof.
  induction rs as [|r rs IH]; intros w Hrs H; [exact H|].
  cbn [forallb] in Hrs. apply andb_prop in Hrs. destruct Hrs as [Hr Hrs].
  apply negb_true_iff in Hr. cbn [run fold_left]. apply IH; [exact Hrs|].
  now apply handle_keeps_first_version.
Qed.

Lemma listVersions_first_version_only (w : world) (fid : Z)
  (name : jsstring) :
  first_version_only (w_db w) fid name ->
  listVersions (Num fid) w
  = (Ok 200 {| lv_fileId := fid; lv_filename := name;
               lv_currentVersion := 1; lv_versions := [] |}, w).
Proof.
  intros [(r & Hget & Hcv & Hn) Hv]. unfold listVersions, select_versions.
  rewrite Hget, Hv, Hcv, Hn. destruct (get_file_id _ _ _ Hget) as [-> _].
  reflexivity.
Qed.

(** C10. Take the files a first upload has just created, and let the
    server answer any requests after that, none of them a new version for
    the file looked at.  [listVersions] on that file then answers 200
    with [currentVersion] 1 and an empty list of versions: the first
    version lives on the file row only, and no entry is there to be
    flagged current. *)
Theorem listVersions_empty_before_first_addVersion
  (w : world) (ups : list multer_file) (folderId : field) (userId : Z)
  (now : timestamp) (rs : list request) :
  catalog_ok (w_db w) -> user_exists (w_db w) userId = true ->
  ups <> [] -> folder_given_exists (w_db w) folderId ->
  exists created w1,
    uploadFiles ups folderId userId now w = (Ok 201 created, w1)
    /\ List.length created = List.length ups
    /\ forall c, In c created ->
         forallb (fun r => negb (adds_version_to (up_id c) r)) rs = true ->
         let w2 := run rs w1 in
         versions_of (w_db w2) (up_id c) = []
         /\ listVersions (Num (up_id c)) w2
            = (Ok 200 {| lv_fileId := up_id c;
                         lv_filename := up_filename c;
                         lv_currentVersion := 1;
                         lv_versions := [] |}, w2).
Proof.
  intros Hok Hu Hne Hfold.
  destruct (uploadFiles_created w ups folderId userId now Hok Hu Hne Hfold)
    as (created & w1 & E & Hlen & _ & _ & Hall).
  exists created, w1. split; [exact E|]. split; [exact Hlen|].
  intros c Hc Hrs w2.
  pose proof (run_keeps_first_version rs _ _ w1 Hrs (Hall c Hc)) as H.
  split; [apply H|]. now apply listVersions_first_version_only.
Qed.

(** ** Restoring the first version *)

Lemma map_singleton {A B} (g : A -> B) (l : list A) (b : B) :
  List.map g l = [b] -> exists a, l = [a] /\ g a = b.
Proof.
  destruct l as [|a [|a' t]]; try discriminate.
  intros [= <-]. now exists a.
Qed.

(** C5, as the code has it.  After a first upload and one new version
    (which gets number 2 and becomes current), restoring version 1 is
    answered 404 "Version not found", because version 1 has no version
    row, and changes nothing: [current_version] stays 2, and
    [listVersions] shows one entry, version 2, flagged current. *)
Theorem restore_first_version_is_not_found
  (w : world) (file1 file2 : multer_file) (folderId : field)
  (userId : Z) (now1 now2 : timestamp) :
  catalog_ok (w_db w) -> user_exists (w_db w) userId = true ->
  folder_given_exists (w_db w) folderId ->
  exists c w1 vc w2,
    uploadFiles [file1] folderId userId now1 w = (Ok 201 [c], w1)
    /\ current_version_of (w_db w1) (up_id c) = Some 1
    /\ addVersion (Num (up_id c)) (Some file2) userId now2 w1 = (Ok 201 vc, w2)
    /\ vc_versionNumber vc = 2
    /\ current_version_of (w_db w2) (up_id c) = Some 2
    /\ restoreVersion (Num (up_id c)) (Num 1) w2
       = (Err 404 "Version not found", w2)
    /\ exists body e,
         listVersions (Num (up_id c)) w2 = (Ok 200 body, w2)
         /\ lv_currentVersion body = 2
         /\ lv_versions body = [e]
         /\ vi_versionNumber e = 2 /\ vi_isCurrent e = true.
Proof.
  intros Hok Hu Hfold.
  destruct (uploadFiles_created w [file1] folderId userId now1 Hok Hu
              ltac:(discriminate) Hfold)
    as (created & w1 & E & Hlen & Hok1 & Hus & Hall).
  destruct created as [|c [|c' t]]; try discriminate Hlen.
  destruct (Hall c (or_introl eq_refl)) as [(r & Hget & Hcv & _) Hv].
  assert (Hc1 : current_version_of (w_db w1) (up_id c) = Some 1).
  { unfold current_version_of. rewrite Hget. cbn. now rewrite Hcv. }
  assert (Hu1 : user_exists (w_db w1) userId = true)
    by now rewrite (user_exists_ext _ _ _ Hus).
  destruct (addVersion_step w1 (up_id c) 0 file2 userId now2 Hc1)
    as (rowid & w2 & E2 & _ & Hc2 & Hv2 & _); [|exact Hu1|].
  { unfold version_numbers. now rewrite Hv. }
  assert (Hok2 : catalog_ok (w_db w2)).
  { replace w2 with (handle (AddVersion (Num (up_id c)) (Some file2) userId
                                        now2) w1)
      by (cbn [handle]; now rewrite E2).
    now apply handle_ok. }
  exists c, w1. do 2 eexists. split; [exact E|]. split; [exact Hc1|].
  split; [exact E2|]. split; [reflexivity|]. split; [exact Hc2|].
  unfold current_version_of in Hc2.
  destruct (get_file (w_db w2) (up_id c)) as [f2|] eqn:Ef2; [|discriminate].
  injection Hc2 as Hcv2. cbn in Hcv2.
  split.
  - unfold restoreVersion. rewrite Ef2.
    destruct (get_version (w_db w2) (up_id c) 1) eqn:Eg; [|reflexivity].
    exfalso.
    assert (Hin : In 1 (version_numbers (w_db w2) (up_id c)))
      by (apply get_version_numbers; congruence).
    rewrite Hv2 in Hin. cbn in Hin. destruct Hin as [Hin|[]]. discriminate.
  - destruct (listVersions_entries w2 (up_id c) f2 Hok2 Ef2)
      as (entries & El & Hp & _ & Hcur).
    rewrite Hv2 in Hp. cbn [zseq] in Hp. symmetry in Hp.
    apply Permutation_length_1_inv in Hp.
    destruct (map_singleton _ _ _ Hp) as (e & -> & He).
    eexists. exists e. split; [exact El|]. cbn [lv_currentVersion lv_versions].
    repeat split; try assumption.
    inversion Hcur as [|? ? Hflag _]; subst. rewrite Hflag, He, Hcv2.
    reflexivity.
Qed.

(** The claim of C5 fails in the scenario of the specification: file 1 is
    created by first upload, one new version gets number 2 and makes 2
    current, and restoring version 1 is then refused with 404; so no
    restore to version 1 with a two-entry list exists. *)
Lemma restore_first_version_counterexample :
  current_version_of (w_db Scenario.with_file) 1 = Some 1
  /\ versions_of (w_db Scenario.with_file) 1 = []
  /\ returned_version
       (fst (addVersion (Num 1) (Some Scenario.clip_v2) 1 300
                        Scenario.with_file)) = Some 2
  /\ current_version_of (w_db Scenario.with_version) 1 = Some 2
  /\ fst (restoreVersion (Num 1) (Num 1) Scenario.with_version)
     = Err 404 "Version not found"
  /\ ~ restore_first_version_claim Scenario.with_version 1.
Proof.
  repeat split; try (vm_compute; reflexivity).
  intros (w' & body & e1 & e2 & H & _).
  apply (f_equal fst) in H. vm_compute in H. discriminate H.
Qed.

(** ** Downloads and the upload directory *)

(** The stream is opened only for a path that exists on disk and whose
    resolved form has the resolved upload directory as a string prefix. *)
Lemma send_file_guard (filePath : jsstring) (missing : string)
  (headers : list jsstring) (body : download) (w : world) :
  let root := Path.resolve (w_cwd w) (Path.uploadDir (w_cwd w)) in
  let resolved := Path.resolve (w_cwd w) filePath in
  send_file filePath missing headers body w
  = if negb (w_disk w filePath)
    then (Err 404 missing, log w (ExistsSync filePath))
    else if Path.startsWith resolved root
         then if forallb header_ok headers
              then (Ok 200 body,
                    log (log w (ExistsSync filePath))
                        (CreateReadStream filePath))
              else (Err 500 "Internal server error",
                    log w (ExistsSync filePath))
         else (Err 403 "Access denied", log w (ExistsSync filePath)).
Proof.
  unfold send_file. cbv zeta. destruct (negb (w_disk w filePath));
    [reflexivity|].
  destruct (Path.startsWith _ _); [|reflexivity].
  now destruct (forallb header_ok headers).
Qed.

(** A stored path of the [../../etc/passwd] kind that exists on disk is
    refused with 403 and never opened. *)
Lemma traversal_path_refused (headers : list jsstring) (body : download) :
  Path.resolve (w_cwd Scenario.start) Scenario.traversal_path
    = lit "/srv/etc/passwd"
  /\ fst (send_file Scenario.traversal_path "File not found on disk"
                    headers body Scenario.start)
     = Err 403 "Access denied"
  /\ w_trace (snd (send_file Scenario.traversal_path "File not found on disk"
                             headers body Scenario.start))
     = [ExistsSync Scenario.traversal_path].
Proof.
  rewrite send_file_guard. repeat split; vm_compute; reflexivity.
Qed.

(** C4 fails on the code.  With the upload directory [/srv/app/uploads],
    a file row (and a version row) whose stored path is
    [/srv/app/uploads_private/keys.pem] resolves outside the upload
    directory, yet passes the guard, because the guard compares string
    prefixes: both download routes answer 200 and open the file. *)
Theorem download_serves_path_outside_upload_dir :
  let w := Scenario.stray in
  let root := Path.resolve (w_cwd w) (Path.uploadDir (w_cwd w)) in
  let resolved := Path.resolve (w_cwd w) Scenario.sibling_path in
  root = lit "/srv/app/uploads"
  /\ resolved = lit "/srv/app/uploads_private/keys.pem"
  /\ Path.within root resolved = false
  /\ Path.startsWith resolved root = true
  /\ (exists body,
        fst (downloadFile (Num 1) w) = Ok 200 body
        /\ dl_stream body = Scenario.sibling_path)
  /\ w_trace (snd (downloadFile (Num 1) w))
     = [ExistsSync Scenario.sibling_path;
        CreateReadStream Scenario.sibling_path]
  /\ (exists body,
        fst (downloadVersion (Num 1) (Num 2) w) = Ok 200 body
        /\ dl_stream body = Scenario.sibling_path)
  /\ w_trace (snd (downloadVersion (Num 1) (Num 2) w))
     = [ExistsSync Scenario.sibling_path;
        CreateReadStream Scenario.sibling_path].
Proof.
  cbv zeta. repeat split; try (vm_compute; reflexivity);
    eexists; split; vm_compute; reflexivity.
Qed.

(** ** The properties at work on the scenario *)

Lemma scenario_start_fresh : fresh (w_db Scenario.start).
Proof.
  unfold fresh. cbn. repeat split.
  constructor; [intros [H|[]]; discriminate H|].
  constructor; [intros []|constructor].
Qed.

Lemma scenario_folders_ok : catalog_ok (w_db Scenario.with_folders).
Proof. apply run_ok, fresh_ok, scenario_start_fresh. Qed.

Lemma scenario_file_ok : catalog_ok (w_db Scenario.with_file).
Proof. apply handle_ok, scenario_folders_ok. Qed.

Lemma scenario_two_versions_ok :
  catalog_ok (w_db Scenario.with_two_versions).
Proof. do 2 apply handle_ok. apply scenario_file_ok. Qed.

Lemma scenario_folder_one_exists :
  folder_given_exists (w_db Scenario.with_folders) (Some (Num 1)).
Proof. intros id [= <-] _. vm_compute. discriminate. Qed.

(** C1 on the scenario: two further versions of file 1. *)
Lemma addVersion_numbers_in_sequence_witness :
  current_version_of (w_db Scenario.with_file) 1 = Some 1
  /\ versions_of (w_db Scenario.with_file) 1 = []
  /\ Forall (fun u => user_exists (w_db Scenario.with_file) (vu_userId u)
                      = true) Scenario.two_uploads
  /\ let '(rs, w') := addVersions 1 Scenario.two_uploads Scenario.with_file in
     List.map returned_version rs = [Some 2; Some 3]
     /\ NoDup [2; 3]
     /\ List.map (fun wk => spec_next_version (w_db wk) 1)
                 (states_before 1 Scenario.two_uploads Scenario.with_file)
        = [Some 2; Some 3]
     /\ current_version_of (w_db w') 1 = Some 3
     /\ version_numbers (w_db w') 1 = [2; 3].
Proof.
  assert (H1 : current_version_of (w_db Scenario.with_file) 1 = Some 1)
    by (vm_compute; reflexivity).
  assert (H2 : versions_of (w_db Scenario.with_file) 1 = [])
    by (vm_compute; reflexivity).
  assert (H3 : Forall (fun u => user_exists (w_db Scenario.with_file)
                                  (vu_userId u) = true) Scenario.two_uploads)
    by (repeat constructor).
  split; [exact H1|]. split; [exact H2|]. split; [exact H3|].
  exact (addVersion_numbers_in_sequence Scenario.with_file 1
           Scenario.two_uploads H1 H2 H3).
Defined.

(** C2 on the scenario: a second root folder named "Media". *)
Lemma createFolder_keeps_sibling_names_unique_witness :
  fresh (w_db Scenario.start)
  /\ (exists r, In r (folders (w_db Scenario.with_folders))
                /\ fo_parent_folder_id r = sql_bind None
                /\ fo_name r = sanitizeFilename (trim (lit " Media ")))
  /\ sibling_names_unique (w_db Scenario.with_folders)
  /\ NoDup (List.map (fun r => (fo_parent_folder_id r,
                                sanitizeFilename (fo_name r)))
                     (folders (w_db Scenario.with_folders)))
  /\ fst (createFolder (Some (lit " Media ")) None 2 500
                       Scenario.with_folders)
     = Err 400 "Folder with this name already exists"
  /\ kind (fst (createFolder (Some (lit " Media ")) None 2 500
                             Scenario.with_folders)) = Some Conflict
  /\ snd (createFolder (Some (lit " Media ")) None 2 500
                       Scenario.with_folders) = Scenario.with_folders.
Proof.
  assert (Hs : exists r, In r (folders (w_db Scenario.with_folders))
                         /\ fo_parent_folder_id r = sql_bind None
                         /\ fo_name r = sanitizeFilename (trim (lit " Media "))).
  { eexists. split; [left; reflexivity|]. split; vm_compute; reflexivity. }
  split; [exact scenario_start_fresh|]. split; [exact Hs|].
  destruct (createFolder_keeps_sibling_names_unique Scenario.start
              Scenario.folder_requests (lit " Media ") None 2 500
              scenario_start_fresh) as (Hu & Hu' & Hc).
  split; [exact Hu|]. split; [exact Hu'|]. exact (Hc Hs).
Defined.

(** The amended C5 on the scenario. *)
Lemma restore_first_version_is_not_found_witness :
  catalog_ok (w_db Scenario.with_folders)
  /\ user_exists (w_db Scenario.with_folders) 1 = true
  /\ folder_given_exists (w_db Scenario.with_folders) (Some (Num 1))
  /\ exists c w1 vc w2,
       uploadFiles [Scenario.clip_v1] (Some (Num 1)) 1 200
                   Scenario.with_folders = (Ok 201 [c], w1)
       /\ current_version_of (w_db w1) (up_id c) = Some 1
       /\ addVersion (Num (up_id c)) (Some Scenario.clip_v2) 1 300 w1
          = (Ok 201 vc, w2)
       /\ vc_versionNumber vc = 2
       /\ current_version_of (w_db w2) (up_id c) = Some 2
       /\ restoreVersion (Num (up_id c)) (Num 1) w2
          = (Err 404 "Version not found", w2)
       /\ exists body e,
            listVersions (Num (up_id c)) w2 = (Ok 200 body, w2)
            /\ lv_currentVersion body = 2
            /\ lv_versions body = [e]
            /\ vi_versionNumber e = 2 /\ vi_isCurrent e = true.
Proof.
  split; [exact scenario_folders_ok|]. split; [reflexivity|].
  split; [exact scenario_folder_one_exists|].
  exact (restore_first_version_is_not_found Scenario.with_folders
           Scenario.clip_v1 Scenario.clip_v2 (Some (Num 1)) 1 200 300
           scenario_folders_ok eq_refl scenario_folder_one_exists).
Defined.

(** C6 on the scenario: file 1 with versions 2 and 3. *)
Lemma listVersions_descending_one_current_witness :
  exists f,
    catalog_ok (w_db Scenario.with_two_versions)
    /\ get_file (w_db Scenario.with_two_versions) 1 = Some f
    /\ exists body,
         listVersions (Num 1) Scenario.with_two_versions
         = (Ok 200 body, Scenario.with_two_versions)
         /\ Permutation (List.map vi_versionNumber (lv_versions body))
                        (version_numbers (w_db Scenario.with_two_versions) 1)
         /\ StronglySorted Z.gt
              (List.map vi_versionNumber (lv_versions body))
         /\ Forall (fun e => vi_isCurrent e
                             = (vi_versionNumber e =? f_current_version f))
                   (lv_versions body)
         /\ forall v,
              get_version (w_db Scenario.with_two_versions) 1 v <> None ->
              exists w1 body1 e,
                restoreVersion (Num 1) (Num v) Scenario.with_two_versions
                = (Ok 200 v, w1)
                /\ listVersions (Num 1) w1 = (Ok 200 body1, w1)
                /\ filter vi_isCurrent (lv_versions body1) = [e]
                /\ vi_versionNumber e = v.
Proof.
  eexists. split; [exact scenario_two_versions_ok|].
  assert (Hf : get_file (w_db Scenario.with_two_versions) 1
               = Some (set_current_version
                         (set_current_version
                            {| f_id := 1;
                               f_filename := mf_filename Scenario.clip_v1;
                               f_original_filename := lit "clip.mp4";
                               f_file_path := mf_path Scenario.clip_v1;
                               f_file_size := 2097152;
                               f_mime_type := lit "video/mp4";
                               f_uploaded_by := 1; f_uploaded_at := 200;
                               f_folder_id := Some 1;
                               f_current_version := 1 |} 2) 3))
    by (vm_compute; reflexivity).
  split; [exact Hf|].
  exact (listVersions_descending_one_current Scenario.with_two_versions 1 _
           scenario_two_versions_ok Hf).
Defined.

(** What the cascade leaves of the scenario: no folder, and the file. *)
Lemma deleteFolder_scenario :
  let w' := snd (deleteFolder (Num 1) 1 Scenario.with_file) in
  fst (deleteFolder (Num 1) 1 Scenario.with_file) = Ok 200 tt
  /\ folders (w_db w') = []
  /\ List.map f_id (files (w_db w')) = [1]
  /\ List.map f_folder_id (files (w_db w')) = [Some 1]
  /\ fst (listContents (Some (Num 3)) w') = Err 404 "Folder not found"
  /\ fst (deleteFolder (Num 1) 2 Scenario.with_file)
     = Err 403 "You can only delete folders you created".
Proof. repeat split; vm_compute; reflexivity. Qed.

(** C10 on the scenario: the first upload, then requests that add no
    version to file 1. *)
Lemma listVersions_empty_before_first_addVersion_witness :
  catalog_ok (w_db Scenario.with_folders)
  /\ user_exists (w_db Scenario.with_folders) 1 = true
  /\ [Scenario.clip_v1] <> []
  /\ folder_given_exists (w_db Scenario.with_folders) (Some (Num 1))
  /\ exists created w1,
       uploadFiles [Scenario.clip_v1] (Some (Num 1)) 1 200
                   Scenario.with_folders = (Ok 201 created, w1)
       /\ List.length created = 1%nat
       /\ forall c, In c created ->
            forallb (fun r => negb (adds_version_to (up_id c) r))
                    [RestoreVersion (Num 1) (Num 1); MoveFile (Num 1) None 1]
            = true ->
            let w2 := run [RestoreVersion (Num 1) (Num 1);
                           MoveFile (Num 1) None 1] w1 in
            versions_of (w_db w2) (up_id c) = []
            /\ listVersions (Num (up_id c)) w2
               = (Ok 200 {| lv_fileId := up_id c;
                            lv_filename := up_filename c;
                            lv_currentVersion := 1;
                            lv_versions := [] |}, w2).
Proof.
  assert (Hne : [Scenario.clip_v1] <> []) by discriminate.
  split; [exact scenario_folders_ok|]. split; [reflexivity|].
  split; [exact Hne|]. split; [exact scenario_folder_one_exists|].
  exact (listVersions_empty_before_first_addVersion Scenario.with_folders
           [Scenario.clip_v1] (Some (Num 1)) 1 200
           [RestoreVersion (Num 1) (Num 1); MoveFile (Num 1) None 1]
           scenario_folders_ok eq_refl Hne scenario_folder_one_exists).
Defined.

(** ** A tree the delete route cannot remove *)

(** What the 1001 requests leave behind. *)
Lemma deep_tree_catalog : Deep.tree = with_db Scenario.start Deep.catalog.
Proof. vm_compute. reflexivity. Qed.

(** C7. The server can build a folder tree that its delete route fails
    on.  After 1001 requests that each create a folder inside the one
    created before, all by user 1, folders 1 to 1001 form a chain with
    folder 1 at the root.  Asked by its creator to delete folder 1, the
    route answers 500 and leaves the world as it was: the cascade of the
    schema stops at SQLite's 1000 levels of trigger recursion and the
    statement throws.  All 1001 folders remain, and the contents of the
    innermost one, a descendant of the folder that was to be deleted, are
    still answered with 200 instead of not found. *)
Theorem deleteFolder_fails_on_deep_tree :
  reachable Deep.tree
  /\ List.map (fun r => (fo_id r, fo_parent_folder_id r, fo_created_by r))
              (folders (w_db Deep.tree))
     = List.map (fun k => (Z.of_nat (S k),
                           match k with
                           | O => None
                           | S _ => Some (Z.of_nat k)
                           end, 1))
                (seq 0 1001)
  /\ deleteFolder (Num 1) 1 Deep.tree
     = (Err 500 "Internal server error", Deep.tree)
  /\ fst (listContents (Some (Num 1001))
                       (snd (deleteFolder (Num 1) 1 Deep.tree)))
     = Ok 200 ([], []).
Proof.
  split.
  { exists Scenario.start, (Deep.chain 1001).
    split; [exact scenario_start_fresh|reflexivity]. }
  rewrite deep_tree_catalog.
  split; [vm_compute; reflexivity|].
  split; vm_compute; reflexivity.
Qed.

(* ================================================================== *)
(** * Further properties *)

(** ** More invariants of reachable catalogs *)

Lemma fresh_history (d : database) : fresh d -> history_ok d.
Proof.
  intros (H1 & H2 & H3 & H4 & H5 & H6 & H7).
  split; unfold folder_parents_older, folder_ids_issued, file_ids_issued,
    creators_exist, file_folders_issued, file_names_sanitized,
    versions_numbered, current_version_consistent;
    rewrite ?H2, ?H3, ?H4, ?H5, ?H6; cbn [List.map In];
    repeat split; try constructor; try easy; lia.
Qed.

Lemma In_snoc {A} (x y : A) (l : list A) :
  In x (l ++ [y]) <-> In x l \/ x = y.
Proof.
  rewrite in_app_iff. cbn. intuition congruence.
Qed.

Lemma NoDup_ids_snoc (ids : list Z) (id : Z) :
  NoDup ids -> (forall x, In x ids -> x < id) -> NoDup (ids ++ [id]).
Proof.
  intros Hn Hlt. apply NoDup_snoc; [exact Hn|].
  intros Hin. apply Hlt in Hin. lia.
Qed.

Lemma ids_below {A} (key : A -> Z) (l : list A) (seq : Z) (x : Z) :
  In x (List.map key l) -> x < next_rowid (List.map key l) seq.
Proof. intros H. now apply next_rowid_above. Qed.

Lemma insert_folder_history (d d' : database) (name : jsstring)
  (parent : option Z) (creator : Z) (now : timestamp) (id : Z) :
  catalog_ok d -> history_ok d ->
  insert_folder d name parent creator now = Some (d', id) ->
  history_ok d'.
Proof.
  intros Hok [P1 [P2 P2'] P3 [P4 P4'] P5 P6 P7 P8]. unfold insert_folder.
  destruct (folder_fk_ok d parent creator && _) eqn:Echk; [|discriminate].
  intros [= <- <-]. apply andb_prop in Echk. destruct Echk as [Hfk _].
  apply andb_prop in Hfk. destruct Hfk as [Hpar Hcre].
  pose proof (next_rowid_above (List.map fo_id (folders d)) (seq_folders d))
    as [Hseq Hids].
  split; try assumption.
  - intros r p Hr Ep. cbn [folders] in Hr. apply In_snoc in Hr.
    destruct Hr as [Hr| ->]; [now apply (P1 r p)|].
    cbn [fo_parent_folder_id fo_id] in *. subst parent.
    apply existsb_exists in Hpar. destruct Hpar as (r' & Hr' & E).
    apply Z.eqb_eq in E. subst p. specialize (P2' r' Hr'). lia.
  - split; cbn [folders seq_folders].
    + rewrite map_app. now apply NoDup_ids_snoc.
    + intros r Hr. apply In_snoc in Hr. destruct Hr as [Hr| ->].
      * specialize (P2' r Hr). lia.
      * cbn [fo_id]. lia.
  - split; [|exact P4'].
    intros r Hr. cbn [folders] in Hr. apply In_snoc in Hr.
    destruct Hr as [Hr| ->]; [now apply P4 | exact Hcre].
  - intros f x Hf Ex. specialize (P5 f x Hf Ex). cbn [seq_folders]. lia.
Qed.

Lemma delete_folder_history (d : database) (id : Z) :
  history_ok d -> history_ok (delete_folder d id).
Proof.
  intros [P1 [P2 P2'] P3 [P4 P4'] P5 P6 P7 P8].
  destruct (cascade_is_filter (S (List.length (folders d))) [id] (folders d))
    as [keep Hk].
  split; try assumption.
  - intros r p Hr. unfold delete_folder in Hr. cbn [folders] in Hr.
    rewrite Hk in Hr. apply filter_In in Hr. now apply P1.
  - split; unfold delete_folder; cbn [folders seq_folders]; rewrite Hk.
    + now apply NoDup_map_filter.
    + intros r Hr. apply filter_In in Hr. now apply P2'.
  - split; [|exact P4'].
    intros r Hr. unfold delete_folder in Hr. cbn [folders] in Hr.
    rewrite Hk in Hr. apply filter_In in Hr. now apply P4.
Qed.

Lemma insert_file_history (d d' : database) filename original path size mime
  folder uploader now (id : Z) :
  catalog_ok d -> history_ok d ->
  (forall x, folder = Some x -> 0 <= x <= seq_folders d) ->
  FileUtils.sanitizeFilename original = original ->
  insert_file d filename original path size mime folder uploader now
    = Some (d', id) ->
  history_ok d'.
Proof.
  intros Hok [P1 P2 [P3 [P3s P3']] [P4 P4'] P5 P6 [P7 P7'] P8] Hfold Hname.
  unfold insert_file. destruct (user_exists d uploader) eqn:Eu; [|discriminate].
  intros [= <- <-].
  pose proof (next_rowid_above (List.map f_id (files d)) (seq_files d))
    as [Hseq Hids].
  assert (Hfresh : ~ In (next_rowid (List.map f_id (files d)) (seq_files d))
                        (List.map f_id (files d))).
  { intros Hin. apply Hids in Hin. lia. }
  split; try assumption.
  - split; [|split]; cbn [files seq_files].
    + rewrite map_app. now apply NoDup_ids_snoc.
    + lia.
    + intros f Hf. apply In_snoc in Hf. destruct Hf as [Hf| ->].
      * specialize (P3' f Hf). lia.
      * cbn [f_id]. lia.
  - split; [exact P4|].
    intros f Hf. cbn [files] in Hf. apply In_snoc in Hf.
    destruct Hf as [Hf| ->]; [now apply P4' | exact Eu].
  - intros f x Hf Ex. cbn [files] in Hf. apply In_snoc in Hf.
    destruct Hf as [Hf| ->]; [now apply (P5 f x)|]. now apply Hfold.
  - intros f Hf. cbn [files] in Hf. apply In_snoc in Hf.
    destruct Hf as [Hf| ->]; [now apply P6 | exact Hname].
  - split; [exact P7|].
    intros f Hf. cbn [files] in Hf. apply In_snoc in Hf.
    destruct Hf as [Hf| ->]; [now apply P7'|]. cbn. lia.
  - intros f Hf. cbn [files] in Hf. apply In_snoc in Hf.
    destruct Hf as [Hf| ->]; [exact (P8 f Hf)|].
    left. split; [|reflexivity]. cbn [f_id].
    exact (unversioned_when_fresh d _ (ok_version_files _ Hok) Hfresh).
Qed.

Lemma or_num_nonzero (a b : Z) : a <> 0 -> or_num a b = a.
Proof. intros H. unfold or_num. apply Z.eqb_neq in H. now rewrite H. Qed.

(** The number [addVersion] picks lies above the current version and
    above every number the file has, once numbers start at 2. *)
Lemma next_version_above (d : database) (fid : Z) (f : file_row) :
  get_file d fid = Some f -> 1 <= f_current_version f ->
  (forall x, In x (version_numbers d fid) -> 2 <= x) ->
  f_current_version f < next_version d fid
  /\ forall x, In x (version_numbers d fid) -> x < next_version d fid.
Proof.
  intros Hf Hcv Hnum. unfold next_version. fold (version_numbers d fid).
  rewrite Hf. cbn [option_map or_null].
  rewrite (or_num_nonzero (f_current_version f)) by lia.
  destruct (sql_max (version_numbers d fid)) as [m|] eqn:Em; cbn [or_null].
  - pose proof (sql_max_In _ _ Em) as Hm. apply Hnum in Hm.
    rewrite (or_num_nonzero m) by lia. split; [lia|].
    intros x Hx. pose proof (sql_max_ge _ _ _ Em Hx). lia.
  - apply sql_max_None in Em. rewrite Em. split; [lia|easy].
Qed.

Lemma versions_of_snoc_other (d : database) (fid k : Z) (row : version_row)
  (l : list version_row) :
  v_file_id row = fid -> k <> fid ->
  filter (fun r => v_file_id r =? k) (l ++ [row])
  = filter (fun r => v_file_id r =? k) l.
Proof.
  intros E Hne. rewrite filter_app. cbn [filter]. rewrite E.
  destruct (fid =? k) eqn:Ek; [apply Z.eqb_eq in Ek; congruence|].
  apply app_nil_r.
Qed.

Lemma add_version_history (d d1 : database) (fid : Z) (path : jsstring)
  (size uploader : Z) (now : timestamp) (rowid : Z) (f : file_row) :
  history_ok d -> get_file d fid = Some f ->
  insert_version d fid (next_version d fid) path size uploader now
    = Some (d1, rowid) ->
  history_ok (update_current_version d1 (next_version d fid) fid).
Proof.
  intros [P1 P2 [P3 [P3s P3']] [P4 P4'] P5 P6 [P7 P7'] P8] Hf.
  destruct (get_file_id _ _ _ Hf) as [Eid Hin].
  destruct (next_version_above d fid f Hf (P7' f Hin)) as [Habove _].
  { intros x Hx. apply in_map_iff in Hx. destruct Hx as (v & <- & Hv).
    apply filter_In in Hv. now apply P7. }
  unfold insert_version. destruct (_ && _); [|discriminate].
  intros [= <- <-]. set (nv := next_version d fid) in *.
  assert (Hupd : forall g, In g (List.map (fun r => if f_id r =? fid
                                then set_current_version r nv else r)
                              (files d)) ->
            exists g0, In g0 (files d) /\ f_id g = f_id g0
              /\ f_original_filename g = f_original_filename g0
              /\ f_uploaded_by g = f_uploaded_by g0
              /\ f_folder_id g = f_folder_id g0
              /\ ((f_id g0 = fid /\ f_current_version g = nv)
                  \/ (f_id g0 <> fid /\ g = g0))).
  { intros g Hg. apply in_map_iff in Hg. destruct Hg as (g0 & <- & Hg0).
    exists g0. destruct (f_id g0 =? fid) eqn:E.
    - apply Z.eqb_eq in E. repeat split; auto.
    - apply Z.eqb_neq in E. repeat split; auto. }
  split; try assumption;
    unfold file_ids_issued, creators_exist, file_folders_issued,
      file_names_sanitized, versions_numbered, current_version_consistent;
    cbn [update_current_version files file_versions folders seq_files users].
  - split; [|split; [exact P3s|]].
    + rewrite map_id_update; [exact P3|].
      intros r. now destruct (f_id r =? fid).
    + intros g Hg. destruct (Hupd g Hg) as (g0 & Hg0 & E & _).
      rewrite E. now apply P3'.
  - split; [exact P4|].
    intros g Hg. destruct (Hupd g Hg) as (g0 & Hg0 & _ & _ & E & _).
    rewrite E. now apply P4'.
  - intros g x Hg Ex. destruct (Hupd g Hg) as (g0 & Hg0 & _ & _ & _ & E & _).
    rewrite E in Ex. now apply (P5 g0 x).
  - intros g Hg. destruct (Hupd g Hg) as (g0 & Hg0 & _ & E & _).
    rewrite E. now apply P6.
  - split.
    + intros v Hv. apply In_snoc in Hv. destruct Hv as [Hv| ->];
        [now apply P7|]. cbn [v_version_number]. specialize (P7' f Hin). lia.
    + intros g Hg.
      destruct (Hupd g Hg) as (g0 & Hg0 & _ & _ & _ & _ & [[_ E]|[_ ->]]).
      * rewrite E. specialize (P7' f Hin). lia.
      * now apply P7'.
  - intros g Hg. unfold version_numbers, versions_of.
    cbn [update_current_version file_versions].
    destruct (Hupd g Hg) as (g0 & Hg0 & E & _ & _ & _ & [[E0 Ecv]|[Hne ->]]).
    + right. rewrite E, E0, Ecv, filter_app, map_app. apply in_or_app. right.
      cbn [filter v_file_id]. rewrite Z.eqb_refl. now left.
    + rewrite (versions_of_snoc_other d fid (f_id g0)) by easy.
      exact (P8 g0 Hg0).
Qed.

Lemma restore_history (d : database) (fid vn : Z) (v : version_row) :
  history_ok d -> get_version d fid vn = Some v ->
  history_ok (update_current_version d vn fid).
Proof.
  intros [P1 P2 [P3 [P3s P3']] [P4 P4'] P5 P6 [P7 P7'] P8] Hv.
  assert (Hvn : In vn (version_numbers d fid))
    by (apply get_version_numbers; congruence).
  assert (H2 : 2 <= vn).
  { apply in_map_iff in Hvn. destruct Hvn as (x & <- & Hx).
    apply filter_In in Hx. now apply P7. }
  assert (Hupd : forall g, In g (List.map (fun r => if f_id r =? fid
                                then set_current_version r vn else r)
                              (files d)) ->
            exists g0, In g0 (files d) /\ f_id g = f_id g0
              /\ f_original_filename g = f_original_filename g0
              /\ f_uploaded_by g = f_uploaded_by g0
              /\ f_folder_id g = f_folder_id g0
              /\ ((f_id g0 = fid /\ f_current_version g = vn)
                  \/ (f_id g0 <> fid /\ g = g0))).
  { intros g Hg. apply in_map_iff in Hg. destruct Hg as (g0 & <- & Hg0).
    exists g0. destruct (f_id g0 =? fid) eqn:E.
    - apply Z.eqb_eq in E. repeat split; auto.
    - apply Z.eqb_neq in E. repeat split; auto. }
  split; try assumption;
    unfold file_ids_issued, creators_exist, file_folders_issued,
      file_names_sanitized, versions_numbered, current_version_consistent;
    cbn [update_current_version files file_versions folders seq_files users].
  - split; [|split; [exact P3s|]].
    + rewrite map_id_update; [exact P3|].
      intros r. now destruct (f_id r =? fid).
    + intros g Hg. destruct (Hupd g Hg) as (g0 & Hg0 & E & _).
      rewrite E. now apply P3'.
  - split; [exact P4|].
    intros g Hg. destruct (Hupd g Hg) as (g0 & Hg0 & _ & _ & E & _).
    rewrite E. now apply P4'.
  - intros g x Hg Ex. destruct (Hupd g Hg) as (g0 & Hg0 & _ & _ & _ & E & _).
    rewrite E in Ex. now apply (P5 g0 x).
  - intros g Hg. destruct (Hupd g Hg) as (g0 & Hg0 & _ & E & _).
    rewrite E. now apply P6.
  - split; [exact P7|].
    intros g Hg.
    destruct (Hupd g Hg) as (g0 & Hg0 & _ & _ & _ & _ & [[_ E]|[_ ->]]).
    + rewrite E. lia.
    + now apply P7'.
  - intros g Hg. unfold version_numbers, versions_of.
    cbn [update_current_version file_versions].
    destruct (Hupd g Hg) as (g0 & Hg0 & E & _ & _ & _ & [[E0 Ecv]|[Hne ->]]).
    + right. rewrite E, E0, Ecv. exact Hvn.
    + exact (P8 g0 Hg0).
Qed.

Lemma move_history (d : database) (folder : option Z) (fid : Z) :
  history_ok d -> (forall x, folder = Some x -> 0 <= x <= seq_folders d) ->
  history_ok (update_folder_id d folder fid).
Proof.
  intros [P1 P2 [P3 [P3s P3']] [P4 P4'] P5 P6 [P7 P7'] P8] Hfold.
  assert (Hupd : forall g, In g (List.map (fun r => if f_id r =? fid
                                then set_folder_id r folder else r)
                              (files d)) ->
            exists g0, In g0 (files d) /\ f_id g = f_id g0
              /\ f_original_filename g = f_original_filename g0
              /\ f_uploaded_by g = f_uploaded_by g0
              /\ f_current_version g = f_current_version g0
              /\ (f_folder_id g = folder \/ g = g0)).
  { intros g Hg. apply in_map_iff in Hg. destruct Hg as (g0 & <- & Hg0).
    exists g0. destruct (f_id g0 =? fid); repeat split; auto. }
  split; try assumption;
    unfold file_ids_issued, creators_exist, file_folders_issued,
      file_names_sanitized, versions_numbered, current_version_consistent;
    cbn [update_folder_id files file_versions folders seq_files seq_folders
         users].
  - split; [|split; [exact P3s|]].
    + rewrite map_id_update; [exact P3|].
      intros r. now destruct (f_id r =? fid).
    + intros g Hg. destruct (Hupd g Hg) as (g0 & Hg0 & E & _).
      rewrite E. now apply P3'.
  - split; [exact P4|].
    intros g Hg. destruct (Hupd g Hg) as (g0 & Hg0 & _ & _ & E & _).
    rewrite E. now apply P4'.
  - intros g x Hg Ex.
    destruct (Hupd g Hg) as (g0 & Hg0 & _ & _ & _ & _ & [E| ->]).
    + apply Hfold. congruence.
    + now apply (P5 g0 x).
  - intros g Hg. destruct (Hupd g Hg) as (g0 & Hg0 & _ & E & _).
    rewrite E. now apply P6.
  - split; [exact P7|].
    intros g Hg. destruct (Hupd g Hg) as (g0 & Hg0 & _ & _ & _ & E & _).
    rewrite E. now apply P7'.
  - intros g Hg. unfold version_numbers, versions_of.
    cbn [update_folder_id file_versions].
    destruct (Hupd g Hg) as (g0 & Hg0 & E & _ & _ & Ecv & _).
    rewrite E, Ecv. exact (P8 g0 Hg0).
Qed.

Lemma get_folder_id (d : database) (k : Z) (r : folder_row) :
  get_folder d k = Some r -> fo_id r = k /\ In r (folders d).
Proof.
  unfold get_folder. intros H. apply find_some in H.
  destruct H as [H1 H2]. apply Z.eqb_eq in H2. now split.
Qed.

(** A folder id that passed a route's existence check is one the table
    has issued, or 0. *)
Lemma folder_ref_issued (d : database) (folderId : field) :
  catalog_ok d -> history_ok d ->
  truthy folderId
  && match sql_bind folderId with
     | Some id => match get_folder d id with
                  | None => true
                  | Some _ => false
                  end
     | None => false
     end = false ->
  forall x, sql_bind folderId = Some x -> 0 <= x <= seq_folders d.
Proof.
  intros Hok Hh Hchk x Ex. destruct folderId as [[|z]|]; try discriminate.
  cbn [sql_bind truthy] in *. injection Ex as ->.
  destruct (ok_folder_ids _ Hok) as [Hpos Hseq].
  destruct (x =? 0) eqn:E0; [apply Z.eqb_eq in E0; lia|].
  cbn [negb andb] in Hchk.
  destruct (get_folder d x) as [r|] eqn:Eg; [|discriminate].
  destruct (get_folder_id _ _ _ Eg) as [<- Hr].
  specialize (Hpos r Hr). destruct (hi_folder_ids _ Hh) as [_ Hb].
  specialize (Hb r Hr). lia.
Qed.

Lemma upload_loop_history (ups : list multer_file) folderId userId now :
  forall d acc,
    catalog_ok d -> history_ok d ->
    (forall x, sql_bind folderId = Some x -> 0 <= x <= seq_folders d) ->
    history_ok (fst (upload_loop d ups folderId userId now acc)).
Proof.
  induction ups as [|x t IH]; intros d acc Hok Hh Hf; [exact Hh|].
  cbn [upload_loop].
  destruct (insert_file _ _ _ _ _ _ _ _ _) as [[d' id]|] eqn:E; [|exact Hh].
  apply IH.
  - eapply insert_file_ok; eassumption.
  - eapply insert_file_history; try eassumption.
    apply sanitizeFilename_idempotent.
  - unfold insert_file in E. destruct (user_exists d userId); [|discriminate].
    injection E as <- _. exact Hf.
Qed.

Lemma handle_history (r : request) (w : world) :
  catalog_ok (w_db w) -> history_ok (w_db w) -> history_ok (w_db (handle r w)).
Proof.
  intros Hok H.
  destruct r as [name parentFolderId userId now | folderId
                | folderId userId | ups folderId userId now | id
                | id folderId userId | | id file userId now | id
                | id vn | id vn]; cbn [handle].
  - unfold createFolder. destruct name as [n|]; [|exact H].
    destruct (trim n); [exact H|].
    destruct (sanitizeFilename _) eqn:Es; [exact H|].
    destruct (truthy parentFolderId && _); [exact H|].
    destruct (find_sibling _ _ _) eqn:Ef; [exact H|].
    destruct (insert_folder _ _ _ _ _) as [[d' id]|] eqn:Ei; [|exact H].
    cbn [snd with_db w_db]. eapply insert_folder_history; eassumption.
  - unfold listContents. now repeat destruct (_ && _).
  - unfold deleteFolder. destruct folderId as [|id]; [exact H|].
    destruct (get_folder _ _) as [f|] eqn:Ef; [|exact H].
    destruct (negb _); [exact H|].
    destruct (cascade_too_deep _ _); [exact H|]. cbn [snd with_db w_db].
    now apply delete_folder_history.
  - unfold uploadFiles. destruct ups as [|x t]; [exact H|].
    destruct (truthy folderId && _) eqn:Echk; [exact H|].
    pose proof (upload_loop_history (x :: t) folderId userId now (w_db w) []
                  Hok H (folder_ref_issued _ _ Hok H Echk)) as Hl.
    destruct (upload_loop _ _ _ _ _ _) as [d' [u|]]; exact Hl.
  - unfold downloadFile. destruct id; [exact H|].
    destruct (get_file _ _); [|exact H]. now rewrite send_file_db.
  - unfold moveFile. destruct id as [|fileId]; [exact H|].
    destruct folderId as [[|target]|]; try exact H;
      (destruct (get_file _ _); [|exact H]);
      (destruct (negb _); [exact H|]);
      (destruct (truthy _ && _) eqn:Echk; [exact H|]);
      cbn [snd with_db w_db]; apply move_history; try exact H;
      exact (folder_ref_issued _ _ Hok H Echk).
  - exact H.
  - unfold addVersion. destruct id as [|fileId]; [exact H|].
    destruct file; [|exact H].
    destruct (get_file _ _) as [f|] eqn:Ef; [|exact H].
    destruct (insert_version _ _ _ _ _ _ _) as [[d1 rowid]|] eqn:Ei;
      [|exact H].
    cbn [snd with_db w_db]. eapply add_version_history; eassumption.
  - unfold listVersions. destruct id; [exact H|].
    now destruct (get_file _ _).
  - unfold restoreVersion. destruct id as [|fileId]; [exact H|].
    destruct vn as [|vn]; [exact H|].
    destruct (get_file _ _); [|exact H].
    destruct (get_version _ _ _) eqn:Ev; [|exact H].
    cbn [snd with_db w_db]. eapply restore_history; eassumption.
  - unfold downloadVersion. destruct id; [exact H|]. destruct vn; [exact H|].
    destruct (get_file _ _); [|exact H].
    destruct (get_version _ _ _); [|exact H]. now rewrite send_file_db.
Qed.

Lemma run_history (rs : list request) :
  forall w, catalog_ok (w_db w) -> history_ok (w_db w) ->
            history_ok (w_db (run rs w)).
Proof.
  induction rs as [|r rs IH]; intros w Hok H; [exact H|].
  apply IH; [now apply handle_ok | now apply handle_history].
Qed.

(** In a reachable world both sets of invariants hold. *)
Lemma reachable_ok (w : world) :
  reachable w -> catalog_ok (w_db w) /\ history_ok (w_db w).
Proof.
  intros (w0 & rs & Hf & ->). split.
  - apply run_ok, fresh_ok, Hf.
  - apply run_history; [apply fresh_ok | apply fresh_history]; exact Hf.
Qed.

Lemma run_app (rs1 rs2 : list request) (w : world) :
  run (rs1 ++ rs2) w = run rs2 (run rs1 w).
Proof. unfold run. apply fold_left_app. Qed.

Lemma reachable_handle (r : request) (w : world) :
  reachable w -> reachable (handle r w).
Proof.
  intros (w0 & rs & Hf & ->). exists w0, (rs ++ [r]).
  split; [exact Hf|]. now rewrite run_app.
Qed.

Lemma reachable_run (rs : list request) (w : world) :
  reachable w -> reachable (run rs w).
Proof.
  intros (w0 & rs0 & Hf & ->). exists w0, (rs0 ++ rs).
  split; [exact Hf|]. now rewrite run_app.
Qed.

(** ** Deleting folders in reachable worlds *)

(** X24. In every world the server reaches, [deleteFolder] answers 404
    when no folder has the id and 403 when the requester is not the
    folder's creator, and leaves the world as it was in both cases.
    Otherwise, when no folder lies 1000 levels below the id, it answers
    200 and removes exactly the folder rows of the subtree under the id:
    the folder itself and, transitively, every folder whose parent is
    removed; [listContents] on the id of any removed folder then answers
    404, and file rows (and version rows and users) are untouched,
    whatever folder they refer to.  When a folder does lie 1000 levels
    below, the delete statement throws: the answer is 500 and nothing is
    removed. *)
Theorem deleteFolder_cascades_within_depth (w : world) (id userId : Z) :
  reachable w ->
  let d := w_db w in
  let '(r, w') := deleteFolder (Num id) userId w in
  match get_folder d id with
  | None => r = Err 404 "Folder not found" /\ kind r = Some NotFound /\ w' = w
  | Some f =>
      if fo_created_by f =? userId then
        if cascade_too_deep d id then
          r = Err 500 "Internal server error" /\ w' = w
        else
          r = Ok 200 tt
          /\ (forall x, In x (folders (w_db w'))
                        <-> In x (folders d)
                            /\ ~ in_subtree (folders d) [id] (fo_id x))
          /\ (forall dsc, in_subtree (folders d) [id] dsc ->
                listContents (Some (Num dsc)) w'
                = (Err 404 "Folder not found", w'))
          /\ files (w_db w') = files d
          /\ file_versions (w_db w') = file_versions d
          /\ users (w_db w') = users d
      else
        r = Err 403 "You can only delete folders you created"
        /\ kind r = Some PermissionDenied /\ w' = w
  end.
Proof.
  intros Hr. destruct (reachable_ok w Hr) as [Hok _].
  unfold deleteFolder. cbv zeta.
  destruct (get_folder (w_db w) id) as [f|] eqn:Ef; [|now repeat split].
  destruct (fo_created_by f =? userId); cbn [negb]; [|now repeat split].
  destruct (cascade_too_deep (w_db w) id); [now split|].
  split; [reflexivity|]. split; [|split; [|now repeat split]].
  - intros x. cbn [with_db w_db]. exact (delete_folder_spec _ _ f x Ef).
  - intros dsc Hsub. unfold listContents. cbn [with_db w_db].
    pose proof (subtree_id_positive _ _ _ f (ok_folder_ids _ Hok) Ef Hsub)
      as Hpos.
    cbn [truthy sql_bind isNaN].
    rewrite (get_folder_None_deleted _ _ _ f Ef Hsub).
    destruct (dsc =? 0) eqn:E0; [apply Z.eqb_eq in E0; lia|].
    reflexivity.
Qed.

(** ** Versions in reachable worlds *)

(** X1. In every world the server reaches, the current version of a file
    is 1 exactly while the file has no version rows, and otherwise is the
    number (at least 2) of one of the file's version rows. *)
Theorem current_version_names_a_version
  (w : world) (fid : Z) (f : file_row) :
  reachable w -> get_file (w_db w) fid = Some f ->
  (versions_of (w_db w) fid = [] /\ f_current_version f = 1)
  \/ (2 <= f_current_version f
      /\ get_version (w_db w) fid (f_current_version f) <> None).
Proof.
  intros Hr Hf. destruct (reachable_ok w Hr) as [_ Hh].
  destruct (get_file_id _ _ _ Hf) as [Eid Hin].
  destruct (hi_current _ Hh f Hin) as [H|H]; rewrite Eid in H; [now left|].
  right. split; [|now apply get_version_numbers].
  apply in_map_iff in H. destruct H as (v & <- & Hv).
  apply filter_In in Hv. now apply (hi_numbered _ Hh).
Qed.

(** X2. In every world the server reaches, a new version for a file that
    exists, uploaded by a user of the catalog, is always accepted: the
    answer is 201 with a number above the current version and above every
    number the file has, that number is the one row added to the file's
    versions, and it becomes the current version. *)
Theorem addVersion_always_appends
  (w : world) (fid : Z) (f : file_row) (reqFile : multer_file)
  (userId : Z) (now : timestamp) :
  reachable w -> get_file (w_db w) fid = Some f ->
  user_exists (w_db w) userId = true ->
  exists body w',
    addVersion (Num fid) (Some reqFile) userId now w = (Ok 201 body, w')
    /\ f_current_version f < vc_versionNumber body
    /\ (forall x, In x (version_numbers (w_db w) fid) ->
                  x < vc_versionNumber body)
    /\ version_numbers (w_db w') fid
       = version_numbers (w_db w) fid ++ [vc_versionNumber body]
    /\ current_version_of (w_db w') fid = Some (vc_versionNumber body)
    /\ vc_fileSize body = mf_size reqFile.
Proof.
  intros Hr Hf Hu. destruct (reachable_ok w Hr) as [_ Hh].
  destruct (get_file_id _ _ _ Hf) as [Eid Hin].
  destruct (next_version_above (w_db w) fid f Hf) as [Hcv Hnum].
  { now apply (hi_numbered _ Hh). }
  { intros x Hx. apply in_map_iff in Hx. destruct Hx as (v & <- & Hv).
    apply filter_In in Hv. now apply (hi_numbered _ Hh). }
  unfold addVersion. rewrite Hf. unfold insert_version.
  rewrite (get_file_existsb _ _ _ Hf), Hu, version_absent; cycle 1.
  { intros Hx. apply Hnum in Hx. lia. }
  cbn [andb negb]. do 2 eexists. split; [reflexivity|].
  cbn [vc_versionNumber vc_fileSize]. repeat split; try assumption.
  - unfold version_numbers, versions_of, with_db.
    cbn [w_db update_current_version file_versions].
    rewrite filter_app, map_app. cbn [filter v_file_id].
    now rewrite Z.eqb_refl.
  - unfold current_version_of, with_db. cbn [w_db].
    rewrite get_file_update_current_version.
    change (get_file _ fid) with (get_file (w_db w) fid). rewrite Hf.
    cbn [option_map]. now rewrite Eid, Z.eqb_refl.
Qed.

(** X3. In every world the server reaches, the version list of a file
    either is empty, with current version 1, or flags exactly one entry as
    current, the one whose number is the file's current version. *)
Theorem listVersions_flags_one_current
  (w : world) (fid : Z) (f : file_row) :
  reachable w -> get_file (w_db w) fid = Some f ->
  exists body,
    listVersions (Num fid) w = (Ok 200 body, w)
    /\ lv_currentVersion body = f_current_version f
    /\ ((lv_versions body = [] /\ lv_currentVersion body = 1)
        \/ exists e, filter vi_isCurrent (lv_versions body) = [e]
                     /\ vi_versionNumber e = lv_currentVersion body).
Proof.
  intros Hr Hf. destruct (reachable_ok w Hr) as [Hok Hh].
  destruct (listVersions_entries w fid f Hok Hf)
    as (entries & E & Hp & Hs & Hc).
  eexists. split; [exact E|]. cbn [lv_currentVersion lv_versions].
  split; [reflexivity|].
  destruct (get_file_id _ _ _ Hf) as [Eid Hin].
  destruct (hi_current _ Hh f Hin) as [[Hv Hcv]|Hcur]; rewrite Eid in *.
  - left. split; [|exact Hcv]. unfold version_numbers in Hp.
    rewrite Hv in Hp. apply Permutation_sym, Permutation_nil in Hp.
    now destruct entries.
  - right. apply (one_current_entry entries _ Hs Hc).
    eapply Permutation_in; [symmetry; exact Hp|exact Hcur].
Qed.

(** ** What the statistics follow *)

Lemma sizes_update_current_version (d : database) (vn fid : Z) :
  List.map f_file_size (files (update_current_version d vn fid))
  = List.map f_file_size (files d).
Proof.
  cbn [update_current_version files]. rewrite map_map. apply map_ext.
  intros r. now destruct (f_id r =? fid).
Qed.

Lemma sizes_update_folder_id (d : database) (folder : option Z) (fid : Z) :
  List.map f_file_size (files (update_folder_id d folder fid))
  = List.map f_file_size (files d).
Proof.
  cbn [update_folder_id files]. rewrite map_map. apply map_ext.
  intros r. now destruct (f_id r =? fid).
Qed.

Lemma stats_ext (w w' : world) :
  List.map f_file_size (files (w_db w'))
    = List.map f_file_size (files (w_db w)) ->
  file_versions (w_db w') = file_versions (w_db w) ->
  fst (stats w') = fst (stats w).
Proof.
  intros E1 E2. unfold stats, sql_count. cbn [fst].
  rewrite E1, E2, <- (length_map f_file_size (files (w_db w'))), E1,
    length_map. reflexivity.
Qed.

Lemma handle_keeps_sizes (r : request) (w : world) :
  stores_bytes r = false ->
  List.map f_file_size (files (w_db (handle r w)))
  = List.map f_file_size (files (w_db w)).
Proof.
  intros Hr.
  destruct r as [name parentFolderId userId now | folderId
                | folderId userId | ups folderId userId now | id
                | id folderId userId | | id file userId now | id
                | id vn | id vn]; try discriminate Hr; cbn [handle];
    try reflexivity.
  - now rewrite (proj1 (createFolder_keeps_files _ _ _ _ _)).
  - unfold listContents. now repeat destruct (_ && _).
  - unfold deleteFolder. destruct folderId; [reflexivity|].
    destruct (get_folder _ _); [|reflexivity].
    destruct (negb _); [reflexivity|].
    now destruct (cascade_too_deep _ _).
  - unfold downloadFile. destruct id; [reflexivity|].
    destruct (get_file _ _); [|reflexivity]. now rewrite send_file_db.
  - unfold moveFile. destruct id; [reflexivity|].
    destruct folderId as [[|t]|]; try reflexivity;
      (destruct (get_file _ _); [|reflexivity]);
      (destruct (negb _); [reflexivity|]);
      (destruct (truthy _ && _); [reflexivity|]);
      cbn [snd with_db w_db]; apply sizes_update_folder_id.
  - unfold listVersions. destruct id; [reflexivity|].
    now destruct (get_file _ _).
  - unfold restoreVersion. destruct id; [reflexivity|].
    destruct vn; [reflexivity|]. destruct (get_file _ _); [|reflexivity].
    destruct (get_version _ _ _); [|reflexivity].
    cbn [snd with_db w_db]. apply sizes_update_current_version.
  - unfold downloadVersion. destruct id; [reflexivity|].
    destruct vn; [reflexivity|]. destruct (get_file _ _); [|reflexivity].
    destruct (get_version _ _ _); [|reflexivity]. now rewrite send_file_db.
Qed.

Lemma handle_keeps_versions (r : request) (w : world) :
  stores_bytes r = false ->
  file_versions (w_db (handle r w)) = file_versions (w_db w).
Proof.
  intros Hr.
  destruct r as [name parentFolderId userId now | folderId
                | folderId userId | ups folderId userId now | id
                | id folderId userId | | id file userId now | id
                | id vn | id vn]; try discriminate Hr; cbn [handle];
    try reflexivity.
  - apply (createFolder_keeps_files name parentFolderId userId now w).
  - unfold listContents. now repeat destruct (_ && _).
  - unfold deleteFolder. destruct folderId; [reflexivity|].
    destruct (get_folder _ _); [|reflexivity].
    destruct (negb _); [reflexivity|].
    now destruct (cascade_too_deep _ _).
  - unfold downloadFile. destruct id; [reflexivity|].
    destruct (get_file _ _); [|reflexivity]. now rewrite send_file_db.
  - unfold moveFile. destruct id; [reflexivity|].
    destruct folderId as [[|t]|]; try reflexivity;
      (destruct (get_file _ _); [|reflexivity]);
      (destruct (negb _); [reflexivity|]);
      now destruct (truthy _ && _).
  - unfold listVersions. destruct id; [reflexivity|].
    now destruct (get_file _ _).
  - unfold restoreVersion. destruct id; [reflexivity|].
    destruct vn; [reflexivity|]. destruct (get_file _ _); [|reflexivity].
    now destruct (get_version _ _ _).
  - unfold downloadVersion. destruct id; [reflexivity|].
    destruct vn; [reflexivity|]. destruct (get_file _ _); [|reflexivity].
    destruct (get_version _ _ _); [|reflexivity]. now rewrite send_file_db.
Qed.

(** X4. Only an upload or a new version changes the storage statistics:
    after any other request (creating or deleting a folder, moving a
    file, restoring a version, listing, downloading) the statistics route
    answers exactly as before.  In particular deleting a folder frees
    nothing. *)
Theorem stats_change_only_when_bytes_are_stored (r : request) (w : world) :
  stores_bytes r = false -> fst (stats (handle r w)) = fst (stats w).
Proof.
  intros Hr. apply stats_ext;
    [now apply handle_keeps_sizes | now apply handle_keeps_versions].
Qed.

Lemma stats_of_eq (w : world) :
  stats_of w
  = {| totalStorage :=
         total (List.map f_file_size (files (w_db w)))
         + total (List.map v_file_size (file_versions (w_db w)));
       filesTotal := total (List.map f_file_size (files (w_db w)));
       versionsTotal :=
         total (List.map v_file_size (file_versions (w_db w)));
       fileCount := Z.of_nat (List.length (files (w_db w))) |}.
Proof.
  unfold stats_of, stats. cbn [fst]. now rewrite !or_null_sql_sum.
Qed.

Lemma total_app (l1 l2 : list Z) : total (l1 ++ l2) = total l1 + total l2.
Proof.
  unfold total. induction l1 as [|x t IH]; cbn; [reflexivity|].
  rewrite IH. lia.
Qed.

(** X5. A new version that is accepted raises [versionsTotal] and
    [totalStorage] by exactly the size of the uploaded file, and leaves
    [filesTotal] and [fileCount] as they were. *)
Theorem addVersion_adds_its_size_to_stats
  (w w' : world) (id : parsed) (reqFile : multer_file) (userId : Z)
  (now : timestamp) (body : version_created) :
  addVersion id (Some reqFile) userId now w = (Ok 201 body, w') ->
  versionsTotal (stats_of w') = versionsTotal (stats_of w) + mf_size reqFile
  /\ totalStorage (stats_of w') = totalStorage (stats_of w) + mf_size reqFile
  /\ filesTotal (stats_of w') = filesTotal (stats_of w)
  /\ fileCount (stats_of w') = fileCount (stats_of w).
Proof.
  unfold addVersion. destruct id as [|fileId]; [discriminate|].
  destruct (get_file _ _); [|discriminate]. unfold insert_version.
  destruct (_ && _); [|discriminate]. intros [= _ <-].
  rewrite !stats_of_eq. cbn [totalStorage filesTotal versionsTotal fileCount].
  unfold with_db. cbn [w_db]. rewrite sizes_update_current_version.
  cbn [update_current_version files file_versions].
  rewrite length_map, map_app, total_app. cbn [List.map v_file_size total
    fold_right]. repeat split; lia.
Qed.

Lemma upload_loop_sizes (ups : list multer_file) folderId userId now :
  forall d acc d' res,
    upload_loop d ups folderId userId now acc = (d', Some res) ->
    List.map f_file_size (files d')
    = List.map f_file_size (files d) ++ List.map mf_size ups
    /\ file_versions d' = file_versions d.
Proof.
  induction ups as [|x t IH]; intros d acc d' res H.
  - injection H as <- _. now rewrite app_nil_r.
  - cbn [upload_loop] in H. unfold insert_file in H.
    destruct (user_exists d userId); [|discriminate].
    apply IH in H. cbn [files file_versions] in H. destruct H as [H1 H2].
    rewrite H1, map_app, <- app_assoc. now split.
Qed.

(** X6. An upload that is answered 201 raises [filesTotal] and
    [totalStorage] by the sizes of the uploaded files and [fileCount] by
    their number, and leaves [versionsTotal] as it was. *)
Theorem uploadFiles_adds_its_sizes_to_stats
  (w w' : world) (ups : list multer_file) (folderId : field) (userId : Z)
  (now : timestamp) (created : list uploaded) :
  uploadFiles ups folderId userId now w = (Ok 201 created, w') ->
  filesTotal (stats_of w')
    = filesTotal (stats_of w) + total (List.map mf_size ups)
  /\ totalStorage (stats_of w')
     = totalStorage (stats_of w) + total (List.map mf_size ups)
  /\ fileCount (stats_of w')
     = fileCount (stats_of w) + Z.of_nat (List.length ups)
  /\ versionsTotal (stats_of w') = versionsTotal (stats_of w).
Proof.
  unfold uploadFiles. destruct ups as [|x t]; [discriminate|].
  destruct (truthy folderId && _); [discriminate|].
  destruct (upload_loop _ _ _ _ _ _) as [d' [res|]] eqn:E; [|discriminate].
  intros [= _ <-]. apply upload_loop_sizes in E. destruct E as [E1 E2].
  rewrite !stats_of_eq. cbn [totalStorage filesTotal versionsTotal fileCount].
  unfold with_db. cbn [w_db].
  rewrite <- (length_map f_file_size (files d')), E1, E2, length_app,
    !length_map, total_app. repeat split; lia.
Qed.

(** ** What a download serves *)

Lemma send_file_fst_ext (filePath : jsstring) (missing : string)
  (headers : list jsstring) (body : download) (w w' : world) :
  w_disk w' = w_disk w -> w_cwd w' = w_cwd w ->
  fst (send_file filePath missing headers body w')
  = fst (send_file filePath missing headers body w).
Proof.
  intros E1 E2. unfold send_file. rewrite E1, E2.
  destruct (negb (w_disk w filePath)); [reflexivity|].
  destruct (negb (Path.startsWith _ _)); [reflexivity|].
  now destruct (negb (forallb header_ok headers)).
Qed.

Lemma downloadFile_fst_ext (id : parsed) (w w' : world) (vn fid : Z) :
  w_db w' = update_current_version (w_db w) vn fid ->
  w_disk w' = w_disk w -> w_cwd w' = w_cwd w ->
  fst (downloadFile id w') = fst (downloadFile id w).
Proof.
  intros Ed E1 E2. unfold downloadFile. destruct id as [|k]; [reflexivity|].
  rewrite Ed, get_file_update_current_version.
  destruct (get_file (w_db w) k) as [f|]; [|reflexivity].
  cbn [option_map]. destruct (f_id f =? fid);
    cbn [set_current_version f_file_path f_mime_type f_original_filename
         f_file_size]; now apply send_file_fst_ext.
Qed.

(** X7. Adding or restoring a version never changes what the file
    download serves: after such a request, [downloadFile] answers any id
    exactly as it did before, with the path, type, name and size the file
    row has carried since the first upload. *)
Theorem downloadFile_ignores_versions
  (r : request) (w : world) (id : parsed) :
  is_version_request r = true ->
  fst (downloadFile id (handle r w)) = fst (downloadFile id w).
Proof.
  intros Hr.
  destruct r as [name parentFolderId userId now | folderId
                | folderId userId | ups folderId userId now | k
                | k folderId userId | | k file userId now | k
                | k vn | k vn]; try discriminate Hr; cbn [handle].
  - unfold addVersion. destruct k as [|fileId]; [reflexivity|].
    destruct file; [|reflexivity].
    destruct (get_file (w_db w) fileId) as [f0|] eqn:Ef; [|reflexivity].
    unfold insert_version. destruct (_ && _); [|reflexivity].
    cbn [snd].
    unfold downloadFile. destruct id as [|j]; [reflexivity|].
    unfold with_db. cbn [w_db].
    rewrite get_file_update_current_version.
    change (get_file {| users := _ |} j) with (get_file (w_db w) j).
    destruct (get_file (w_db w) j) as [g|]; [|reflexivity].
    cbn [option_map]. destruct (f_id g =? fileId);
      cbn [set_current_version f_file_path f_mime_type f_original_filename
           f_file_size]; now apply send_file_fst_ext.
  - unfold restoreVersion. destruct k as [|fileId]; [reflexivity|].
    destruct vn as [|vn]; [reflexivity|].
    destruct (get_file _ _); [|reflexivity].
    destruct (get_version _ _ _); [|reflexivity]. cbn [snd].
    now apply (downloadFile_fst_ext id w _ vn fileId).
Qed.

(** ** Breadcrumbs *)

Lemma path_loop_acc (fuel : nat) (d : database) :
  forall c acc,
    path_loop fuel d c acc
    = option_map (fun p => p ++ acc) (path_loop fuel d c []).
Proof.
  induction fuel as [|k IH]; intros c acc.
  - destruct c as [c|]; cbn; [|reflexivity]. now destruct (c =? 0).
  - destruct c as [c|]; cbn [path_loop]; [|reflexivity].
    destruct (c =? 0); [reflexivity|].
    destruct (get_folder d c) as [folder|]; [|reflexivity].
    rewrite IH. rewrite (IH _ [_]).
    destruct (path_loop k d (fo_parent_folder_id folder) []) as [p|];
      [|reflexivity].
    cbn [option_map]. now rewrite <- app_assoc.
Qed.

Lemma path_loop_more_fuel (fuel : nat) (d : database) :
  forall c acc p,
    path_loop fuel d c acc = Some p -> path_loop (S fuel) d c acc = Some p.
Proof.
  induction fuel as [|k IH]; intros c acc p H.
  - destruct c as [c|]; cbn in *; [|exact H].
    destruct (c =? 0); [exact H|discriminate].
  - destruct c as [c|]; [|exact H].
    cbn [path_loop] in H. change (path_loop (S (S k)) d (Some c) acc)
      with (if c =? 0 then Some acc
            else match get_folder d c with
                 | None => Some acc
                 | Some folder =>
                     path_loop (S k) d (fo_parent_folder_id folder)
                       ({| pe_id := fo_id folder; pe_name := fo_name folder |}
                        :: acc)
                 end).
    destruct (c =? 0); [exact H|].
    destruct (get_folder d c); [|exact H]. now apply IH.
Qed.

(** With parents older than their children and ids positive, the loop
    ends within as many turns as the id it starts from. *)
Lemma path_loop_ends (d : database) :
  folder_ids_positive d -> folder_parents_older d -> folder_parents_exist d ->
  forall fuel c acc,
    (Z.to_nat c < fuel)%nat -> path_loop fuel d (Some c) acc <> None.
Proof.
  intros [Hpos _] Hold Hex. induction fuel as [|k IH]; intros c acc Hc;
    [lia|].
  cbn [path_loop]. destruct (c =? 0); [discriminate|].
  destruct (get_folder d c) as [folder|] eqn:Eg; [|discriminate].
  destruct (get_folder_id _ _ _ Eg) as [Eid Hin].
  destruct (fo_parent_folder_id folder) as [p|] eqn:Ep;
    [|destruct k; discriminate].
  apply IH. specialize (Hold folder p Hin Ep).
  destruct (Hex folder p Hin Ep) as (r' & Hr' & E').
  specialize (Hpos r' Hr'). lia.
Qed.

(** X8. In every world the server reaches, the breadcrumb loop ends
    (any fuel above the id suffices, and the answer does not depend on
    it).  For an id that names no folder the route answers 200 with an
    empty path, not 404.  For a folder it answers the breadcrumbs of the
    parent followed by the folder itself, and just the folder when it has
    no parent. *)
Theorem folderPath_follows_parents (w : world) (id : Z) (fuel : nat) :
  reachable w -> (Z.to_nat id < fuel)%nat ->
  exists path,
    folderPath fuel (Num id) w = Some (Ok 200 path, w)
    /\ match get_folder (w_db w) id with
       | None => path = []
       | Some folder =>
           exists above,
             path = above ++ [{| pe_id := id; pe_name := fo_name folder |}]
             /\ match fo_parent_folder_id folder with
                | None => above = []
                | Some p =>
                    get_folder (w_db w) p <> None
                    /\ folderPath fuel (Num p) w = Some (Ok 200 above, w)
                end
       end.
Proof.
  intros Hr Hfuel. destruct (reachable_ok w Hr) as [Hok Hh].
  pose proof (path_loop_ends (w_db w) (ok_folder_ids _ Hok)
                (hi_parents_older _ Hh) (ok_folder_parents _ Hok)) as Hends.
  unfold folderPath at 1.
  destruct fuel as [|k]; [lia|]. cbn [path_loop].
  destruct (get_folder (w_db w) id) as [folder|] eqn:Eg.
  - destruct (get_folder_id _ _ _ Eg) as [Eid Hin].
    destruct (ok_folder_ids _ Hok) as [Hpos _]. specialize (Hpos _ Hin).
    destruct (id =? 0) eqn:E0; [apply Z.eqb_eq in E0; lia|].
    rewrite Eid. destruct (fo_parent_folder_id folder) as [p|] eqn:Ep.
    + pose proof (hi_parents_older _ Hh folder p Hin Ep) as Hlt.
      destruct (ok_folder_parents _ Hok folder p Hin Ep) as (r' & Hr' & E').
      rewrite path_loop_acc.
      destruct (path_loop k (w_db w) (Some p) []) as [above|] eqn:El.
      * cbn [option_map]. eexists. split; [reflexivity|].
        exists above. split; [reflexivity|]. split.
        -- apply get_folder_Some_iff. now exists r'.
        -- unfold folderPath.
           now rewrite (path_loop_more_fuel _ _ _ _ _ El).
      * exfalso. revert El. apply Hends.
        pose proof (proj1 (ok_folder_ids _ Hok) r' Hr'). lia.
    + destruct k; cbn [path_loop]; eexists; (split; [reflexivity|]);
        now exists [].
  - destruct (id =? 0); now eexists.
Qed.

(** ** Listings *)

Lemma join_users_mk {A B} (d : database) (key : A -> Z)
  (mk : A -> user_row -> B) (rows : list A) :
  join_users d key mk rows
  = List.map (fun ru => mk (fst ru) (snd ru))
             (join_users d key (fun r u => (r, u)) rows).
Proof.
  unfold join_users. induction rows as [|r t IH]; [reflexivity|].
  cbn [flat_map]. rewrite map_app, IH, map_map. reflexivity.
Qed.

(** A join with [users] on a key that is always a user's id yields one
    result per row, in the order of the rows. *)
Lemma join_users_rows {A B C} (d : database) (key : A -> Z)
  (mk : A -> user_row -> B) (proj : B -> C) (col : A -> C)
  (rows : list A) :
  unique_user_ids d ->
  (forall r, In r rows -> user_exists d (key r) = true) ->
  (forall r u, proj (mk r u) = col r) ->
  List.map proj (join_users d key mk rows) = List.map col rows.
Proof.
  intros Hu Hex Hproj. rewrite join_users_mk, map_map.
  rewrite (map_ext _ (fun ru => col (fst ru))) by (intros; apply Hproj).
  rewrite <- (map_map fst col). now rewrite join_users_fst.
Qed.

Lemma Sorted_impl {A} (R R' : A -> A -> Prop) (l : list A) :
  (forall a b, R a b -> R' a b) -> Sorted R l -> Sorted R' l.
Proof.
  intros H. induction 1 as [|x t Ht IH Hx]; constructor; [exact IH|].
  destruct Hx; constructor; auto.
Qed.

Lemma str_leb_total (a b : jsstring) :
  str_leb a b = true \/ str_leb b a = true.
Proof.
  revert b. induction a as [|x a IH]; intros b; [now left|].
  destruct b as [|y b]; [now right|]. cbn [str_leb].
  destruct (N.ltb_spec x y) as [Hxy|Hxy]; [now left|].
  destruct (N.ltb_spec y x) as [Hyx|Hyx]; [now right|]. apply IH.
Qed.

(** X9. In every world the server reaches, listing the root or a folder
    that exists answers 200 with the direct children only, each once: the
    subfolders are exactly the folders whose parent is the folder asked
    for, in the order of the UTF-8 bytes of their names, which is how
    SQLite keeps and orders them, and the files exactly those whose folder
    reference is that folder, newest upload first.  A folder id that is
    not a number is not refused: it lists the root. *)
Theorem listContents_lists_direct_children (w : world) (folderId : field) :
  reachable w -> folder_given_exists (w_db w) folderId ->
  exists subfolders contained,
    listContents folderId w = (Ok 200 (subfolders, contained), w)
    /\ Permutation
         (List.map (fun e => (fi_id e, utf8 (fi_name e))) subfolders)
         (List.map (fun r => (fo_id r, utf8 (fo_name r)))
            (filter (fun r => null_safe_eqb (fo_parent_folder_id r)
                                            (sql_bind folderId))
                    (folders (w_db w))))
    /\ Sorted (fun a b => str_leb (utf8 (fi_name a)) (utf8 (fi_name b))
                          = true) subfolders
    /\ Permutation
         (List.map (fun e => (li_id e, li_currentVersion e)) contained)
         (List.map (fun f => (f_id f, f_current_version f))
            (filter (fun f => null_safe_eqb (f_folder_id f)
                                            (sql_bind folderId))
                    (files (w_db w))))
    /\ Sorted (fun a b => li_uploadedAt b <= li_uploadedAt a) contained
    /\ listContents (Some NaN) w = listContents None w.
Proof.
  intros Hr Hfold. destruct (reachable_ok w Hr) as [Hok Hh].
  destruct (ok_schema _ Hok) as [Hu _ _].
  destruct (hi_creators _ Hh) as [Hcf Hcu].
  unfold listContents at 1. rewrite (folder_check_passes _ _ Hfold).
  assert (E : truthy folderId && match folderId with
                                 | Some p => isNaN p
                                 | None => false
                                 end = false)
    by (destruct folderId as [[|z]|]; cbn; try reflexivity;
        apply andb_false_r).
  rewrite E. do 2 eexists. split; [reflexivity|].
  split; [|split; [|split; [|split]]].
  - rewrite <- order_by_perm.
    rewrite (join_users_rows _ _ _ _ (fun r => (fo_id r, utf8 (fo_name r))));
      [reflexivity|exact Hu| |reflexivity].
    intros r Hin. apply filter_In in Hin. now apply Hcf.
  - apply (order_by_sorted
             (fun a b => text_leb (fi_name a) (fi_name b))).
    intros x y. apply str_leb_total.
  - rewrite <- order_by_perm.
    rewrite (join_users_rows _ _ _ _ (fun f => (f_id f, f_current_version f)));
      [reflexivity|exact Hu| |reflexivity].
    intros r Hin. apply filter_In in Hin. now apply Hcu.
  - eapply Sorted_impl; [|apply order_by_sorted].
    + intros a b H. cbv beta in H. now apply Z.leb_le.
    + intros x y. cbv beta. rewrite !Z.leb_le. lia.
  - reflexivity.
Qed.

(** ** The paged file list *)

Lemma chunks_concat {A} (n : nat) :
  forall m (l : list A),
    (List.length l <= m * n)%nat ->
    List.concat (List.map (fun i => firstn n (skipn (i * n) l)) (seq 0 m)) = l.
Proof.
  induction m as [|m IH]; intros l Hlen.
  - destruct l; [reflexivity|cbn in Hlen; lia].
  - cbn [seq List.map List.concat]. rewrite <- seq_shift, map_map.
    cbn [Nat.mul skipn].
    rewrite (map_ext _ (fun i => firstn n (skipn (i * n) (skipn n l)))).
    + rewrite IH; [apply firstn_skipn|].
      rewrite length_skipn. lia.
    + intros i. rewrite skipn_skipn. f_equal. f_equal. lia.
Qed.

Lemma zseq_as_seq (a : Z) (n : nat) :
  zseq a n = List.map (fun i => a + Z.of_nat i) (seq 0 n).
Proof.
  revert a. induction n as [|n IH]; intros a; [reflexivity|].
  cbn [zseq seq List.map]. rewrite Z.add_0_r. f_equal.
  rewrite IH, <- seq_shift, map_map. apply map_ext. intros i. lia.
Qed.

Lemma ceil_div_bounds (a b : Z) :
  0 <= a -> 0 < b ->
  0 <= ceil_div a b /\ a <= ceil_div a b * b /\ (ceil_div a b - 1) * b < a.
Proof.
  intros Ha Hb. unfold ceil_div.
  pose proof (Z.div_mod (- a) b ltac:(lia)) as E.
  pose proof (Z.mod_pos_bound (- a) b Hb) as Hm. nia.
Qed.

Lemma select_files_all (d : database) :
  unique_user_ids d ->
  (forall f, In f (files d) -> user_exists d (f_uploaded_by f) = true) ->
  Permutation (List.map fe_id
                 (List.map file_entry_of (select_files d (fun _ => true))))
              (List.map f_id (files d)).
Proof.
  intros Hu Hex. unfold select_files. rewrite map_map.
  rewrite <- order_by_perm.
  rewrite (join_users_rows _ _ _ (fun fu => fe_id (file_entry_of fu)) f_id);
    try assumption.
  - assert (E : forall l : list file_row, filter (fun _ => true) l = l)
      by (induction l; cbn; congruence).
    now rewrite E.
  - intros r Hin. apply filter_In in Hin. now apply Hex.
  - reflexivity.
Qed.

Lemma select_files_sorted (d : database) (keep : file_row -> bool) :
  Sorted (fun a b => fe_uploadedAt b <= fe_uploadedAt a)
    (List.map file_entry_of (select_files d keep)).
Proof.
  unfold select_files.
  eapply (Sorted_map _ _ file_entry_of); [|apply order_by_sorted].
  - intros a b H. cbv beta in H. apply Z.leb_le in H. exact H.
  - intros x y. cbv beta. rewrite !Z.leb_le. lia.
Qed.

Lemma sql_integer_small (z : Z) :
  - 2 ^ 53 < z < 2 ^ 53 -> sql_integer z = true.
Proof.
  intros H. unfold sql_integer. apply andb_true_iff.
  split; apply Z.ltb_lt; change (2 ^ 63) with (2 ^ 53 * 1024); lia.
Qed.

(** What page [k] answers while the offset is a number JavaScript holds
    exactly. *)
Lemma listFiles_page (w : world) (limit k : Z) :
  0 < limit < 2 ^ 53 -> 1 <= k -> (k - 1) * limit < 2 ^ 53 ->
  listFiles (Num k) (Num limit) w
  = (Ok 200
       (List.map file_entry_of
          (firstn (Z.to_nat limit)
             (skipn (Z.to_nat (k - 1) * Z.to_nat limit)
                    (select_files (w_db w) (fun _ => true)))),
        {| pg_page := k; pg_limit := limit;
           pg_total := Z.of_nat (List.length (files (w_db w)));
           pg_totalPages :=
             ceil_div (Z.of_nat (List.length (files (w_db w)))) limit |}),
     w).
Proof.
  intros Hl Hk Ho. unfold listFiles, sql_limit, or_parsed, sql_count.
  rewrite !or_num_nonzero by lia.
  rewrite (sql_integer_small limit), (sql_integer_small ((k - 1) * limit))
    by nia.
  cbn [andb]. destruct (limit <? 0) eqn:E; [apply Z.ltb_lt in E; lia|].
  do 5 f_equal. rewrite Z2Nat.inj_mul by lia. reflexivity.
Qed.

Lemma page_entries_slice (w : world) (limit k : Z) :
  0 < limit < 2 ^ 53 -> 1 <= k -> (k - 1) * limit < 2 ^ 53 ->
  page_entries w limit k
  = List.map file_entry_of
      (firstn (Z.to_nat limit)
         (skipn (Z.to_nat (k - 1) * Z.to_nat limit)
                (select_files (w_db w) (fun _ => true)))).
Proof.
  intros Hl Hk Ho. unfold page_entries.
  now rewrite (listFiles_page w limit k Hl Hk Ho).
Qed.

(** X10. In every world the server reaches, for every positive page size
    and while the numbers involved are ones JavaScript holds exactly
    (below 2^53), page [k] of the file list answers 200 with at most
    [limit] entries and reports [page], [limit], [total] and
    [totalPages], the number of files divided by the page size and
    rounded up; a page after [totalPages] is empty.  The pages from 1 to
    [totalPages], put one after the other, are the whole list: every
    file occurs exactly once in it, newest upload first. *)
Theorem listFiles_pages_partition (w : world) (limit : Z) :
  reachable w -> 0 < limit < 2 ^ 53 ->
  Z.of_nat (List.length (files (w_db w))) < 2 ^ 53 ->
  let lastPage := ceil_div (Z.of_nat (List.length (files (w_db w)))) limit in
  let whole :=
    List.concat
      (List.map (page_entries w limit) (zseq 1 (Z.to_nat lastPage))) in
  (forall k, 1 <= k -> (k - 1) * limit < 2 ^ 53 ->
     exists entries,
       listFiles (Num k) (Num limit) w
       = (Ok 200 (entries,
                  {| pg_page := k; pg_limit := limit;
                     pg_total := Z.of_nat (List.length (files (w_db w)));
                     pg_totalPages := lastPage |}), w)
       /\ entries = page_entries w limit k
       /\ Z.of_nat (List.length entries) <= limit
       /\ (lastPage < k -> entries = []))
  /\ Permutation (List.map fe_id whole) (List.map f_id (files (w_db w)))
  /\ NoDup (List.map fe_id whole)
  /\ Sorted (fun a b => fe_uploadedAt b <= fe_uploadedAt a) whole.
Proof.
  intros Hr Hl Htot lastPage whole.
  destruct (reachable_ok w Hr) as [Hok Hh].
  destruct (ok_schema _ Hok) as [Hu _ _].
  destruct (hi_creators _ Hh) as [_ Hcu].
  destruct (hi_file_ids _ Hh) as [Hnd _].
  set (sel := select_files (w_db w) (fun _ => true)).
  pose proof (select_files_all (w_db w) Hu Hcu) as Hperm. fold sel in Hperm.
  assert (Hlen : List.length sel = List.length (files (w_db w))).
  { apply Permutation_length in Hperm. now rewrite !length_map in Hperm. }
  destruct (ceil_div_bounds (Z.of_nat (List.length (files (w_db w)))) limit)
    as (HT0 & HT1 & HT2); [lia|lia|]. fold lastPage in HT0, HT1, HT2.
  assert (Hwhole : whole = List.map file_entry_of sel).
  { unfold whole. rewrite zseq_as_seq, map_map.
    rewrite (map_ext_in _ (fun i => List.map file_entry_of
               (firstn (Z.to_nat limit)
                  (skipn (i * Z.to_nat limit) sel)))).
    - rewrite <- (map_map (fun i => firstn (Z.to_nat limit)
                                      (skipn (i * Z.to_nat limit) sel))
                          (List.map file_entry_of)).
      rewrite <- concat_map, (chunks_concat (Z.to_nat limit) _ sel);
        [reflexivity|].
      rewrite Hlen. nia.
    - intros i Hi. apply in_seq in Hi.
      rewrite page_entries_slice; [|lia|lia|nia].
      do 4 f_equal. lia. }
  split; [|split; [|split]].
  - intros k Hk Ho. eexists. split; [|split; [|split]].
    + rewrite (listFiles_page w limit k Hl Hk Ho). reflexivity.
    + now rewrite page_entries_slice.
    + rewrite length_map.
      pose proof (firstn_le_length (Z.to_nat limit)
        (skipn (Z.to_nat (k - 1) * Z.to_nat limit)
               (select_files (w_db w) (fun _ => true)))). lia.
    + intros Hlast. fold sel.
      rewrite skipn_all2; [now rewrite firstn_nil|].
      rewrite Hlen. nia.
  - now rewrite Hwhole.
  - rewrite Hwhole. eapply Permutation_NoDup; [symmetry; exact Hperm|exact Hnd].
  - rewrite Hwhole. apply select_files_sorted.
Qed.

(** ** Search *)

Lemma like_percent (p s : jsstring) :
  like (percent :: p) s
  = like p s || match s with
                | [] => false
                | _ :: s' => like (percent :: p) s'
                end.
Proof. destruct s; reflexivity. Qed.

Lemma like_percent_skip (p a s : jsstring) :
  like p s = true -> like (percent :: p) (a ++ s) = true.
Proof.
  intros H. induction a as [|x a IH].
  - rewrite like_percent. cbn [app]. now rewrite H.
  - rewrite like_percent. cbn [app]. rewrite IH. apply orb_true_r.
Qed.

Lemma like_percent_inv (p s : jsstring) :
  like (percent :: p) s = true ->
  exists a b, s = a ++ b /\ like p b = true.
Proof.
  induction s as [|x s IH]; rewrite like_percent; intros H.
  - rewrite orb_false_r in H. now exists [], [].
  - apply orb_true_iff in H. destruct H as [H|H].
    + now exists [], (x :: s).
    + destruct (IH H) as (a & b & -> & Hb). now exists (x :: a), b.
Qed.

Lemma like_anything (s : jsstring) : like [percent] s = true.
Proof.
  rewrite <- (app_nil_r s). now apply like_percent_skip.
Qed.

Lemma lower_percent (c : N) : lower c = lower percent -> c = percent.
Proof.
  unfold lower, percent. cbn.
  destruct ((65 <=? c) && (c <=? 90))%N eqn:E; [|auto].
  apply andb_true_iff in E. destruct E as [E1 E2].
  apply N.leb_le in E1. apply N.leb_le in E2. lia.
Qed.

(** A pattern matches every text that equals it up to ASCII case,
    wildcards or not. *)
Lemma like_same (p m rest s : jsstring) :
  List.map lower m = List.map lower p ->
  like rest s = true -> like (p ++ rest) (m ++ s) = true.
Proof.
  revert m. induction p as [|c p IH]; intros m Hm Hs.
  - destruct m; [exact Hs|discriminate].
  - destruct m as [|x m]; [discriminate|]. cbn [List.map] in Hm.
    injection Hm as Hx Hm. specialize (IH m Hm Hs).
    destruct (c =? percent)%N eqn:E.
    + apply N.eqb_eq in E. subst c. cbn [app].
      change (x :: m ++ s) with ([x] ++ (m ++ s)).
      now apply like_percent_skip.
    + cbn [app like]. rewrite E, IH, Hx, N.eqb_refl, orb_true_r.
      reflexivity.
Qed.

(** Without wildcards a pattern matches nothing else. *)
Lemma like_literal (p rest t : jsstring) :
  ~ In percent p -> ~ In FileUtils.underscore p ->
  like (p ++ rest) t = true ->
  exists m s, t = m ++ s /\ List.map lower m = List.map lower p
              /\ like rest s = true.
Proof.
  revert t. induction p as [|c p IH]; intros t Hp Hu H.
  - now exists [], t.
  - cbn [app like] in H.
    destruct (c =? percent)%N eqn:E1;
      [apply N.eqb_eq in E1; subst; exfalso; apply Hp; now left|].
    destruct t as [|x t]; [discriminate|].
    apply andb_true_iff in H. destruct H as [Hc H].
    destruct (c =? FileUtils.underscore)%N eqn:E2;
      [apply N.eqb_eq in E2; subst; exfalso; apply Hu; now left|].
    cbn [orb] in Hc. apply N.eqb_eq in Hc.
    destruct (IH t) as (m & s & -> & Hm & Hs); trivial.
    + intros F. apply Hp. now right.
    + intros F. apply Hu. now right.
    + exists (x :: m), s. cbn [List.map app]. now rewrite Hm, Hc.
Qed.

Lemma like_contains (q name : jsstring) :
  contains_nocase q name ->
  like ([percent] ++ q ++ [percent]) name = true.
Proof.
  intros (a & m & b & -> & Hm). cbn [app].
  apply like_percent_skip. apply like_same; [exact Hm|apply like_anything].
Qed.

Lemma like_contains_inv (q name : jsstring) :
  ~ In percent q -> ~ In FileUtils.underscore q ->
  like ([percent] ++ q ++ [percent]) name = true ->
  contains_nocase q name.
Proof.
  intros Hp Hu H. cbn [app] in H.
  destruct (like_percent_inv _ _ H) as (a & t & -> & Ht).
  destruct (like_literal _ _ _ Hp Hu Ht) as (m & b & -> & Hm & _).
  now exists a, m, b.
Qed.

Lemma select_files_ids (d : database) (keep : file_row -> bool) :
  unique_user_ids d ->
  (forall f, In f (files d) -> user_exists d (f_uploaded_by f) = true) ->
  Permutation
    (List.map (fun e => (fe_id e, fe_filename e))
       (List.map file_entry_of (select_files d keep)))
    (List.map (fun f => (f_id f, f_original_filename f))
       (filter keep (files d))).
Proof.
  intros Hu Hex. unfold select_files. rewrite map_map.
  rewrite <- order_by_perm.
  rewrite (join_users_rows _ _ _
             (fun fu => (fe_id (file_entry_of fu),
                         fe_filename (file_entry_of fu)))
             (fun f => (f_id f, f_original_filename f)));
    try assumption; [reflexivity| |reflexivity].
  intros r Hin. apply filter_In in Hin. now apply Hex.
Qed.

Lemma same_id_same_row {A} (key : A -> Z) (l : list A) (a b : A) :
  NoDup (List.map key l) -> In a l -> In b l -> key a = key b -> a = b.
Proof.
  induction l as [|x t IH]; intros Hnd Ha Hb E; [destruct Ha|].
  cbn [List.map] in Hnd. inversion Hnd as [|? ? Hx Ht]; subst.
  destruct Ha as [->|Ha], Hb as [->|Hb]; trivial.
  - exfalso. apply Hx. rewrite E. now apply in_map.
  - exfalso. apply Hx. rewrite <- E. now apply in_map.
  - now apply IH.
Qed.

Lemma list_ind2 {A} (P : list A -> Prop) :
  P [] -> (forall a, P [a]) ->
  (forall a b l, P l -> P (b :: l) -> P (a :: b :: l)) ->
  forall l, P l.
Proof.
  intros H0 H1 H2 l.
  assert (H : P l /\ forall a, P (a :: l)).
  { induction l as [|b l [IH1 IH2]]; [split; [exact H0|exact H1]|].
    split; [apply IH2|]. intros a. apply H2; [exact IH1|apply IH2]. }
  apply H.
Qed.

(** A code unit that is no surrogate and no NUL is its own code point,
    in front of a string and behind it. *)
Lemma codepoints_cons (c : N) (s : jsstring) :
  is_high c = false -> is_low c = false ->
  codepoints (c :: s) = c :: codepoints s.
Proof. intros H1 H2. cbn [codepoints]. now rewrite H1, H2. Qed.

Lemma codepoints_snoc (c : N) (s : jsstring) :
  is_high c = false -> is_low c = false ->
  codepoints (s ++ [c]) = codepoints s ++ [c].
Proof.
  intros H1 H2. induction s as [| a | a b s IH1 IH2] using list_ind2.
  - cbn [app codepoints]. now rewrite H1, H2.
  - cbn [app codepoints]. rewrite H1, H2.
    destruct (is_high a); [reflexivity|]. now destruct (is_low a).
  - change ((a :: b :: s) ++ [c]) with (a :: b :: (s ++ [c])).
    change ((b :: s) ++ [c]) with (b :: (s ++ [c])) in IH2.
    cbn [codepoints] in *.
    destruct (is_high a).
    + destruct (is_low b); [now rewrite IH1|]. now rewrite IH2.
    + destruct (is_low a); now rewrite IH2.
Qed.

Lemma codepoints_nul (s : jsstring) : In 0%N (codepoints s) -> In 0%N s.
Proof.
  induction s as [| a | a b s IH1 IH2] using list_ind2; intros H.
  - exact H.
  - cbn [codepoints] in H. destruct (is_high a); [|destruct (is_low a)];
      destruct H as [H|[]]; try discriminate. now left.
  - cbn [codepoints] in H, IH2.
    destruct (is_high a).
    + destruct (is_low b).
      * destruct H as [H|H]; [lia|]. right. right. now apply IH1.
      * destruct H as [H|H]; [discriminate|]. right. now apply IH2.
    + destruct (is_low a); (destruct H as [H|H];
        [try discriminate; now left|right; now apply IH2]).
Qed.

Lemma until_nul_free (s : list N) : ~ In 0%N s -> until_nul s = s.
Proof.
  induction s as [|c s IH]; intros H; [reflexivity|].
  cbn [until_nul]. destruct (N.eqb_spec c 0) as [->|_];
    [exfalso; apply H; now left|].
  rewrite IH; [reflexivity|]. intros F. apply H. now right.
Qed.

Lemma until_nul_app (s t : list N) :
  until_nul (s ++ t) = until_nul s
  \/ (~ In 0%N s /\ until_nul (s ++ t) = s ++ until_nul t).
Proof.
  induction s as [|c s IH]; [right; split; [intros []|reflexivity]|].
  cbn [app until_nul]. destruct (N.eqb_spec c 0) as [->|Hc]; [now left|].
  destruct IH as [->|[Hs ->]]; [now left|right]. split; [|reflexivity].
  intros [F|F]; [now apply Hc|now apply Hs].
Qed.

Lemma percent_plain : is_high percent = false /\ is_low percent = false.
Proof. split; reflexivity. Qed.

(** The pattern of a search, as [LIKE] reads it. *)
Lemma sql_chars_pattern (t : jsstring) :
  sql_chars ([percent] ++ t ++ [percent])
  = percent :: until_nul (codepoints t ++ [percent]).
Proof.
  destruct percent_plain as [H1 H2]. unfold sql_chars. cbn [app].
  rewrite codepoints_cons, codepoints_snoc by assumption.
  reflexivity.
Qed.

(** A name always matches the pattern made of itself. *)
Lemma sql_like_self (name : jsstring) :
  sql_like ([percent] ++ name ++ [percent]) name = true.
Proof.
  unfold sql_like. rewrite sql_chars_pattern. unfold sql_chars.
  destruct (until_nul_app (codepoints name) [percent]) as [->|[Hn ->]].
  - pose proof (like_same (until_nul (codepoints name))
                            (until_nul (codepoints name)) [] []
                            eq_refl eq_refl) as H.
    rewrite !app_nil_r in H. now apply (like_percent_skip _ []).
  - rewrite (until_nul_free _ Hn).
    pose proof (like_same (codepoints name) (codepoints name) [percent] []
                          eq_refl (like_anything [])) as H.
    rewrite app_nil_r in H. now apply (like_percent_skip _ []).
Qed.

(** What a search answers, in terms of the rows the pattern keeps. *)
Lemma searchFiles_rows (w : world) (q : jsstring) :
  reachable w -> trim q <> [] ->
  exists entries,
    searchFiles (Some q) w = (Ok 200 (entries, q), w)
    /\ NoDup (List.map fe_id entries)
    /\ Sorted (fun a b => fe_uploadedAt b <= fe_uploadedAt a) entries
    /\ (forall e, In e entries ->
          exists f, In f (files (w_db w)) /\ fe_id e = f_id f
                    /\ fe_filename e = f_original_filename f
                    /\ sql_like ([percent] ++ trim q ++ [percent])
                         (f_original_filename f) = true)
    /\ (forall f, In f (files (w_db w)) ->
          sql_like ([percent] ++ trim q ++ [percent]) (f_original_filename f)
          = true ->
          In (f_id f) (List.map fe_id entries)).
Proof.
  intros Hr Hq. destruct (reachable_ok w Hr) as [Hok Hh].
  destruct (ok_schema _ Hok) as [Hu _ _].
  destruct (hi_creators _ Hh) as [_ Hcu].
  destruct (hi_file_ids _ Hh) as [Hnd _].
  set (keep := fun f => sql_like ([percent] ++ trim q ++ [percent])
                          (f_original_filename f)).
  pose proof (select_files_ids (w_db w) keep Hu Hcu) as Hperm.
  exists (List.map file_entry_of (select_files (w_db w) keep)).
  split; [|split; [|split; [|split]]].
  - unfold searchFiles. destruct (trim q) eqn:E; [congruence|reflexivity].
  - apply (Permutation_map fst) in Hperm. rewrite !map_map in Hperm.
    cbn [fst] in Hperm. rewrite <- map_map in Hperm.
    eapply Permutation_NoDup; [symmetry; exact Hperm|].
    clear Hperm. revert Hnd. generalize (files (w_db w)).
    induction l as [|x t IH]; intros Hnd; [constructor|].
    cbn [List.map] in Hnd. inversion Hnd as [|? ? Hx Ht]; subst.
    cbn [filter]. destruct (keep x); [|now apply IH].
    cbn [List.map]. constructor; [|now apply IH].
    intros F. apply Hx. apply in_map_iff in F.
    destruct F as (y & Ey & Hy). apply filter_In in Hy.
    apply in_map_iff. exists y. now split.
  - apply select_files_sorted.
  - intros e He.
    assert (Hin : In (fe_id e, fe_filename e)
                     (List.map (fun f => (f_id f, f_original_filename f))
                               (filter keep (files (w_db w))))).
    { eapply Permutation_in; [exact Hperm|].
      apply (in_map (fun e => (fe_id e, fe_filename e))) in He. exact He. }
    apply in_map_iff in Hin. destruct Hin as (f & Ef & Hf).
    apply filter_In in Hf. destruct Hf as [Hf Hk].
    injection Ef as E1 E2. exists f. now repeat split.
  - intros f Hf Hk.
    assert (Hin : In (f_id f, f_original_filename f)
                     (List.map (fun e => (fe_id e, fe_filename e))
                        (List.map file_entry_of (select_files (w_db w) keep)))).
    { eapply Permutation_in; [symmetry; exact Hperm|].
      apply (in_map (fun f => (f_id f, f_original_filename f))).
      apply filter_In. now split. }
    apply in_map_iff in Hin. destruct Hin as (e & Ee & He).
    injection Ee as E1 E2. apply in_map_iff. now exists e.
Qed.

(** X11. In every world the server reaches, a search for a query that is
    not blank, holds no NUL and makes a pattern of at most 50000 bytes
    answers 200 with files listed once each, newest upload first, and
    echoes the query as sent.  What SQLite matches are the code points of
    the trimmed query against the code points of each stored name up to
    its first NUL: every file whose name contains the query in that
    sense, up to ASCII case, is listed; and when the trimmed query has no
    percent sign and no underscore, only those files are. *)
Theorem searchFiles_finds_names_containing_query (w : world) (q : jsstring) :
  reachable w -> trim q <> [] -> ~ In 0%N (trim q) ->
  Z.of_nat (List.length (utf8 (trim q))) + 2 <= 50000 ->
  exists entries,
    searchFiles (Some q) w = (Ok 200 (entries, q), w)
    /\ NoDup (List.map fe_id entries)
    /\ Sorted (fun a b => fe_uploadedAt b <= fe_uploadedAt a) entries
    /\ (forall f, In f (files (w_db w)) ->
          contains_nocase (codepoints (trim q))
                          (sql_chars (f_original_filename f)) ->
          In (f_id f) (List.map fe_id entries))
    /\ (~ In percent (codepoints (trim q)) ->
        ~ In FileUtils.underscore (codepoints (trim q)) ->
        forall e, In e entries ->
          exists f, In f (files (w_db w)) /\ fe_id e = f_id f
                    /\ contains_nocase (codepoints (trim q))
                                       (sql_chars (f_original_filename f))).
Proof.
  intros Hr Hq Hnul _.
  destruct (searchFiles_rows w q Hr Hq) as (entries & E & Hnd & Hs & Hin & Hout).
  assert (Ep : sql_chars ([percent] ++ trim q ++ [percent])
               = [percent] ++ codepoints (trim q) ++ [percent]).
  { rewrite sql_chars_pattern. cbn [app]. f_equal.
    apply until_nul_free. intros F. apply in_app_or in F.
    destruct F as [F|[F|[]]]; [|discriminate].
    now apply Hnul, codepoints_nul. }
  exists entries. repeat (split; [assumption|]). split.
  - intros f Hf Hc. apply Hout; [exact Hf|]. unfold sql_like. rewrite Ep.
    now apply like_contains.
  - intros Hp Hu e He. destruct (Hin e He) as (f & Hf & E1 & E2 & Hl).
    exists f. repeat (split; [assumption|]).
    unfold sql_like in Hl. rewrite Ep in Hl.
    now apply like_contains_inv.
Qed.

(** X12. In every world the server reaches, searching for the stored name
    of a file, when that name is not empty, finds the file, whatever
    characters the name holds; an underscore or a percent sign in the
    query can only add further files. *)
Theorem searchFiles_by_stored_name_finds_file (w : world) (f : file_row) :
  reachable w -> In f (files (w_db w)) -> f_original_filename f <> [] ->
  exists entries,
    searchFiles (Some (f_original_filename f)) w
    = (Ok 200 (entries, f_original_filename f), w)
    /\ exists e, In e entries /\ fe_id e = f_id f
                 /\ fe_filename e = f_original_filename f.
Proof.
  intros Hr Hf Hne. destruct (reachable_ok w Hr) as [Hok Hh].
  assert (Ht : trim (f_original_filename f) = f_original_filename f).
  { pose proof (hi_file_names _ Hh f Hf) as E.
    rewrite <- E at 1. unfold FileUtils.sanitizeFilename.
    rewrite trim_idempotent. exact E. }
  destruct (searchFiles_rows w (f_original_filename f) Hr)
    as (entries & E & Hnd & _ & Hin & Hout); [now rewrite Ht|].
  exists entries. split; [exact E|].
  assert (Hid : In (f_id f) (List.map fe_id entries)).
  { apply Hout; [exact Hf|]. rewrite Ht. apply sql_like_self. }
  apply in_map_iff in Hid. destruct Hid as (e & Ee & He).
  exists e. split; [exact He|]. split; [exact Ee|].
  destruct (Hin e He) as (g & Hg & E1 & E2 & _).
  rewrite E2. f_equal.
  apply (same_id_same_row f_id (files (w_db w)));
    [apply (hi_file_ids _ Hh)|exact Hg|exact Hf|congruence].
Qed.

(** ** Creating folders *)

Lemma trim_head (s t : jsstring) (c : N) :
  trim s = c :: t -> is_space c = false.
Proof.
  unfold trim. intros E. pose proof (trimStart_clean s) as H.
  destruct (trimEnd_prefix (trimStart s)) as [b Hb].
  rewrite E in Hb. rewrite Hb in H. exact H.
Qed.

Lemma trimStart_snoc (l : jsstring) (c : N) :
  is_space c = false -> trimStart (l ++ [c]) <> [].
Proof.
  intros Hc. induction l as [|x l IH]; cbn [app trimStart].
  - now rewrite Hc.
  - destruct (is_space x); [exact IH|discriminate].
Qed.

Lemma trim_keeps_head (c : N) (t : jsstring) :
  is_space c = false -> trim (c :: t) <> [].
Proof.
  intros Hc. unfold trim. cbn [trimStart]. rewrite Hc.
  unfold trimEnd. cbn [rev]. intros E.
  apply (f_equal (@rev N)) in E. rewrite rev_involutive in E.
  now apply (trimStart_snoc (rev t) c Hc).
Qed.

Lemma replace_dotdot_first (c : N) (t : jsstring) :
  exists t', replace_dotdot (c :: t) = underscore :: t'
             \/ replace_dotdot (c :: t) = c :: t'.
Proof.
  cbn [replace_dotdot]. destruct t as [|d u]; [now exists []; right|].
  destruct ((c =? dot) && (d =? dot))%N; eexists; [left|right]; reflexivity.
Qed.

(** A name with a visible first character stays non-empty when it is
    sanitized. *)
Lemma sanitizeFilename_keeps_head (c : N) (t : jsstring) :
  is_space c = false -> sanitizeFilename (c :: t) <> [].
Proof.
  intros Hc. unfold sanitizeFilename, replace_class. cbn [List.map].
  set (h := if is_separator c then underscore else c).
  assert (Hh : is_space h = false) by (unfold h; now destruct (is_separator c)).
  destruct (replace_dotdot_first h (List.map
              (fun c => if is_separator c then underscore else c) t))
    as [t' [E|E]]; rewrite E; cbn [List.map]; apply trim_keeps_head;
    [reflexivity|now destruct (is_reserved h)].
Qed.

(** X13. The folder route never answers [Invalid folder name]: a name
    that is not blank is never emptied by the sanitizer, so the second
    name check of the route cannot fail. *)
Theorem createFolder_never_answers_invalid_name
  (name : option jsstring) (parentFolderId : field) (userId : Z)
  (now : timestamp) (w : world) :
  fst (createFolder name parentFolderId userId now w)
  <> Err 400 "Invalid folder name".
Proof.
  unfold createFolder. destruct name as [name|]; [|discriminate].
  destruct (trim name) as [|c t] eqn:E; [discriminate|].
  pose proof (sanitizeFilename_keeps_head c t (trim_head _ _ _ E)) as Hne.
  destruct (sanitizeFilename (c :: t)) as [|c' t'] eqn:Es; [congruence|].
  destruct (_ && _); [discriminate|].
  destruct (find_sibling _ _ _); [discriminate|].
  destruct (insert_folder _ _ _ _ _) as [[d' id]|]; discriminate.
Qed.

Lemma filter_none {A} (p : A -> bool) (l : list A) :
  (forall x, In x l -> p x = false) -> filter p l = [].
Proof.
  induction l as [|x t IH]; intros H; [reflexivity|].
  cbn [filter]. rewrite (H x) by now left.
  apply IH. intros y Hy. apply H. now right.
Qed.

Lemma get_folder_In (d : database) (r : folder_row) :
  In r (folders d) -> get_folder d (fo_id r) <> None.
Proof.
  intros H. apply get_folder_Some_iff. now exists r.
Qed.

(** X14. In every world the server reaches, creating a folder with a name
    that is not blank, for an existing user, under an existing parent (or
    at the root) that has no folder of the sanitized name yet, answers 201
    with the sanitized name and an id above every folder id issued so far.
    Names are compared as SQLite stores them, in UTF-8.  The new folder is
    listed under its parent, with the UTF-8 form of the sanitized name,
    and its own listing is empty: since ids are never issued twice, no
    file or folder left behind by a deleted folder shows up in it. *)
Theorem createFolder_makes_an_empty_folder (w : world) (name : jsstring)
  (parentFolderId : field) (userId : Z) (now : timestamp) :
  reachable w ->
  user_exists (w_db w) userId = true ->
  trim name <> [] ->
  (forall p, sql_bind parentFolderId = Some p ->
             get_folder (w_db w) p <> None) ->
  find_sibling (w_db w) (sanitizeFilename (trim name))
               (sql_bind parentFolderId) = None ->
  exists id w',
    createFolder (Some name) parentFolderId userId now w
    = (Ok 201 {| fc_id := id; fc_name := sanitizeFilename (trim name);
                 fc_parentFolderId := parentFolderId |}, w')
    /\ seq_folders (w_db w) < id
    /\ (forall r, In r (folders (w_db w)) -> fo_id r < id)
    /\ listContents (Some (Num id)) w' = (Ok 200 ([], []), w')
    /\ exists subfolders contained,
         listContents parentFolderId w' = (Ok 200 (subfolders, contained), w')
         /\ In (id, utf8 (sanitizeFilename (trim name)))
               (List.map (fun i => (fi_id i, utf8 (fi_name i))) subfolders).
Proof.
  intros Hr Hu Hn Hp Hs. destruct (reachable_ok w Hr) as [Hok Hh].
  pose proof (reachable_handle
                (CreateFolder (Some name) parentFolderId userId now) w Hr)
    as Hr'.
  cbn [handle] in Hr'. revert Hr'. unfold createFolder.
  destruct (trim name) as [|c t] eqn:E; [congruence|].
  pose proof (sanitizeFilename_keeps_head c t (trim_head _ _ _ E)) as Hne.
  destruct (sanitizeFilename (c :: t)) as [|c' t'] eqn:Es; [congruence|].
  assert (Hchk : truthy parentFolderId
                 && match sql_bind parentFolderId with
                    | Some p => match get_folder (w_db w) p with
                                | None => true
                                | Some _ => false
                                end
                    | None => false
                    end = false).
  { destruct (sql_bind parentFolderId) as [p|] eqn:Eb;
      [|apply andb_false_r].
    specialize (Hp p eq_refl).
    destruct (get_folder (w_db w) p); [apply andb_false_r|congruence]. }
  rewrite Hchk, Hs. unfold insert_folder.
  assert (Hfk : folder_fk_ok (w_db w) (sql_bind parentFolderId) userId = true).
  { unfold folder_fk_ok. rewrite Hu, andb_true_r.
    destruct (sql_bind parentFolderId) as [p|] eqn:Eb; [|reflexivity].
    specialize (Hp p eq_refl). apply get_folder_Some_iff in Hp.
    destruct Hp as (r & Hr1 & Hr2). apply existsb_exists. exists r.
    split; [exact Hr1|now apply Z.eqb_eq]. }
  assert (Huq : folder_unique_ok (w_db w) (c' :: t')
                  (sql_bind parentFolderId) = true).
  { unfold folder_unique_ok.
    destruct (sql_bind parentFolderId) as [p|] eqn:Eb; [|reflexivity].
    apply negb_true_iff. apply not_true_iff_false. intros F.
    apply existsb_exists in F. destruct F as (r & Hr1 & Hr2).
    unfold find_sibling in Hs.
    now rewrite (find_none _ _ Hs r Hr1) in Hr2. }
  rewrite Hfk, Huq. cbn [andb].
  set (id := next_rowid (List.map fo_id (folders (w_db w)))
                        (seq_folders (w_db w))).
  set (row := {| fo_id := id; fo_name := c' :: t';
                 fo_parent_folder_id := sql_bind parentFolderId;
                 fo_created_by := userId; fo_created_at := now |}).
  set (d' := {| users := users (w_db w);
                folders := folders (w_db w) ++ [row];
                files := files (w_db w);
                file_versions := file_versions (w_db w);
                seq_folders := id; seq_files := seq_files (w_db w);
                seq_versions := seq_versions (w_db w) |}).
  cbn [snd]. intros Hr'.
  destruct (reachable_ok _ Hr') as [Hok' Hh']. cbn [with_db w_db] in Hok', Hh'.
  destruct (next_rowid_above (List.map fo_id (folders (w_db w)))
                             (seq_folders (w_db w))) as [Hseq Hids].
  fold id in Hseq, Hids.
  destruct (ok_folder_ids _ Hok) as [_ Hseq0].
  assert (Hrow : In row (folders d')) by (apply in_or_app; right; now left).
  exists id, (with_db w d'). split; [reflexivity|].
  split; [exact Hseq|]. split.
  { intros r Hin. apply Hids. now apply in_map. }
  split.
  - unfold listContents. cbn [with_db w_db truthy isNaN sql_bind].
    assert (Hid0 : (id =? 0) = false) by (apply Z.eqb_neq; lia).
    rewrite Hid0. cbn [negb andb].
    pose proof (get_folder_In d' row Hrow) as Hg. cbn [fo_id row] in Hg.
    destruct (get_folder d' id) as [got|]; [clear Hg|congruence].
    rewrite !filter_none; [reflexivity| |].
    + intros g Hg'. apply not_true_iff_false. intros F.
      apply null_safe_eqb_eq in F.
      pose proof (hi_file_folders _ Hh g id Hg' F). lia.
    + intros r Hin. apply not_true_iff_false. intros F.
      apply null_safe_eqb_eq in F.
      pose proof (hi_parents_older _ Hh' r id Hin F) as H1.
      destruct (hi_folder_ids _ Hh') as [_ H2]. specialize (H2 r Hin).
      cbn [seq_folders d'] in H2. lia.
  - unfold listContents. cbn [with_db w_db].
    assert (Hnan : truthy parentFolderId
                   && match parentFolderId with
                      | Some p => isNaN p
                      | None => false
                      end = false).
    { destruct parentFolderId as [[|z]|]; cbn; trivial. apply andb_false_r. }
    assert (Hchk' : truthy parentFolderId
                    && match sql_bind parentFolderId with
                       | Some p => match get_folder d' p with
                                   | None => true
                                   | Some _ => false
                                   end
                       | None => false
                       end = false).
    { destruct (sql_bind parentFolderId) as [p|] eqn:Eb;
        [|apply andb_false_r].
      specialize (Hp p eq_refl). apply get_folder_Some_iff in Hp.
      destruct Hp as (r & Hr1 & Hr2).
      assert (Hg : get_folder d' p <> None).
      { apply get_folder_Some_iff. exists r. split; [|exact Hr2].
        apply in_or_app. now left. }
      destruct (get_folder d' p); [apply andb_false_r|congruence]. }
    rewrite Hnan, Hchk'. eexists. eexists. split; [reflexivity|].
    eapply Permutation_in; [apply Permutation_map, order_by_perm|].
    destruct (ok_schema _ Hok') as [Hu' _ _].
    destruct (hi_creators _ Hh') as [Hcf _].
    rewrite (join_users_rows d' fo_created_by _
               (fun i => (fi_id i, utf8 (fi_name i)))
               (fun r => (fo_id r, utf8 (fo_name r))));
      [|exact Hu'| |reflexivity].
    + apply (in_map (fun r => (fo_id r, utf8 (fo_name r))) _ row).
      apply filter_In. split; [exact Hrow|]. now apply null_safe_eqb_eq.
    + intros r Hin. apply filter_In in Hin. now apply Hcf.
Qed.

(** X15. A parent id sent as the text [0] is neither taken for the root
    nor looked up: in every world the server reaches, for every name that
    is not blank, the insert breaks the foreign key of the parent column
    and the route answers 500, leaving the catalog as it was. *)
Theorem createFolder_parent_zero_fails (w : world) (name : jsstring)
  (userId : Z) (now : timestamp) :
  reachable w -> trim name <> [] ->
  createFolder (Some name) (Some (Num 0)) userId now w
  = (Err 500 "Internal server error", w).
Proof.
  intros Hr Hn. destruct (reachable_ok w Hr) as [Hok Hh].
  destruct (ok_folder_ids _ Hok) as [Hpos _].
  unfold createFolder.
  destruct (trim name) as [|c t] eqn:E; [congruence|].
  pose proof (sanitizeFilename_keeps_head c t (trim_head _ _ _ E)) as Hne.
  destruct (sanitizeFilename (c :: t)) as [|c' t'] eqn:Es; [congruence|].
  cbn [truthy sql_bind Z.eqb negb andb].
  assert (Hs : find_sibling (w_db w) (c' :: t') (Some 0) = None).
  { unfold find_sibling. destruct (find _ _) as [r|] eqn:F; [|reflexivity].
    apply find_some in F. destruct F as [Hin F].
    apply andb_true_iff in F. destruct F as [_ F].
    apply null_safe_eqb_eq in F.
    destruct (ok_folder_parents _ Hok r 0 Hin F) as (p & Hp & E0).
    specialize (Hpos p Hp). lia. }
  rewrite Hs. unfold insert_folder, folder_fk_ok.
  assert (Hz : existsb (fun r => fo_id r =? 0) (folders (w_db w)) = false).
  { apply not_true_iff_false. intros F. apply existsb_exists in F.
    destruct F as (r & Hin & F). apply Z.eqb_eq in F.
    specialize (Hpos r Hin). lia. }
  rewrite Hz. reflexivity.
Qed.

(** ** Moving files and deleting folders, seen through the listings *)

(** The ids of the files a listing that succeeds shows are the ids of the
    files whose folder column is the one asked for. *)
Lemma listContents_files (w : world) (folderId : field)
  (subs : list folder_item) (cont : list file_item) :
  reachable w ->
  listContents folderId w = (Ok 200 (subs, cont), w) ->
  Permutation (List.map li_id cont)
    (List.map f_id
       (filter (fun f => null_safe_eqb (f_folder_id f) (sql_bind folderId))
               (files (w_db w))))
  /\ (forall t, sql_bind folderId = Some t -> t <> 0 ->
        get_folder (w_db w) t <> None).
Proof.
  intros Hr. destruct (reachable_ok w Hr) as [Hok Hh].
  destruct (ok_schema _ Hok) as [Hu _ _].
  destruct (hi_creators _ Hh) as [_ Hcu].
  unfold listContents.
  destruct (truthy folderId && match folderId with
                               | Some p => isNaN p
                               | None => false
                               end); [discriminate|].
  destruct (truthy folderId && _) eqn:Echk; [discriminate|].
  intros E. injection E as _ Ec. subst cont. split.
  - rewrite <- order_by_perm.
    rewrite (join_users_rows _ _ _ li_id f_id); try assumption;
      [reflexivity| |reflexivity].
    intros r Hin. apply filter_In in Hin. now apply Hcu.
  - intros t Et Ht. destruct folderId as [[|z]|]; try discriminate.
    cbn [sql_bind] in Et. injection Et as ->.
    cbn [truthy sql_bind] in Echk.
    apply Z.eqb_neq in Ht. rewrite Ht in Echk. cbn [negb andb] in Echk.
    destruct (get_folder (w_db w) t); [discriminate|discriminate].
Qed.

(** X16. In every world the server reaches, the uploader of a file who
    moves it to an existing folder, or to the root, gets 200; afterwards
    the file is listed in the target and in no other listing, and the
    other files are where they were. *)
Theorem moveFile_relists_the_file (w : world) (fid : Z) (f : file_row)
  (folderId : field) :
  reachable w ->
  get_file (w_db w) fid = Some f ->
  folderId <> Some NaN ->
  (forall t, sql_bind folderId = Some t -> get_folder (w_db w) t <> None) ->
  exists w',
    moveFile (Num fid) folderId (f_uploaded_by f) w = (Ok 200 tt, w')
    /\ folders (w_db w') = folders (w_db w)
    /\ (forall g, In g (files (w_db w)) -> f_id g <> fid ->
          In g (files (w_db w')))
    /\ (exists subfolders contained,
          listContents folderId w' = (Ok 200 (subfolders, contained), w')
          /\ In fid (List.map li_id contained))
    /\ forall other subs cont,
         sql_bind other <> sql_bind folderId ->
         listContents other w' = (Ok 200 (subs, cont), w') ->
         ~ In fid (List.map li_id cont).
Proof.
  intros Hr Hg Hnan Hex.
  pose proof (reachable_handle (MoveFile (Num fid) folderId (f_uploaded_by f))
                w Hr) as Hr'.
  cbn [handle] in Hr'. revert Hr'. unfold moveFile.
  assert (Hchk : truthy folderId
                 && match sql_bind folderId with
                    | Some t => match get_folder (w_db w) t with
                                | None => true
                                | Some _ => false
                                end
                    | None => false
                    end = false).
  { destruct (sql_bind folderId) as [t|] eqn:Eb; [|apply andb_false_r].
    specialize (Hex t eq_refl).
    destruct (get_folder (w_db w) t); [apply andb_false_r|congruence]. }
  rewrite Hg, Z.eqb_refl, Hchk. cbn [negb].
  set (d' := update_folder_id (w_db w) (sql_bind folderId) fid).
  assert (Ew : match folderId with
               | Some NaN => (Err 400 "Invalid folder ID", w)
               | _ => (Ok 200 tt, with_db w d')
               end = (Ok 200 tt, with_db w d')).
  { destruct folderId as [[|z]|]; [congruence|reflexivity|reflexivity]. }
  rewrite Ew. cbn [snd]. intros Hr'.
  destruct (reachable_ok _ Hr') as [Hok' Hh']. cbn [with_db w_db] in Hok', Hh'.
  destruct (get_file_id _ _ _ Hg) as [Hid Hin].
  set (f' := set_folder_id f (sql_bind folderId)).
  assert (Hin' : In f' (files d')).
  { unfold d', update_folder_id. cbn [files].
    apply in_map_iff. exists f. split; [|exact Hin].
    rewrite Hid, Z.eqb_refl. reflexivity. }
  exists (with_db w d'). split; [reflexivity|]. split; [reflexivity|].
  split.
  { intros g Hgin Hne. unfold d', update_folder_id. cbn [with_db w_db files].
    apply in_map_iff. exists g. split; [|exact Hgin].
    apply Z.eqb_neq in Hne. now rewrite Hne. }
  split.
  - assert (Hl : exists subs cont,
               listContents folderId (with_db w d')
               = (Ok 200 (subs, cont), with_db w d')).
    { unfold listContents. cbn [with_db w_db].
      assert (Hn : truthy folderId
                   && match folderId with
                      | Some p => isNaN p
                      | None => false
                      end = false).
      { destruct folderId as [[|z]|]; cbn; trivial. apply andb_false_r. }
      rewrite Hn. change (get_folder d') with (get_folder (w_db w)).
      rewrite Hchk. eexists. eexists. reflexivity. }
    destruct Hl as (subs & cont & El). exists subs, cont.
    split; [exact El|].
    destruct (listContents_files _ _ _ _ Hr' El) as [Hperm _].
    eapply Permutation_in; [symmetry; exact Hperm|].
    cbn [with_db w_db]. rewrite <- Hid.
    apply (in_map f_id _ f'). apply filter_In. split; [exact Hin'|].
    now apply null_safe_eqb_eq.
  - intros other subs cont Hne El F.
    destruct (listContents_files _ _ _ _ Hr' El) as [Hperm _].
    apply (Permutation_in _ Hperm) in F. cbn [with_db w_db] in F.
    apply in_map_iff in F. destruct F as (g & Eg & Hgin).
    apply filter_In in Hgin. destruct Hgin as [Hgin Hk].
    assert (g = f').
    { apply (same_id_same_row f_id (files d'));
        [apply (hi_file_ids _ Hh')|exact Hgin|exact Hin'|].
      rewrite Eg. symmetry. exact Hid. }
    subst g. apply null_safe_eqb_eq in Hk. cbn [f' set_folder_id f_folder_id] in Hk.
    congruence.
Qed.

(** X17. Deleting a folder deletes no file.  In every world the server
    reaches, after a folder was deleted the files and their versions are
    the rows they were and the flat file list answers as before; the
    listing of the deleted folder answers 404, and no listing that still
    succeeds shows a file of the deleted folder or of one of the folders
    below it. *)
Theorem deleteFolder_leaves_files_behind (w w' : world) (id userId : Z) :
  reachable w ->
  deleteFolder (Num id) userId w = (Ok 200 tt, w') ->
  files (w_db w') = files (w_db w)
  /\ file_versions (w_db w') = file_versions (w_db w)
  /\ (forall page limit,
        fst (listFiles page limit w') = fst (listFiles page limit w))
  /\ listContents (Some (Num id)) w' = (Err 404 "Folder not found", w')
  /\ forall folderId subs cont g dsc,
       listContents folderId w' = (Ok 200 (subs, cont), w') ->
       In g (files (w_db w)) -> f_folder_id g = Some dsc ->
       in_subtree (folders (w_db w)) [id] dsc ->
       ~ In (f_id g) (List.map li_id cont).
Proof.
  intros Hr E.
  pose proof (reachable_handle (DeleteFolder (Num id) userId) w Hr) as Hr'.
  cbn [handle] in Hr'. rewrite E in Hr'. cbn [snd] in Hr'.
  destruct (reachable_ok w Hr) as [Hok Hh].
  destruct (reachable_ok _ Hr') as [Hok' Hh'].
  unfold deleteFolder in E.
  destruct (get_folder (w_db w) id) as [folder|] eqn:Eg; [|discriminate].
  destruct (negb (fo_created_by folder =? userId)); [discriminate|].
  destruct (cascade_too_deep (w_db w) id); [discriminate|].
  injection E as <-. cbn [with_db w_db] in *.
  split; [reflexivity|]. split; [reflexivity|]. split.
  { intros page limit. unfold listFiles. cbn [with_db w_db].
    change (select_files (delete_folder (w_db w) id))
      with (select_files (w_db w)).
    now destruct (sql_limit _ _ _). }
  assert (Hgone : forall dsc, in_subtree (folders (w_db w)) [id] dsc ->
            0 < dsc /\ get_folder (delete_folder (w_db w) id) dsc = None).
  { intros dsc Hd. split.
    - eapply subtree_id_positive; [apply (ok_folder_ids _ Hok)|exact Eg|exact Hd].
    - eapply get_folder_None_deleted; [exact Eg|exact Hd]. }
  split.
  - destruct (Hgone id) as [Hpos Hnone]; [constructor; now left|].
    unfold listContents. cbn [with_db w_db truthy isNaN sql_bind].
    assert (Hid0 : (id =? 0) = false) by (apply Z.eqb_neq; lia).
    rewrite Hid0, Hnone. reflexivity.
  - intros folderId subs cont g dsc El Hg Hf Hd F.
    destruct (Hgone dsc Hd) as [Hpos Hnone].
    destruct (listContents_files _ _ _ _ Hr' El) as [Hperm Hex].
    cbn [with_db w_db] in Hperm, Hex.
    apply (Permutation_in _ Hperm) in F. cbn [delete_folder files] in F.
    apply in_map_iff in F. destruct F as (g' & Eg' & Hg').
    apply filter_In in Hg'. destruct Hg' as [Hg' Hk].
    assert (g' = g).
    { apply (same_id_same_row f_id (files (w_db w)));
        [apply (hi_file_ids _ Hh)|exact Hg'|exact Hg|exact Eg']. }
    subst g'. apply null_safe_eqb_eq in Hk. rewrite Hf in Hk.
    symmetry in Hk. apply (Hex dsc Hk); [lia|exact Hnone].
Qed.

(** ** Paths of stored uploads *)

Lemma split_nonempty (s : jsstring) : Path.split s <> [].
Proof.
  destruct s as [|c t]; cbn [Path.split]; [discriminate|].
  destruct (c =? FileUtils.slash)%N; [discriminate|].
  destruct (Path.split t); discriminate.
Qed.

Lemma split_app (a b : jsstring) :
  Path.split (a ++ FileUtils.slash :: b) = Path.split a ++ Path.split b.
Proof.
  induction a as [|c a IH]; cbn [app Path.split].
  - now rewrite N.eqb_refl.
  - destruct (c =? FileUtils.slash)%N; [now rewrite IH|].
    rewrite IH. pose proof (split_nonempty a) as Hne.
    destruct (Path.split a); [congruence|reflexivity].
Qed.

Lemma split_plain (s : jsstring) :
  ~ In FileUtils.slash s -> Path.split s = [s].
Proof.
  induction s as [|c s IH]; intros H; [reflexivity|].
  cbn [Path.split].
  destruct (N.eqb_spec c FileUtils.slash) as [->|_];
    [exfalso; apply H; now left|].
  rewrite IH; [reflexivity|]. intros F. apply H. now right.
Qed.

Lemma jsstring_eqb_neq (a b : jsstring) : a <> b -> JS.eqb a b = false.
Proof.
  intros H. apply not_true_iff_false. intros F.
  now apply jsstring_eqb_eq in F.
Qed.

Lemma push_plain (above : bool) (stack : list jsstring) (s : jsstring) :
  plain_segment s -> Path.push_segment above stack s = s :: stack.
Proof.
  intros (H0 & H1 & H2 & _). unfold Path.push_segment.
  now rewrite !jsstring_eqb_neq.
Qed.

Lemma fold_push_plain (above : bool) (segs : list jsstring) :
  Forall plain_segment segs ->
  forall stack,
    fold_left (Path.push_segment above)
              (Path.split (Path.join_segments segs)) stack
    = rev segs ++ stack.
Proof.
  induction 1 as [|x t Hx Ht IH]; intros stack; [reflexivity|].
  destruct t as [|y t].
  - cbn [Path.join_segments]. rewrite (split_plain x) by apply Hx.
    cbn [fold_left rev app]. now apply push_plain.
  - change (Path.join_segments (x :: y :: t))
      with (x ++ FileUtils.slash :: Path.join_segments (y :: t)).
    rewrite split_app, fold_left_app, (split_plain x) by apply Hx.
    cbn [fold_left]. rewrite push_plain by exact Hx. rewrite IH.
    cbn [rev]. now rewrite <- !app_assoc.
Qed.

Lemma normalizeString_rooted (above : bool) (segs : list jsstring) :
  Forall plain_segment segs ->
  Path.normalizeString (rooted segs) above = Path.join_segments segs
  /\ Path.normalizeString (rooted segs ++ [FileUtils.slash]) above
     = Path.join_segments segs.
Proof.
  intros H. unfold Path.normalizeString, rooted. split.
  - change (FileUtils.slash :: Path.join_segments segs)
      with ([] ++ FileUtils.slash :: Path.join_segments segs).
    rewrite split_app, fold_left_app. cbn [Path.split fold_left].
    change (Path.push_segment above [] []) with (@nil jsstring).
    rewrite fold_push_plain by exact H.
    now rewrite app_nil_r, rev_involutive.
  - change ((FileUtils.slash :: Path.join_segments segs) ++ [FileUtils.slash])
      with ([] ++ FileUtils.slash
               :: (Path.join_segments segs ++ FileUtils.slash :: [])).
    rewrite !split_app, !fold_left_app. cbn [Path.split fold_left].
    change (Path.push_segment above [] []) with (@nil jsstring).
    rewrite fold_push_plain by exact H.
    rewrite app_nil_r.
    change (Path.push_segment above (rev segs) []) with (rev segs).
    now rewrite rev_involutive.
Qed.

Lemma resolve_absolute (cwd t : jsstring) :
  Path.resolve cwd (FileUtils.slash :: t)
  = FileUtils.slash
    :: Path.normalizeString ((FileUtils.slash :: t) ++ [FileUtils.slash])
                            false.
Proof. reflexivity. Qed.

(** [path.resolve] leaves an absolute path of plain components as it
    is. *)
Lemma resolve_rooted (cwd : jsstring) (segs : list jsstring) :
  Forall plain_segment segs ->
  Path.resolve cwd (rooted segs) = rooted segs.
Proof.
  intros H. unfold rooted at 1. rewrite resolve_absolute.
  fold (rooted segs).
  now rewrite (proj2 (normalizeString_rooted false segs H)).
Qed.

Lemma join_segments_snoc (segs : list jsstring) (s : jsstring) :
  Path.join_segments (segs ++ [s])
  = match segs with
    | [] => s
    | _ :: _ => Path.join_segments segs ++ FileUtils.slash :: s
    end.
Proof.
  induction segs as [|x t IH]; [reflexivity|].
  destruct t as [|y t]; [reflexivity|].
  change (Path.join_segments ((x :: y :: t) ++ [s]))
    with (x ++ FileUtils.slash :: Path.join_segments ((y :: t) ++ [s])).
  rewrite IH.
  change (Path.join_segments (x :: y :: t))
    with (x ++ FileUtils.slash :: Path.join_segments (y :: t)).
  now rewrite <- app_assoc.
Qed.

Lemma last_not_slash (pre s : jsstring) :
  s <> [] -> ~ In FileUtils.slash s ->
  match rev (pre ++ s) with
  | c :: _ => (c =? FileUtils.slash)%N
  | [] => false
  end = false.
Proof.
  intros Hne Hs. rewrite rev_app_distr.
  destruct (rev s) as [|c r] eqn:E.
  - apply (f_equal (@rev N)) in E. rewrite rev_involutive in E.
    now cbn in E.
  - cbn [app]. apply N.eqb_neq. intros ->. apply Hs.
    apply in_rev. rewrite E. now left.
Qed.

Lemma normalize_absolute (t : jsstring) :
  Path.normalize (FileUtils.slash :: t)
  = match Path.normalizeString (FileUtils.slash :: t) false with
    | [] => [FileUtils.slash]
    | c :: n =>
        FileUtils.slash
        :: (if match rev (FileUtils.slash :: t) with
               | c :: _ => (c =? FileUtils.slash)%N
               | [] => false
               end
            then (c :: n) ++ [FileUtils.slash] else c :: n)
    end.
Proof.
  unfold Path.normalize.
  destruct (Path.normalizeString (FileUtils.slash :: t) (negb _)) eqn:E;
    change (negb (Path.isAbsolute (FileUtils.slash :: t))) with false in E;
    rewrite E; reflexivity.
Qed.

(** [path.join] of an absolute path of plain components and one more
    plain component. *)
Lemma join_rooted (segs : list jsstring) (s : jsstring) :
  Forall plain_segment segs -> plain_segment s ->
  Path.join [rooted segs; s] = rooted (segs ++ [s]).
Proof.
  intros H Hs. pose proof Hs as (Hne & _ & _ & Hslash).
  unfold Path.join. cbn [filter].
  rewrite (jsstring_eqb_neq (rooted segs) []) by discriminate.
  rewrite (jsstring_eqb_neq s []) by exact Hne. cbn [negb].
  change (Path.join_segments [rooted segs; s])
    with (rooted segs ++ FileUtils.slash :: s).
  assert (Hall : Forall plain_segment (segs ++ [s])).
  { apply Forall_app. split; [exact H|]. now constructor. }
  assert (En : Path.normalizeString (rooted segs ++ FileUtils.slash :: s)
                                     false
               = Path.join_segments (segs ++ [s])).
  { destruct segs as [|x t].
    - unfold Path.normalizeString, rooted. cbn [Path.join_segments app].
      change (FileUtils.slash :: FileUtils.slash :: s)
        with ([] ++ FileUtils.slash :: ([] ++ FileUtils.slash :: s)).
      rewrite !split_app, (split_plain s) by exact Hslash.
      cbn [Path.split app fold_left].
      change (Path.push_segment false [] []) with (@nil jsstring).
      now rewrite push_plain.
    - rewrite <- (proj1 (normalizeString_rooted false _ Hall)).
      f_equal. unfold rooted. now rewrite join_segments_snoc. }
  change (rooted segs ++ FileUtils.slash :: s)
    with (FileUtils.slash
            :: (Path.join_segments segs ++ FileUtils.slash :: s)) at 1.
  rewrite normalize_absolute.
  change (FileUtils.slash
            :: (Path.join_segments segs ++ FileUtils.slash :: s))
    with (rooted segs ++ FileUtils.slash :: s).
  rewrite En.
  replace (rooted segs ++ FileUtils.slash :: s)
    with ((rooted segs ++ [FileUtils.slash]) ++ s)
    by now rewrite <- app_assoc.
  rewrite (last_not_slash _ s Hne Hslash).
  destruct (Path.join_segments (segs ++ [s])) eqn:E;
    [|unfold rooted; now rewrite E].
  rewrite join_segments_snoc in E.
  destruct segs as [|x t]; [congruence|].
  now destruct (Path.join_segments (x :: t)).
Qed.

Lemma startsWith_app (a b : jsstring) : Path.startsWith (a ++ b) a = true.
Proof.
  induction a as [|x a IH]; [now destruct b|].
  cbn [app Path.startsWith]. now rewrite N.eqb_refl.
Qed.

Lemma uploads_plain : plain_segment (lit "uploads").
Proof.
  repeat split; try discriminate.
  intros F. vm_compute in F. intuition discriminate.
Qed.

Lemma header_ok_app (a b : jsstring) :
  header_ok (a ++ b) = header_ok a && header_ok b.
Proof. apply forallb_app. Qed.

(** Only the name and the suffix decide whether the disposition is a
    header value [res.setHeader] accepts. *)
Lemma header_ok_disposition (name suffix : jsstring) :
  header_ok (disposition name suffix) = header_ok name && header_ok suffix.
Proof.
  unfold disposition. rewrite !header_ok_app.
  change (header_ok (lit "attachment; filename=")) with true.
  change (header_ok [quote]) with true.
  cbn [andb]. now rewrite andb_true_r.
Qed.

(** The guard lets a path through that [path.join] made from the upload
    directory and a plain name; the headers then decide. *)
Lemma send_file_stored (w : world) (segs : list jsstring)
  (name p : jsstring) (missing : string) (headers : list jsstring)
  (body : download) :
  Forall plain_segment segs -> w_cwd w = rooted segs ->
  plain_segment name ->
  p = Path.join [Path.uploadDir (w_cwd w); name] ->
  w_disk w p = true ->
  p = rooted (segs ++ [lit "uploads"; name])
  /\ Path.resolve (w_cwd w) p = p
  /\ Path.within (Path.resolve (w_cwd w) (Path.uploadDir (w_cwd w)))
                 (Path.resolve (w_cwd w) p) = true
  /\ send_file p missing headers body w
     = if forallb header_ok headers
       then (Ok 200 body, log (log w (ExistsSync p)) (CreateReadStream p))
       else (Err 500 "Internal server error", log w (ExistsSync p)).
Proof.
  intros Hsegs Hcwd Hname Hp Hdisk.
  assert (Hup : Forall plain_segment (segs ++ [lit "uploads"])).
  { apply Forall_app. split; [exact Hsegs|].
    constructor; [apply uploads_plain|constructor]. }
  assert (Hall : Forall plain_segment ((segs ++ [lit "uploads"]) ++ [name])).
  { apply Forall_app. split; [exact Hup|]. now constructor. }
  assert (Edir : Path.uploadDir (w_cwd w) = rooted (segs ++ [lit "uploads"])).
  { unfold Path.uploadDir. rewrite Hcwd.
    apply join_rooted; [exact Hsegs|apply uploads_plain]. }
  assert (Ep : p = rooted ((segs ++ [lit "uploads"]) ++ [name])).
  { rewrite Hp, Edir. now apply join_rooted. }
  assert (Eapp : rooted ((segs ++ [lit "uploads"]) ++ [name])
                 = rooted (segs ++ [lit "uploads"])
                   ++ FileUtils.slash :: name).
  { unfold rooted. rewrite (join_segments_snoc (segs ++ [lit "uploads"])).
    destruct (segs ++ [lit "uploads"]) eqn:E; [|reflexivity].
    now destruct segs. }
  assert (Er : Path.resolve (w_cwd w) p = p).
  { rewrite Ep. now apply resolve_rooted. }
  assert (Erd : Path.resolve (w_cwd w) (Path.uploadDir (w_cwd w))
                = rooted (segs ++ [lit "uploads"])).
  { rewrite Edir. now apply resolve_rooted. }
  assert (Hs : Path.startsWith p (rooted (segs ++ [lit "uploads"])) = true)
    by (rewrite Ep, Eapp; apply startsWith_app).
  split; [now rewrite Ep, <- app_assoc|]. split; [exact Er|]. split.
  - rewrite Er, Erd, Ep, Eapp. unfold Path.within.
    change (rooted (segs ++ [lit "uploads"]) ++ FileUtils.slash :: name)
      with (rooted (segs ++ [lit "uploads"]) ++ [FileUtils.slash] ++ name).
    rewrite app_assoc, startsWith_app. apply orb_true_r.
  - rewrite send_file_guard. cbv zeta.
    rewrite Hdisk, Er, Erd, Hs. reflexivity.
Qed.

(** X18. The traversal guard never refuses an upload the server stored
    itself.  When the working directory is an absolute path of plain
    components and a file row holds the path [path.join] gives for the
    upload directory and a plain file name, the stored path is already
    resolved and lies below the upload directory.  Once the file is on
    disk the headers decide: when the stored type and the sanitized name
    are header values [res.setHeader] accepts (tab, and the code units
    32..126 and 128..255), the download route answers 200 and streams
    that very path; when one of them is not, [setHeader] throws and the
    route answers 500 without opening the file. *)
Theorem downloadFile_serves_stored_upload (w : world) (fid : Z)
  (f : file_row) (segs : list jsstring) (name : jsstring) :
  Forall plain_segment segs -> w_cwd w = rooted segs ->
  plain_segment name ->
  get_file (w_db w) fid = Some f ->
  f_file_path f = Path.join [Path.uploadDir (w_cwd w); name] ->
  w_disk w (f_file_path f) = true ->
  f_file_path f = rooted (segs ++ [lit "uploads"; name])
  /\ Path.resolve (w_cwd w) (f_file_path f) = f_file_path f
  /\ Path.within (Path.resolve (w_cwd w) (Path.uploadDir (w_cwd w)))
                 (Path.resolve (w_cwd w) (f_file_path f)) = true
  /\ (header_ok (f_mime_type f) = true ->
      header_ok (sanitizeFilename (f_original_filename f)) = true ->
      exists body w',
        downloadFile (Num fid) w = (Ok 200 body, w')
        /\ dl_stream body = f_file_path f
        /\ dl_contentLength body = f_file_size f
        /\ w_db w' = w_db w
        /\ w_trace w'
           = w_trace w ++ [ExistsSync (f_file_path f);
                           CreateReadStream (f_file_path f)])
  /\ (header_ok (f_mime_type f)
      && header_ok (sanitizeFilename (f_original_filename f)) = false ->
      downloadFile (Num fid) w
      = (Err 500 "Internal server error",
         log w (ExistsSync (f_file_path f)))).
Proof.
  intros Hsegs Hcwd Hname Hg Hpath Hdisk.
  destruct (send_file_stored w segs name (f_file_path f)
              "File not found on disk"
              [f_mime_type f;
               disposition (sanitizeFilename (f_original_filename f)) []]
              {| dl_contentType := f_mime_type f;
                 dl_filename := sanitizeFilename (f_original_filename f);
                 dl_versionSuffix := None;
                 dl_contentLength := f_file_size f;
                 dl_stream := f_file_path f |}
              Hsegs Hcwd Hname Hpath Hdisk) as (E1 & E2 & E3 & E4).
  split; [exact E1|]. split; [exact E2|]. split; [exact E3|].
  assert (Eh : forallb header_ok
                 [f_mime_type f;
                  disposition (sanitizeFilename (f_original_filename f)) []]
               = header_ok (f_mime_type f)
                 && header_ok (sanitizeFilename (f_original_filename f))).
  { cbn [forallb]. rewrite header_ok_disposition.
    change (header_ok []) with true. now rewrite !andb_true_r. }
  unfold downloadFile. rewrite Hg, E4, Eh. split.
  - intros H1 H2. rewrite H1, H2. cbn [andb]. do 2 eexists.
    split; [reflexivity|]. cbn [dl_stream dl_contentLength log w_db w_trace].
    repeat split. now rewrite <- app_assoc.
  - intros H. now rewrite H.
Qed.

(** ** Tokens: what [login] issues and what [requireAuth] accepts *)

Lemma is_digit_range (c : N) :
  is_digit c = true <-> (48 <= c <= 57)%N.
Proof.
  unfold is_digit. rewrite andb_true_iff, !N.leb_le. reflexivity.
Qed.

Lemma digit_of_mod (n : N) : is_digit (48 + n mod 10) = true.
Proof.
  apply is_digit_range. pose proof (N.mod_lt n 10 ltac:(discriminate)) as H.
  revert H. generalize (n mod 10)%N. intros m H. lia.
Qed.

Lemma digits_of_digits (fuel : nat) :
  forall n acc,
    Forall (fun c => is_digit c = true) acc ->
    Forall (fun c => is_digit c = true) (digits_of fuel n acc).
Proof.
  induction fuel as [|k IH]; intros n acc H; [exact H|].
  cbn [digits_of].
  assert (H' : Forall (fun c => is_digit c = true)
                 ((48 + n mod 10)%N :: acc))
    by (constructor; [apply digit_of_mod|exact H]).
  destruct (n / 10 =? 0)%N; [exact H'|now apply IH].
Qed.

Lemma digits_of_nonempty (fuel : nat) :
  forall n acc, acc <> [] -> digits_of fuel n acc <> [].
Proof.
  induction fuel as [|k IH]; intros n acc H; [exact H|].
  cbn [digits_of]. destruct (n / 10 =? 0)%N; [discriminate|].
  apply IH. discriminate.
Qed.

Lemma digits_of_step (k : nat) (n : N) (acc : jsstring) :
  digits_of (S k) n acc
  = if (n / 10 =? 0)%N then (48 + n mod 10)%N :: acc
    else digits_of k (n / 10) ((48 + n mod 10)%N :: acc).
Proof. reflexivity. Qed.

Lemma digits_value_of (k : nat) :
  forall n acc,
    (n < 10 ^ N.of_nat (S k))%N ->
    digits_value (digits_of (S k) n acc) None = digits_value acc (Some n).
Proof.
  induction k as [|k IH]; intros n acc Hn.
  - change (10 ^ N.of_nat 1)%N with 10%N in Hn.
    cbn [digits_of]. rewrite N.div_small by exact Hn.
    cbn [N.eqb digits_value]. rewrite digit_of_mod.
    rewrite N.mod_small by exact Hn. do 2 f_equal. lia.
  - rewrite digits_of_step. destruct (N.eqb_spec (n / 10) 0) as [E|E].
    + cbn [digits_value]. rewrite digit_of_mod. do 2 f_equal.
      pose proof (N.div_mod n 10 ltac:(discriminate)). lia.
    + rewrite IH.
      * cbn [digits_value]. rewrite digit_of_mod. do 2 f_equal.
        pose proof (N.div_mod n 10 ltac:(discriminate)) as H.
        revert H. generalize (n / 10)%N, (n mod 10)%N. intros q r H. lia.
      * apply N.Div0.div_lt_upper_bound.
        rewrite <- N.pow_succ_r'. now rewrite <- Nat2N.inj_succ.
Qed.

Lemma decimal_value (n : N) : digits_value (decimal n) None = Some n.
Proof.
  unfold decimal. rewrite digits_value_of; [reflexivity|].
  rewrite Nat2N.inj_succ, N2Nat.id.
  apply N.lt_le_trans with (2 ^ N.size n)%N; [apply N.size_gt|].
  apply N.le_trans with (10 ^ N.size n)%N.
  - apply N.pow_le_mono_l. lia.
  - apply N.pow_le_mono_r; lia.
Qed.

Lemma decimal_digits (n : N) :
  Forall (fun c => is_digit c = true) (decimal n) /\ decimal n <> [].
Proof.
  unfold decimal. split; [now apply digits_of_digits|].
  cbn [digits_of]. destruct (n / 10 =? 0)%N; [discriminate|].
  apply digits_of_nonempty. discriminate.
Qed.

Lemma digit_not_space (c : N) : is_digit c = true -> is_space c = false.
Proof.
  intros H. apply is_digit_range in H.
  assert (E : (c = 48 \/ c = 49 \/ c = 50 \/ c = 51 \/ c = 52 \/ c = 53
               \/ c = 54 \/ c = 55 \/ c = 56 \/ c = 57)%N) by lia.
  repeat (destruct E as [->|E]; [reflexivity|]). now subst.
Qed.

(** Reading back a number the way a template literal wrote it. *)
Lemma parseInt_toString (z : Z) : parseInt (toString z) = Num z.
Proof.
  unfold toString. destruct (Z.ltb_spec z 0) as [Hz|Hz].
  - unfold parseInt. cbn [trimStart].
    change (is_space 45) with false. cbv iota. cbn [N.eqb Pos.eqb].
    rewrite decimal_value. f_equal. lia.
  - destruct (decimal_digits (Z.to_N z)) as [Hd Hne].
    pose proof (decimal_value (Z.to_N z)) as Hv.
    destruct (decimal (Z.to_N z)) as [|c t]; [congruence|].
    inversion Hd as [|? ? Hc _]; subst.
    unfold parseInt. cbn [trimStart]. rewrite (digit_not_space c Hc).
    apply is_digit_range in Hc.
    destruct (N.eqb_spec c 45); [lia|]. destruct (N.eqb_spec c 43); [lia|].
    rewrite Hv. f_equal. lia.
Qed.

Lemma split_on_head (sep : N) (s : jsstring) :
  exists first rest,
    split_on sep s = first :: rest /\ ~ In sep first
    /\ (s = first \/ exists tail, s = first ++ sep :: tail).
Proof.
  induction s as [|c s IH].
  - exists [], []. repeat split; auto.
  - cbn [split_on]. destruct (N.eqb_spec c sep) as [->|Hc].
    + exists [], (split_on sep s). repeat split; auto.
      right. now exists s.
    + destruct IH as (first & rest & E & Hf & Hs). rewrite E.
      exists (c :: first), rest. repeat split.
      * intros [F|F]; [congruence|contradiction].
      * destruct Hs as [->|(tail & ->)]; [now left|right; now exists tail].
Qed.

Lemma split_on_parts (sep : N) (s : jsstring) :
  Forall (fun p => ~ In sep p) (split_on sep s).
Proof.
  induction s as [|c s IH].
  - constructor; [intros []|constructor].
  - cbn [split_on]. destruct (N.eqb_spec c sep) as [->|Hc].
    + constructor; [intros []|exact IH].
    + destruct (split_on sep s) as [|p ps].
      * constructor; [|constructor]. intros [G|[]]. congruence.
      * inversion IH as [|? ? Hp Hps]; subst.
        constructor; [|exact Hps].
        intros [G|G]; [congruence|contradiction].
Qed.

Lemma split_on_app (sep : N) (a b : jsstring) :
  ~ In sep a -> split_on sep (a ++ sep :: b) = a :: split_on sep b.
Proof.
  induction a as [|c a IH]; intros H; cbn [app split_on].
  - now rewrite N.eqb_refl.
  - destruct (N.eqb_spec c sep) as [->|_]; [exfalso; apply H; now left|].
    rewrite IH; [reflexivity|]. intros F. apply H. now right.
Qed.

Lemma toString_no_colon (z : Z) : ~ In Auth.colon (toString z).
Proof.
  assert (H : forall n, ~ In Auth.colon (decimal n)).
  { intros n F. destruct (decimal_digits n) as [Hd _].
    rewrite Forall_forall in Hd. specialize (Hd _ F).
    apply is_digit_range in Hd. unfold Auth.colon in Hd. lia. }
  unfold toString. destruct (z <? 0); [|apply H].
  intros [F|F]; [discriminate|now apply H in F].
Qed.

Lemma requireAuth_bearer (d : database) (token : jsstring) :
  Auth.requireAuth d (Some (lit "Bearer " ++ token))
  = match split_on Auth.colon token with
    | userId :: rest =>
        match parseInt userId with
        | NaN => Auth.Deny 401 "Invalid authentication token"
        | Num userIdNum =>
            match rest with
            | username :: _ =>
                match Auth.find_user d userIdNum username with
                | Some _ => Auth.Next userIdNum username
                | None => Auth.Deny 401 "Invalid authentication token"
                end
            | [] => Auth.Deny 401 "Invalid authentication token"
            end
        end
    | [] => Auth.Deny 401 "Invalid authentication token"
    end.
Proof.
  unfold Auth.requireAuth. rewrite startsWith_app. reflexivity.
Qed.

(** X19. The token the login route issues is the one the middleware
    accepts.  After a login that answers 200, the session is that of a
    user of the database with the name that was sent; presenting its
    token as a bearer token makes the middleware pass the request on
    under that user's id and name.  The exception is a user name with a
    colon in it: the middleware cuts the name at the colon and answers
    401 to every token the login issues for such a user.  User ids are
    taken in the range in which JavaScript numbers are exact. *)
Theorem login_token_passes_requireAuth
  (bcrypt_compare : jsstring -> jsstring -> bool) (d : database)
  (username password : option jsstring) (s : Auth.session) :
  unique_user_ids d ->
  Auth.login bcrypt_compare d username password = Ok 200 s ->
  Z.abs (Auth.se_userId s) < 2 ^ 53 ->
  (exists u pass,
     In u (users d) /\ username = Some (u_username u)
     /\ password = Some pass
     /\ bcrypt_compare pass (u_password_hash u) = true
     /\ Auth.se_userId s = u_id u /\ Auth.se_username s = u_username u)
  /\ (~ In Auth.colon (Auth.se_username s) ->
      Auth.requireAuth d (Some (lit "Bearer " ++ Auth.se_token s))
      = Auth.Next (Auth.se_userId s) (Auth.se_username s))
  /\ (In Auth.colon (Auth.se_username s) ->
      Auth.requireAuth d (Some (lit "Bearer " ++ Auth.se_token s))
      = Auth.Deny 401 "Invalid authentication token").
Proof.
  intros Hu Hl _. unfold Auth.login in Hl.
  destruct username as [[|c name]|]; try discriminate.
  destruct password as [[|c' pass]|]; try discriminate.
  destruct (find _ (users d)) as [u|] eqn:Ef; [|discriminate].
  destruct (bcrypt_compare (c' :: pass) (u_password_hash u)) eqn:Eb;
    [|discriminate].
  cbn [negb] in Hl. injection Hl as <-.
  cbn [Auth.se_token Auth.se_userId Auth.se_username].
  apply find_some in Ef. destruct Ef as [Hin En].
  apply jsstring_eqb_eq in En.
  assert (Hreq : Auth.requireAuth d
            (Some (lit "Bearer "
                   ++ toString (u_id u) ++ Auth.colon :: u_username u))
          = match split_on Auth.colon (u_username u) with
            | first :: _ =>
                match Auth.find_user d (u_id u) first with
                | Some _ => Auth.Next (u_id u) first
                | None => Auth.Deny 401 "Invalid authentication token"
                end
            | [] => Auth.Deny 401 "Invalid authentication token"
            end).
  { rewrite requireAuth_bearer.
    rewrite split_on_app by apply toString_no_colon.
    now rewrite parseInt_toString. }
  destruct (split_on_head Auth.colon (u_username u))
    as (first & rest & Es & Hf & Hs).
  rewrite Es in Hreq. split; [|split].
  - exists u, (c' :: pass). rewrite En. now repeat split.
  - intros Hc. rewrite Hreq.
    assert (first = u_username u).
    { destruct Hs as [->|(tail & E)]; [reflexivity|].
      exfalso. apply Hc. rewrite E. apply in_or_app. right. now left. }
    subst first. unfold Auth.find_user.
    destruct (find _ (users d)) eqn:F; [reflexivity|].
    pose proof (find_none _ _ F u Hin) as Hn. cbv beta in Hn.
    now rewrite Z.eqb_refl, jsstring_eqb_refl in Hn.
  - intros Hc. rewrite Hreq. unfold Auth.find_user.
    destruct (find _ (users d)) as [u'|] eqn:F; [|reflexivity].
    exfalso. apply find_some in F. destruct F as [Hin' F].
    apply andb_true_iff in F. destruct F as [F1 F2].
    apply Z.eqb_eq in F1. apply jsstring_eqb_eq in F2.
    assert (u' = u) by
      (apply (same_id_same_row u_id (users d)); assumption).
    subst u'. apply Hf. now rewrite <- F2.
Qed.

(** X20. Whoever the middleware lets through is a user of the database:
    the request carried a bearer token, and the id and the name the
    middleware attaches to the request are those of one row of [users];
    the name has no colon in it. *)
Theorem requireAuth_passes_only_users (d : database)
  (authorization : option jsstring) (userId : Z) (username : jsstring) :
  Auth.requireAuth d authorization = Auth.Next userId username ->
  (exists header,
     authorization = Some header
     /\ Path.startsWith header (lit "Bearer ") = true)
  /\ (exists u, In u (users d) /\ u_id u = userId
                /\ u_username u = username)
  /\ user_exists d userId = true
  /\ ~ In Auth.colon username.
Proof.
  unfold Auth.requireAuth. destruct authorization as [header|];
    [|discriminate].
  destruct (Path.startsWith header (lit "Bearer ")) eqn:Eh;
    [|discriminate].
  cbn [negb].
  destruct (split_on_head Auth.colon (skipn 7 header))
    as (first & rest & Es & Hf & Hs).
  rewrite Es. destruct (parseInt first) as [|z]; [discriminate|].
  destruct rest as [|name rest]; [discriminate|].
  destruct (Auth.find_user d z name) as [u|] eqn:F; [|discriminate].
  intros E. injection E as <- <-.
  unfold Auth.find_user in F. apply find_some in F. destruct F as [Hin F].
  apply andb_true_iff in F. destruct F as [F1 F2].
  apply Z.eqb_eq in F1. apply jsstring_eqb_eq in F2.
  split; [now exists header|]. split; [now exists u|]. split.
  - unfold user_exists. apply existsb_exists. exists u.
    split; [exact Hin|now apply Z.eqb_eq].
  - pose proof (split_on_parts Auth.colon (skipn 7 header)) as G.
    rewrite Es in G. inversion G as [|? ? _ G']; subst.
    now inversion G'.
Qed.

(** ** The two file type checks *)

(** X21. The type filter of the server is stricter than the check the
    upload form makes in the browser: every type the server allows
    passes the form, and the form lets through types the server then
    refuses, [image/tiff] for one. *)
Theorem isValidMimeType_stricter_than_form :
  (forall mimeType,
     Config.isValidMimeType mimeType = true ->
     Config.clientAccepts mimeType = true)
  /\ exists mimeType,
       Config.clientAccepts mimeType = true
       /\ Config.isValidMimeType mimeType = false.
Proof.
  split.
  - intros m H. unfold Config.isValidMimeType in H.
    apply existsb_exists in H. destruct H as (a & Ha & E).
    apply jsstring_eqb_eq in E. subst m.
    unfold Config.allowedMimeTypes in Ha. cbn [In] in Ha.
    repeat (destruct Ha as [<-|Ha]; [vm_compute; reflexivity|]).
    destruct Ha.
  - exists (lit "image/tiff"). split; vm_compute; reflexivity.
Qed.

(** ** A version can be fetched once it is stored *)

Lemma toString_header_ok (z : Z) : header_ok (toString z) = true.
Proof.
  assert (H : forall n, header_ok (decimal n) = true).
  { intros n. destruct (decimal_digits n) as [Hd _].
    apply forallb_forall. intros c Hc. rewrite Forall_forall in Hd.
    specialize (Hd c Hc). apply is_digit_range in Hd.
    unfold header_char_ok.
    replace ((32 <=? c)%N) with true by (symmetry; apply N.leb_le; lia).
    replace ((c <=? 126)%N) with true by (symmetry; apply N.leb_le; lia).
    cbn [andb]. now rewrite orb_true_r. }
  unfold toString. destruct (z <? 0); [|apply H].
  cbn [header_ok forallb]. change (header_char_ok 45) with true.
  apply H.
Qed.

(** X22. In every world the server reaches, a version that the upload
    filter lets through, uploaded for an existing file by an existing
    user and stored by its plain name in the upload directory, can be
    fetched under the number the upload answered, provided the stored
    name of the file is a header value [res.setHeader] accepts: the
    version download then answers 200 and streams the stored path, with
    the size of the upload as content length and the stored name of the
    file, which sanitizing leaves as it is, in the disposition. *)
Theorem addVersion_then_downloadVersion (w : world) (fid : Z) (f : file_row)
  (reqFile : multer_file) (userId : Z) (now : timestamp)
  (segs : list jsstring) (name : jsstring) :
  reachable w -> get_file (w_db w) fid = Some f ->
  user_exists (w_db w) userId = true ->
  Config.multer_passes reqFile ->
  header_ok (f_original_filename f) = true ->
  Forall plain_segment segs -> w_cwd w = rooted segs ->
  plain_segment name ->
  mf_path reqFile = Path.join [Path.uploadDir (w_cwd w); name] ->
  w_disk w (mf_path reqFile) = true ->
  exists body w',
    addVersion (Num fid) (Some reqFile) userId now w = (Ok 201 body, w')
    /\ exists dl w'',
         downloadVersion (Num fid) (Num (vc_versionNumber body)) w'
         = (Ok 200 dl, w'')
         /\ dl_stream dl = mf_path reqFile
         /\ dl_contentLength dl = mf_size reqFile
         /\ dl_versionSuffix dl = Some (vc_versionNumber body)
         /\ dl_filename dl = f_original_filename f.
Proof.
  intros Hr Hf Hu _ Hhead Hsegs Hcwd Hname Hpath Hdisk.
  destruct (reachable_ok w Hr) as [_ Hh].
  destruct (get_file_id _ _ _ Hf) as [Eid Hin].
  pose proof (hi_file_names _ Hh f Hin) as Hsan.
  destruct (next_version_above (w_db w) fid f Hf) as [_ Hnum].
  { now apply (hi_numbered _ Hh). }
  { intros x Hx. apply in_map_iff in Hx. destruct Hx as (v & <- & Hv).
    apply filter_In in Hv. now apply (hi_numbered _ Hh). }
  assert (Habs : existsb (fun r => (v_file_id r =? fid)
                            && (v_version_number r =? next_version (w_db w) fid))
                         (file_versions (w_db w)) = false).
  { apply version_absent. intros Hx. apply Hnum in Hx. lia. }
  unfold addVersion. rewrite Hf. unfold insert_version.
  rewrite (get_file_existsb _ _ _ Hf), Hu, Habs.
  cbn [andb negb]. do 2 eexists. split; [reflexivity|].
  cbn [vc_versionNumber]. unfold downloadVersion.
  cbn [with_db w_db]. rewrite get_file_update_current_version.
  change (get_file _ fid) with (get_file (w_db w) fid). rewrite Hf.
  cbn [option_map]. unfold get_version.
  cbn [update_current_version file_versions].
  rewrite find_app_r; cycle 1.
  { intros y Hy. apply not_true_iff_false. intros F.
    assert (G : existsb (fun r => (v_file_id r =? fid)
                           && (v_version_number r =? next_version (w_db w) fid))
                        (file_versions (w_db w)) = true).
    { apply existsb_exists. now exists y. }
    congruence. }
  cbn [find v_file_id v_version_number]. rewrite !Z.eqb_refl.
  cbn [andb v_file_path v_file_size].
  rewrite Eid, Z.eqb_refl. cbn [set_current_version f_original_filename].
  rewrite Hsan.
  match goal with
  | |- exists dl w'', send_file ?p ?m ?hs ?b ?w1 = _ /\ _ =>
      destruct (send_file_stored w1 segs name p m hs b Hsegs Hcwd Hname
                  Hpath Hdisk) as (_ & _ & _ & E)
  end.
  rewrite E. cbn [forallb]. rewrite header_ok_disposition, Hhead.
  rewrite header_ok_app, toString_header_ok.
  change (header_ok (lit "application/octet-stream")) with true.
  change (header_ok (lit "_v")) with true. cbn [andb].
  do 2 eexists. split; [reflexivity|].
  cbn [dl_stream dl_contentLength dl_versionSuffix dl_filename].
  now repeat split.
Qed.

(** ** Uploads, seen through the listings *)

(** What the upload loop leaves behind: one row per file, appended in
    order, under ids the files table had not issued before. *)
Lemma upload_loop_rows (folderId : field) (userId : Z) (now : timestamp)
  (ups : list multer_file) :
  forall d acc,
    user_exists d userId = true ->
    exists d' rows,
      upload_loop d ups folderId userId now acc
      = (d', Some (acc ++ List.map
                     (fun r => {| up_id := f_id r;
                                  up_filename := f_original_filename r;
                                  up_size := f_file_size r;
                                  up_mimeType := f_mime_type r;
                                  up_uploadedAt := now |}) rows))
      /\ files d' = files d ++ rows
      /\ folders d' = folders d
      /\ List.map (fun r => (f_original_filename r, f_file_size r)) rows
         = List.map (fun m => (sanitizeFilename (mf_originalname m),
                               mf_size m)) ups
      /\ Forall (fun r => f_folder_id r = sql_bind folderId
                          /\ f_current_version r = 1
                          /\ seq_files d < f_id r) rows.
Proof.
  induction ups as [|m ups IH]; intros d acc Hu.
  - exists d, []. cbn [upload_loop List.map]. rewrite !app_nil_r.
    repeat split. constructor.
  - cbn [upload_loop]. unfold insert_file. rewrite Hu.
    set (id := next_rowid (List.map f_id (files d)) (seq_files d)).
    set (row := {| f_id := id; f_filename := mf_filename m;
                   f_original_filename := sanitizeFilename (mf_originalname m);
                   f_file_path := mf_path m; f_file_size := mf_size m;
                   f_mime_type := mf_mimetype m; f_uploaded_by := userId;
                   f_uploaded_at := now; f_folder_id := sql_bind folderId;
                   f_current_version := 1 |}).
    set (d1 := {| users := users d; folders := folders d;
                  files := files d ++ [row];
                  file_versions := file_versions d;
                  seq_folders := seq_folders d; seq_files := id;
                  seq_versions := seq_versions d |}).
    destruct (IH d1 (acc ++ [{| up_id := id;
                                up_filename :=
                                  sanitizeFilename (mf_originalname m);
                                up_size := mf_size m;
                                up_mimeType := mf_mimetype m;
                                up_uploadedAt := now |}]) Hu)
      as (d' & rows & E & Hf & Hfo & Hn & Hall).
    destruct (next_rowid_above (List.map f_id (files d)) (seq_files d))
      as [Hseq _]. fold id in Hseq.
    exists d', (row :: rows). rewrite E. split; [|split; [|split; [|split]]].
    + cbn [List.map]. now rewrite <- app_assoc.
    + rewrite Hf. cbn [d1 files]. now rewrite <- app_assoc.
    + exact Hfo.
    + cbn [List.map]. now rewrite Hn.
    + constructor; [now repeat split|].
      eapply Forall_impl; [|exact Hall]. cbn [d1 seq_files].
      intros r (H1 & H2 & H3). repeat split; trivial. lia.
Qed.

(** X23. In every world the server reaches, an upload that multer lets
    through (at most ten files, each of an allowed type and within the
    size limit) of at least one file by an existing user, into the root or
    a folder that exists, is answered 201 with one entry per file, in
    order, under ids the files table had not issued before, with the
    sanitized names and the sizes of the upload.  The listing of the
    folder then shows every one of them, under that id and size, the
    UTF-8 form of that name, at version 1. *)
Theorem uploadFiles_then_listed (w : world) (ups : list multer_file)
  (folderId : field) (userId : Z) (now : timestamp) :
  reachable w -> user_exists (w_db w) userId = true -> ups <> [] ->
  Config.multer_array ups ->
  folder_given_exists (w_db w) folderId ->
  exists created w',
    uploadFiles ups folderId userId now w = (Ok 201 created, w')
    /\ List.map (fun c => (up_filename c, up_size c)) created
       = List.map (fun m => (sanitizeFilename (mf_originalname m),
                             mf_size m)) ups
    /\ (forall c, In c created -> seq_files (w_db w) < up_id c)
    /\ exists subfolders contained,
         listContents folderId w' = (Ok 200 (subfolders, contained), w')
         /\ forall c, In c created ->
              In (up_id c, utf8 (up_filename c), up_size c, 1)
                 (List.map (fun e => (li_id e, utf8 (li_filename e),
                                      li_size e, li_currentVersion e))
                           contained).
Proof.
  intros Hr Hu Hne _ Hex.
  pose proof (reachable_handle (UploadFiles ups folderId userId now) w Hr)
    as Hr'.
  cbn [handle] in Hr'. revert Hr'. unfold uploadFiles.
  destruct ups as [|m ups]; [congruence|].
  pose proof (folder_check_passes _ _ Hex) as Hchk. rewrite Hchk.
  destruct (upload_loop_rows folderId userId now (m :: ups) (w_db w) [] Hu)
    as (d' & rows & E & Hf & Hfo & Hn & Hall).
  rewrite E. cbn [app snd]. intros Hr'.
  destruct (reachable_ok _ Hr') as [Hok' Hh']. cbn [with_db w_db] in Hok', Hh'.
  rewrite Forall_forall in Hall.
  do 2 eexists. split; [reflexivity|]. split; [|split].
  - rewrite map_map. exact Hn.
  - intros c Hc. apply in_map_iff in Hc. destruct Hc as (r & <- & Hin).
    now apply Hall.
  - assert (Hchk' : truthy folderId
                    && match sql_bind folderId with
                       | Some id => match get_folder d' id with
                                    | None => true
                                    | Some _ => false
                                    end
                       | None => false
                       end = false).
    { revert Hchk. destruct (sql_bind folderId) as [t|]; [|trivial].
      unfold get_folder. now rewrite Hfo. }
    assert (Hn' : truthy folderId
                  && match folderId with
                     | Some p => isNaN p
                     | None => false
                     end = false).
    { destruct folderId as [[|z]|]; cbn; trivial. apply andb_false_r. }
    unfold listContents. cbn [with_db w_db]. rewrite Hn', Hchk'.
    eexists. eexists. split; [reflexivity|]. intros c Hc.
    apply in_map_iff in Hc. destruct Hc as (r & <- & Hin).
    cbn [up_id up_filename up_size].
    destruct (Hall r Hin) as (H1 & H2 & _).
    eapply Permutation_in; [apply Permutation_map, order_by_perm|].
    destruct (ok_schema _ Hok') as [Hu' _ _].
    destruct (hi_creators _ Hh') as [_ Hcu].
    cbn [with_db w_db].
    rewrite (join_users_rows d' f_uploaded_by _
               (fun e => (li_id e, utf8 (li_filename e), li_size e,
                          li_currentVersion e))
               (fun f => (f_id f, utf8 (f_original_filename f),
                          f_file_size f, f_current_version f)));
      [|exact Hu'| |reflexivity].
    + replace (f_id r, utf8 (f_original_filename r), f_file_size r, 1)
        with ((fun f => (f_id f, utf8 (f_original_filename f),
                         f_file_size f, f_current_version f)) r)
        by (cbv beta; now rewrite H2).
      apply (in_map (fun f => (f_id f, utf8 (f_original_filename f),
                               f_file_size f, f_current_version f)) _ r).
      apply filter_In. split.
      * rewrite Hf. apply in_or_app. now right.
      * now apply null_safe_eqb_eq.
    + intros g Hg. apply filter_In in Hg. now apply Hcu.
Qed.


(* ================================================================== *)
(** * The further properties on the scenario *)

Lemma scenario_start_reachable : reachable Scenario.start.
Proof.
  exists Scenario.start, []. split; [exact scenario_start_fresh|reflexivity].
Qed.

Lemma scenario_folders_reachable : reachable Scenario.with_folders.
Proof. apply reachable_run, scenario_start_reachable. Qed.

Lemma scenario_file_reachable : reachable Scenario.with_file.
Proof. apply reachable_handle, scenario_folders_reachable. Qed.

Lemma scenario_two_versions_reachable :
  reachable Scenario.with_two_versions.
Proof. do 2 apply reachable_handle. apply scenario_file_reachable. Qed.

Lemma scenario_user_ids : unique_user_ids Scenario.empty_catalog.
Proof.
  unfold unique_user_ids. cbn.
  constructor; [intros [H|[]]; discriminate H|].
  constructor; [intros []|constructor].
Qed.

Ltac plain_name :=
  repeat split; try discriminate;
  let F := fresh "F" in intros F; vm_compute in F; intuition discriminate.

Lemma app_dir_plain : Forall plain_segment Cases.app_dir.
Proof. repeat constructor; plain_name. Qed.

Lemma clip_v1_plain : plain_segment (mf_filename Scenario.clip_v1).
Proof. plain_name. Qed.

Lemma clip_v2_plain : plain_segment (mf_filename Scenario.clip_v2).
Proof. plain_name. Qed.

(** X1 on the scenario: file 1 with versions 2 and 3. *)
Lemma current_version_names_a_version_witness :
  (reachable Scenario.with_two_versions)
  /\ (get_file (w_db Scenario.with_two_versions) 1 = Some (Cases.clip_row 3))
  /\ ((versions_of (w_db Scenario.with_two_versions) 1 = [] /\
      f_current_version (Cases.clip_row 3) = 1)
        \/ (2 <= f_current_version (Cases.clip_row 3)
            /\ get_version (w_db Scenario.with_two_versions) 1
                (f_current_version (Cases.clip_row 3)) <> None)).
Proof.
  assert (h1 : reachable Scenario.with_two_versions)
    by (exact scenario_two_versions_reachable).
  assert (h2 : get_file (w_db Scenario.with_two_versions) 1 = Some
      (Cases.clip_row 3))
    by (vm_compute; reflexivity).
  split; [exact h1|].
  split; [exact h2|].
  exact (current_version_names_a_version Scenario.with_two_versions 1
      (Cases.clip_row 3) h1 h2).
Defined.

(** X2 on the scenario: the first new version of file 1. *)
Lemma addVersion_always_appends_witness :
  (reachable Scenario.with_file)
  /\ (get_file (w_db Scenario.with_file) 1 = Some (Cases.clip_row 1))
  /\ (user_exists (w_db Scenario.with_file) 1 = true)
  /\ (exists body w',
        addVersion (Num 1) (Some Scenario.clip_v2) 1 300 Scenario.with_file =
            (Ok 201 body, w')
        /\ f_current_version (Cases.clip_row 1) < vc_versionNumber body
        /\ (forall x, In x (version_numbers (w_db Scenario.with_file) 1) ->
                      x < vc_versionNumber body)
        /\ version_numbers (w_db w') 1
           = version_numbers (w_db Scenario.with_file) 1 ++ [vc_versionNumber
               body]
        /\ current_version_of (w_db w') 1 = Some (vc_versionNumber body)
        /\ vc_fileSize body = mf_size Scenario.clip_v2).
Proof.
  assert (h1 : reachable Scenario.with_file)
    by (exact scenario_file_reachable).
  assert (h2 : get_file (w_db Scenario.with_file) 1 = Some (Cases.clip_row 1))
    by (vm_compute; reflexivity).
  assert (h3 : user_exists (w_db Scenario.with_file) 1 = true)
    by (reflexivity).
  split; [exact h1|].
  split; [exact h2|].
  split; [exact h3|].
  exact (addVersion_always_appends Scenario.with_file 1 (Cases.clip_row 1)
      Scenario.clip_v2 1 300 h1 h2 h3).
Defined.

(** X3 on the scenario: file 1 with versions 2 and 3. *)
Lemma listVersions_flags_one_current_witness :
  (reachable Scenario.with_two_versions)
  /\ (get_file (w_db Scenario.with_two_versions) 1 = Some (Cases.clip_row 3))
  /\ (exists body,
        listVersions (Num 1) Scenario.with_two_versions = (Ok 200 body,
            Scenario.with_two_versions)
        /\ lv_currentVersion body = f_current_version (Cases.clip_row 3)
        /\ ((lv_versions body = [] /\ lv_currentVersion body = 1)
            \/ exists e, filter vi_isCurrent (lv_versions body) = [e]
                         /\ vi_versionNumber e = lv_currentVersion body)).
Proof.
  assert (h1 : reachable Scenario.with_two_versions)
    by (exact scenario_two_versions_reachable).
  assert (h2 : get_file (w_db Scenario.with_two_versions) 1 = Some
      (Cases.clip_row 3))
    by (vm_compute; reflexivity).
  split; [exact h1|].
  split; [exact h2|].
  exact (listVersions_flags_one_current Scenario.with_two_versions 1
      (Cases.clip_row 3) h1 h2).
Defined.

(** X4 on the scenario: user 1 deletes folder 1. *)
Lemma stats_change_only_when_bytes_are_stored_witness :
  (stores_bytes (DeleteFolder (Num 1) 1) = false)
  /\ (fst (stats (handle (DeleteFolder (Num 1) 1) Scenario.with_two_versions))
      = fst (stats Scenario.with_two_versions)).
Proof.
  assert (h1 : stores_bytes (DeleteFolder (Num 1) 1) = false)
    by (reflexivity).
  split; [exact h1|].
  exact (stats_change_only_when_bytes_are_stored (DeleteFolder (Num 1) 1)
      Scenario.with_two_versions h1).
Defined.

(** X5 on the scenario: the first new version of file 1. *)
Lemma addVersion_adds_its_size_to_stats_witness :
  (addVersion (Num 1) (Some Scenario.clip_v2) 1 300 Scenario.with_file = (Ok
      201 Cases.version_two, Scenario.with_version))
  /\ (versionsTotal (stats_of Scenario.with_version) = versionsTotal (stats_of
      Scenario.with_file) + mf_size Scenario.clip_v2
        /\ totalStorage (stats_of Scenario.with_version) = totalStorage
            (stats_of Scenario.with_file) + mf_size Scenario.clip_v2
        /\ filesTotal (stats_of Scenario.with_version) = filesTotal (stats_of
            Scenario.with_file)
        /\ fileCount (stats_of Scenario.with_version) = fileCount (stats_of
            Scenario.with_file)).
Proof.
  assert (h1 : addVersion (Num 1) (Some Scenario.clip_v2) 1 300
      Scenario.with_file = (Ok 201 Cases.version_two, Scenario.with_version))
    by (vm_compute; reflexivity).
  split; [exact h1|].
  exact (addVersion_adds_its_size_to_stats Scenario.with_file
      Scenario.with_version (Num 1) Scenario.clip_v2 1 300 Cases.version_two
      h1).
Defined.

(** X6 on the scenario: the upload of file 1. *)
Lemma uploadFiles_adds_its_sizes_to_stats_witness :
  (uploadFiles ([Scenario.clip_v1]) (Some (Num 1)) 1 200 Scenario.with_folders
      = (Ok 201 Cases.first_upload, Scenario.with_file))
  /\ (filesTotal (stats_of Scenario.with_file)
          = filesTotal (stats_of Scenario.with_folders) + total (List.map
              mf_size ([Scenario.clip_v1]))
        /\ totalStorage (stats_of Scenario.with_file)
           = totalStorage (stats_of Scenario.with_folders) + total (List.map
               mf_size ([Scenario.clip_v1]))
        /\ fileCount (stats_of Scenario.with_file)
           = fileCount (stats_of Scenario.with_folders) + Z.of_nat
               (List.length ([Scenario.clip_v1]))
        /\ versionsTotal (stats_of Scenario.with_file) = versionsTotal
            (stats_of Scenario.with_folders)).
Proof.
  assert (h1 : uploadFiles ([Scenario.clip_v1]) (Some (Num 1)) 1 200
      Scenario.with_folders = (Ok 201 Cases.first_upload, Scenario.with_file))
    by (vm_compute; reflexivity).
  split; [exact h1|].
  exact (uploadFiles_adds_its_sizes_to_stats Scenario.with_folders
      Scenario.with_file ([Scenario.clip_v1]) (Some (Num 1)) 1 200
      Cases.first_upload h1).
Defined.

(** X7 on the scenario: version 2 of file 1 is restored. *)
Lemma downloadFile_ignores_versions_witness :
  (is_version_request (RestoreVersion (Num 1) (Num 2)) = true)
  /\ (fst (downloadFile (Num 1) (handle (RestoreVersion (Num 1) (Num 2))
      Scenario.with_two_versions)) = fst (downloadFile (Num 1)
      Scenario.with_two_versions)).
Proof.
  assert (h1 : is_version_request (RestoreVersion (Num 1) (Num 2)) = true)
    by (reflexivity).
  split; [exact h1|].
  exact (downloadFile_ignores_versions (RestoreVersion (Num 1) (Num 2))
      Scenario.with_two_versions (Num 1) h1).
Defined.

(** X8 on the scenario: the breadcrumbs of folder 3. *)
Lemma folderPath_follows_parents_witness :
  (reachable Scenario.with_folders)
  /\ ((Z.to_nat 3 < (4%nat))%nat)
  /\ (exists path,
        folderPath (4%nat) (Num 3) Scenario.with_folders = Some (Ok 200 path,
            Scenario.with_folders)
        /\ match get_folder (w_db Scenario.with_folders) 3 with
           | None => path = []
           | Some folder =>
               exists above,
                 path = above ++ [{| pe_id := 3; pe_name := fo_name folder |}]
                 /\ match fo_parent_folder_id folder with
                    | None => above = []
                    | Some p =>
                        get_folder (w_db Scenario.with_folders) p <> None
                        /\ folderPath (4%nat) (Num p) Scenario.with_folders =
                            Some (Ok 200 above, Scenario.with_folders)
                    end
           end).
Proof.
  assert (h1 : reachable Scenario.with_folders)
    by (exact scenario_folders_reachable).
  assert (h2 : (Z.to_nat 3 < (4%nat))%nat)
    by (vm_compute; lia).
  split; [exact h1|].
  split; [exact h2|].
  exact (folderPath_follows_parents Scenario.with_folders 3 (4%nat) h1 h2).
Defined.

(** X9 on the scenario: the listing of folder 1. *)
Lemma listContents_lists_direct_children_witness :
  (reachable Scenario.with_file)
  /\ (folder_given_exists (w_db Scenario.with_file) (Some (Num 1)))
  /\ (exists subfolders contained,
        listContents (Some (Num 1)) Scenario.with_file = (Ok 200 (subfolders,
            contained), Scenario.with_file)
        /\ Permutation
             (List.map (fun e => (fi_id e, utf8 (fi_name e))) subfolders)
             (List.map (fun r => (fo_id r, utf8 (fo_name r)))
                (filter (fun r => null_safe_eqb (fo_parent_folder_id r)
                                                (sql_bind (Some (Num 1))))
                        (folders (w_db Scenario.with_file))))
        /\ Sorted (fun a b => str_leb (utf8 (fi_name a)) (utf8 (fi_name b))
                              = true) subfolders
        /\ Permutation
             (List.map (fun e => (li_id e, li_currentVersion e)) contained)
             (List.map (fun f => (f_id f, f_current_version f))
                (filter (fun f => null_safe_eqb (f_folder_id f)
                                                (sql_bind (Some (Num 1))))
                        (files (w_db Scenario.with_file))))
        /\ Sorted (fun a b => li_uploadedAt b <= li_uploadedAt a) contained
        /\ listContents (Some NaN) Scenario.with_file = listContents None
            Scenario.with_file).
Proof.
  assert (h1 : reachable Scenario.with_file)
    by (exact scenario_file_reachable).
  assert (h2 : folder_given_exists (w_db Scenario.with_file) (Some (Num 1)))
    by (intros id [= <-] _; vm_compute; discriminate).
  split; [exact h1|].
  split; [exact h2|].
  exact (listContents_lists_direct_children Scenario.with_file (Some (Num 1))
      h1 h2).
Defined.

(** X10 on the scenario: pages of two files each. *)
Lemma listFiles_pages_partition_witness :
  (reachable Scenario.with_file)
  /\ (0 < 2 < 2 ^ 53)
  /\ (Z.of_nat (List.length (files (w_db Scenario.with_file))) < 2 ^ 53)
  /\ (let lastPage := ceil_div (Z.of_nat (List.length (files (w_db
      Scenario.with_file)))) 2 in
        let whole :=
          List.concat
            (List.map (page_entries Scenario.with_file 2) (zseq 1 (Z.to_nat
                lastPage))) in
        (forall k, 1 <= k -> (k - 1) * 2 < 2 ^ 53 ->
           exists entries,
             listFiles (Num k) (Num 2) Scenario.with_file
             = (Ok 200 (entries,
                        {| pg_page := k; pg_limit := 2;
                           pg_total := Z.of_nat (List.length (files (w_db
                               Scenario.with_file)));
                           pg_totalPages := lastPage |}), Scenario.with_file)
             /\ entries = page_entries Scenario.with_file 2 k
             /\ Z.of_nat (List.length entries) <= 2
             /\ (lastPage < k -> entries = []))
        /\ Permutation (List.map fe_id whole) (List.map f_id (files (w_db
            Scenario.with_file)))
        /\ NoDup (List.map fe_id whole)
        /\ Sorted (fun a b => fe_uploadedAt b <= fe_uploadedAt a) whole).
Proof.
  assert (h1 : reachable Scenario.with_file)
    by (exact scenario_file_reachable).
  assert (h2 : 0 < 2 < 2 ^ 53)
    by (split; reflexivity).
  assert (h3 : Z.of_nat (List.length (files (w_db Scenario.with_file))) < 2 ^
      53)
    by (vm_compute; reflexivity).
  split; [exact h1|].
  split; [exact h2|].
  split; [exact h3|].
  exact (listFiles_pages_partition Scenario.with_file 2 h1 h2 h3).
Defined.

(** X11 on the scenario: a search in capitals, with blanks around. *)
Lemma searchFiles_finds_names_containing_query_witness :
  (reachable Scenario.with_file)
  /\ (trim (lit " CLIP ") <> [])
  /\ (~ In 0%N (trim (lit " CLIP ")))
  /\ (Z.of_nat (List.length (utf8 (trim (lit " CLIP ")))) + 2 <= 50000)
  /\ (exists entries,
        searchFiles (Some (lit " CLIP ")) Scenario.with_file = (Ok 200
            (entries, (lit " CLIP ")), Scenario.with_file)
        /\ NoDup (List.map fe_id entries)
        /\ Sorted (fun a b => fe_uploadedAt b <= fe_uploadedAt a) entries
        /\ (forall f, In f (files (w_db Scenario.with_file)) ->
              contains_nocase (codepoints (trim (lit " CLIP ")))
                              (sql_chars (f_original_filename f)) ->
              In (f_id f) (List.map fe_id entries))
        /\ (~ In percent (codepoints (trim (lit " CLIP "))) ->
            ~ In FileUtils.underscore (codepoints (trim (lit " CLIP "))) ->
            forall e, In e entries ->
              exists f, In f (files (w_db Scenario.with_file)) /\ fe_id e =
                  f_id f
                        /\ contains_nocase (codepoints (trim (lit " CLIP ")))
                                           (sql_chars (f_original_filename
                                               f)))).
Proof.
  assert (h1 : reachable Scenario.with_file)
    by (exact scenario_file_reachable).
  assert (h2 : trim (lit " CLIP ") <> [])
    by (vm_compute; discriminate).
  assert (h3 : ~ In 0%N (trim (lit " CLIP ")))
    by (vm_compute; intuition discriminate).
  assert (h4 : Z.of_nat (List.length (utf8 (trim (lit " CLIP ")))) + 2 <=
      50000)
    by (vm_compute; discriminate).
  split; [exact h1|].
  split; [exact h2|].
  split; [exact h3|].
  split; [exact h4|].
  exact (searchFiles_finds_names_containing_query Scenario.with_file (lit
      " CLIP ") h1 h2 h3 h4).
Defined.

(** X12 on the scenario: a search for the name of file 1. *)
Lemma searchFiles_by_stored_name_finds_file_witness :
  (reachable Scenario.with_file)
  /\ (In (Cases.clip_row 1) (files (w_db Scenario.with_file)))
  /\ (f_original_filename (Cases.clip_row 1) <> [])
  /\ (exists entries,
        searchFiles (Some (f_original_filename (Cases.clip_row 1)))
            Scenario.with_file
        = (Ok 200 (entries, f_original_filename (Cases.clip_row 1)),
            Scenario.with_file)
        /\ exists e, In e entries /\ fe_id e = f_id (Cases.clip_row 1)
                     /\ fe_filename e = f_original_filename (Cases.clip_row
                         1)).
Proof.
  assert (h1 : reachable Scenario.with_file)
    by (exact scenario_file_reachable).
  assert (h2 : In (Cases.clip_row 1) (files (w_db Scenario.with_file)))
    by (left; vm_compute; reflexivity).
  assert (h3 : f_original_filename (Cases.clip_row 1) <> [])
    by (vm_compute; discriminate).
  split; [exact h1|].
  split; [exact h2|].
  split; [exact h3|].
  exact (searchFiles_by_stored_name_finds_file Scenario.with_file
      (Cases.clip_row 1) h1 h2 h3).
Defined.

(** X14 on the scenario: user 2 creates a folder in folder 1. *)
Lemma createFolder_makes_an_empty_folder_witness :
  (reachable Scenario.with_folders)
  /\ (user_exists (w_db Scenario.with_folders) 2 = true)
  /\ (trim (lit " Clips ") <> [])
  /\ ((forall p, sql_bind (Some (Num 1)) = Some p ->
        get_folder (w_db Scenario.with_folders) p <> None))
  /\ (find_sibling (w_db Scenario.with_folders) (sanitizeFilename (trim (lit
      " Clips ")))
        (sql_bind (Some (Num 1))) = None)
  /\ (exists id w',
        createFolder (Some (lit " Clips ")) (Some (Num 1)) 2 500
            Scenario.with_folders
        = (Ok 201 {| fc_id := id; fc_name := sanitizeFilename (trim (lit
            " Clips "));
                     fc_parentFolderId := (Some (Num 1)) |}, w')
        /\ seq_folders (w_db Scenario.with_folders) < id
        /\ (forall r, In r (folders (w_db Scenario.with_folders)) -> fo_id r <
            id)
        /\ listContents (Some (Num id)) w' = (Ok 200 ([], []), w')
        /\ exists subfolders contained,
             listContents (Some (Num 1)) w' = (Ok 200 (subfolders, contained),
                 w')
             /\ In (id, utf8 (sanitizeFilename (trim (lit " Clips "))))
                   (List.map (fun i => (fi_id i, utf8 (fi_name i)))
                       subfolders)).
Proof.
  assert (h1 : reachable Scenario.with_folders)
    by (exact scenario_folders_reachable).
  assert (h2 : user_exists (w_db Scenario.with_folders) 2 = true)
    by (reflexivity).
  assert (h3 : trim (lit " Clips ") <> [])
    by (vm_compute; discriminate).
  assert (h4 : (forall p, sql_bind (Some (Num 1)) = Some p ->
      get_folder (w_db Scenario.with_folders) p <> None))
    by (intros p [= <-]; vm_compute; discriminate).
  assert (h5 : find_sibling (w_db Scenario.with_folders) (sanitizeFilename
      (trim (lit " Clips ")))
      (sql_bind (Some (Num 1))) = None)
    by (vm_compute; reflexivity).
  split; [exact h1|].
  split; [exact h2|].
  split; [exact h3|].
  split; [exact h4|].
  split; [exact h5|].
  exact (createFolder_makes_an_empty_folder Scenario.with_folders (lit
      " Clips ") (Some (Num 1)) 2 500 h1 h2 h3 h4 h5).
Defined.

(** X15 on the scenario. *)
Lemma createFolder_parent_zero_fails_witness :
  (reachable Scenario.with_folders)
  /\ (trim (lit "Clips") <> [])
  /\ (createFolder (Some (lit "Clips")) (Some (Num 0)) 1 500
      Scenario.with_folders
        = (Err 500 "Internal server error", Scenario.with_folders)).
Proof.
  assert (h1 : reachable Scenario.with_folders)
    by (exact scenario_folders_reachable).
  assert (h2 : trim (lit "Clips") <> [])
    by (vm_compute; discriminate).
  split; [exact h1|].
  split; [exact h2|].
  exact (createFolder_parent_zero_fails Scenario.with_folders (lit "Clips") 1
      500 h1 h2).
Defined.

(** X16 on the scenario: file 1 moves from folder 1 to folder 2. *)
Lemma moveFile_relists_the_file_witness :
  (reachable Scenario.with_file)
  /\ (get_file (w_db Scenario.with_file) 1 = Some (Cases.clip_row 1))
  /\ ((Some (Num 2)) <> Some NaN)
  /\ ((forall t, sql_bind (Some (Num 2)) = Some t -> get_folder (w_db
      Scenario.with_file) t <> None))
  /\ (exists w',
        moveFile (Num 1) (Some (Num 2)) (f_uploaded_by (Cases.clip_row 1))
            Scenario.with_file = (Ok 200 tt, w')
        /\ folders (w_db w') = folders (w_db Scenario.with_file)
        /\ (forall g, In g (files (w_db Scenario.with_file)) -> f_id g <> 1 ->
              In g (files (w_db w')))
        /\ (exists subfolders contained,
              listContents (Some (Num 2)) w' = (Ok 200 (subfolders,
                  contained), w')
              /\ In 1 (List.map li_id contained))
        /\ forall other subs cont,
             sql_bind other <> sql_bind (Some (Num 2)) ->
             listContents other w' = (Ok 200 (subs, cont), w') ->
             ~ In 1 (List.map li_id cont)).
Proof.
  assert (h1 : reachable Scenario.with_file)
    by (exact scenario_file_reachable).
  assert (h2 : get_file (w_db Scenario.with_file) 1 = Some (Cases.clip_row 1))
    by (vm_compute; reflexivity).
  assert (h3 : (Some (Num 2)) <> Some NaN)
    by (discriminate).
  assert (h4 : (forall t, sql_bind (Some (Num 2)) = Some t -> get_folder (w_db
      Scenario.with_file) t <> None))
    by (intros t [= <-]; vm_compute; discriminate).
  split; [exact h1|].
  split; [exact h2|].
  split; [exact h3|].
  split; [exact h4|].
  exact (moveFile_relists_the_file Scenario.with_file 1 (Cases.clip_row 1)
      (Some (Num 2)) h1 h2 h3 h4).
Defined.

(** X17 on the scenario: user 1 deletes folder 1, which holds file 1. *)
Lemma deleteFolder_leaves_files_behind_witness :
  (reachable Scenario.with_file)
  /\ (deleteFolder (Num 1) 1 Scenario.with_file = (Ok 200 tt,
      Cases.after_delete))
  /\ (files (w_db Cases.after_delete) = files (w_db Scenario.with_file)
        /\ file_versions (w_db Cases.after_delete) = file_versions (w_db
            Scenario.with_file)
        /\ (forall page limit,
              fst (listFiles page limit Cases.after_delete) = fst (listFiles
                  page limit Scenario.with_file))
        /\ listContents (Some (Num 1)) Cases.after_delete = (Err 404
            "Folder not found", Cases.after_delete)
        /\ forall folderId subs cont g dsc,
             listContents folderId Cases.after_delete = (Ok 200 (subs, cont),
                 Cases.after_delete) ->
             In g (files (w_db Scenario.with_file)) -> f_folder_id g = Some
                 dsc ->
             in_subtree (folders (w_db Scenario.with_file)) [1] dsc ->
             ~ In (f_id g) (List.map li_id cont)).
Proof.
  assert (h1 : reachable Scenario.with_file)
    by (exact scenario_file_reachable).
  assert (h2 : deleteFolder (Num 1) 1 Scenario.with_file = (Ok 200 tt,
      Cases.after_delete))
    by (vm_compute; reflexivity).
  split; [exact h1|].
  split; [exact h2|].
  exact (deleteFolder_leaves_files_behind Scenario.with_file
      Cases.after_delete 1 1 h1 h2).
Defined.

(** X24 on the scenario: user 1 deletes Media, which holds Raw, which holds
    Takes. *)
Lemma deleteFolder_cascades_within_depth_witness :
  (reachable Scenario.with_file)
  /\ (let d := w_db Scenario.with_file in
        let '(r, w') := deleteFolder (Num 1) 1 Scenario.with_file in
        match get_folder d 1 with
        | None => r = Err 404 "Folder not found" /\ kind r = Some NotFound /\
            w' = Scenario.with_file
        | Some f =>
            if fo_created_by f =? 1 then
              if cascade_too_deep d 1 then
                r = Err 500 "Internal server error" /\ w' = Scenario.with_file
              else
                r = Ok 200 tt
                /\ (forall x, In x (folders (w_db w'))
                              <-> In x (folders d)
                                  /\ ~ in_subtree (folders d) [1] (fo_id x))
                /\ (forall dsc, in_subtree (folders d) [1] dsc ->
                      listContents (Some (Num dsc)) w'
                      = (Err 404 "Folder not found", w'))
                /\ files (w_db w') = files d
                /\ file_versions (w_db w') = file_versions d
                /\ users (w_db w') = users d
            else
              r = Err 403 "You can only delete folders you created"
              /\ kind r = Some PermissionDenied /\ w' = Scenario.with_file
        end).
Proof.
  assert (h1 : reachable Scenario.with_file)
    by (exact scenario_file_reachable).
  split; [exact h1|].
  exact (deleteFolder_cascades_within_depth Scenario.with_file 1 1 h1).
Defined.

(** X18 on the scenario: the download of file 1. *)
Lemma downloadFile_serves_stored_upload_witness :
  (Forall plain_segment Cases.app_dir)
  /\ (w_cwd Scenario.with_file = rooted Cases.app_dir)
  /\ (plain_segment (mf_filename Scenario.clip_v1))
  /\ (get_file (w_db Scenario.with_file) 1 = Some (Cases.clip_row 1))
  /\ (f_file_path (Cases.clip_row 1) = Path.join [Path.uploadDir (w_cwd
      Scenario.with_file); (mf_filename Scenario.clip_v1)])
  /\ (w_disk Scenario.with_file (f_file_path (Cases.clip_row 1)) = true)
  /\ (f_file_path (Cases.clip_row 1) = rooted (Cases.app_dir ++ [lit
      "uploads"; (mf_filename Scenario.clip_v1)])
        /\ Path.resolve (w_cwd Scenario.with_file) (f_file_path
            (Cases.clip_row 1)) = f_file_path (Cases.clip_row 1)
        /\ Path.within (Path.resolve (w_cwd Scenario.with_file)
            (Path.uploadDir (w_cwd Scenario.with_file)))
                       (Path.resolve (w_cwd Scenario.with_file) (f_file_path
                           (Cases.clip_row 1))) = true
        /\ (header_ok (f_mime_type (Cases.clip_row 1)) = true ->
            header_ok (sanitizeFilename (f_original_filename (Cases.clip_row
                1))) = true ->
            exists body w',
              downloadFile (Num 1) Scenario.with_file = (Ok 200 body, w')
              /\ dl_stream body = f_file_path (Cases.clip_row 1)
              /\ dl_contentLength body = f_file_size (Cases.clip_row 1)
              /\ w_db w' = w_db Scenario.with_file
              /\ w_trace w'
                 = w_trace Scenario.with_file ++ [ExistsSync (f_file_path
                     (Cases.clip_row 1));
                                 CreateReadStream (f_file_path (Cases.clip_row
                                     1))])
        /\ (header_ok (f_mime_type (Cases.clip_row 1))
            && header_ok (sanitizeFilename (f_original_filename
                (Cases.clip_row 1))) = false ->
            downloadFile (Num 1) Scenario.with_file
            = (Err 500 "Internal server error",
               log Scenario.with_file (ExistsSync (f_file_path (Cases.clip_row
                   1)))))).
Proof.
  assert (h1 : Forall plain_segment Cases.app_dir)
    by (exact app_dir_plain).
  assert (h2 : w_cwd Scenario.with_file = rooted Cases.app_dir)
    by (vm_compute; reflexivity).
  assert (h3 : plain_segment (mf_filename Scenario.clip_v1))
    by (exact clip_v1_plain).
  assert (h4 : get_file (w_db Scenario.with_file) 1 = Some (Cases.clip_row 1))
    by (vm_compute; reflexivity).
  assert (h5 : f_file_path (Cases.clip_row 1) = Path.join [Path.uploadDir
      (w_cwd Scenario.with_file); (mf_filename Scenario.clip_v1)])
    by (vm_compute; reflexivity).
  assert (h6 : w_disk Scenario.with_file (f_file_path (Cases.clip_row 1)) =
      true)
    by (reflexivity).
  split; [exact h1|].
  split; [exact h2|].
  split; [exact h3|].
  split; [exact h4|].
  split; [exact h5|].
  split; [exact h6|].
  exact (downloadFile_serves_stored_upload Scenario.with_file 1
      (Cases.clip_row 1) Cases.app_dir (mf_filename Scenario.clip_v1) h1 h2 h3
      h4 h5 h6).
Defined.

(** X19 on the users of the scenario: a login of user 1. *)
Lemma login_token_passes_requireAuth_witness :
  (unique_user_ids Scenario.empty_catalog)
  /\ (Auth.login Cases.any_password Scenario.empty_catalog (Some (lit
      "jonah")) (Some (lit "MleepSheep")) = Ok 200 Cases.jonah_session)
  /\ (Z.abs (Auth.se_userId Cases.jonah_session) < 2 ^ 53)
  /\ ((exists u pass,
           In u (users Scenario.empty_catalog) /\ (Some (lit "jonah")) = Some
               (u_username u)
           /\ (Some (lit "MleepSheep")) = Some pass
           /\ Cases.any_password pass (u_password_hash u) = true
           /\ Auth.se_userId Cases.jonah_session = u_id u /\ Auth.se_username
               Cases.jonah_session = u_username u)
        /\ (~ In Auth.colon (Auth.se_username Cases.jonah_session) ->
            Auth.requireAuth Scenario.empty_catalog (Some (lit "Bearer " ++
                Auth.se_token Cases.jonah_session))
            = Auth.Next (Auth.se_userId Cases.jonah_session) (Auth.se_username
                Cases.jonah_session))
        /\ (In Auth.colon (Auth.se_username Cases.jonah_session) ->
            Auth.requireAuth Scenario.empty_catalog (Some (lit "Bearer " ++
                Auth.se_token Cases.jonah_session))
            = Auth.Deny 401 "Invalid authentication token")).
Proof.
  assert (h1 : unique_user_ids Scenario.empty_catalog)
    by (exact scenario_user_ids).
  assert (h2 : Auth.login Cases.any_password Scenario.empty_catalog (Some (lit
      "jonah")) (Some (lit "MleepSheep")) = Ok 200 Cases.jonah_session)
    by (vm_compute; reflexivity).
  assert (h3 : Z.abs (Auth.se_userId Cases.jonah_session) < 2 ^ 53)
    by (reflexivity).
  split; [exact h1|].
  split; [exact h2|].
  split; [exact h3|].
  exact (login_token_passes_requireAuth Cases.any_password
      Scenario.empty_catalog (Some (lit "jonah")) (Some (lit "MleepSheep"))
      Cases.jonah_session h1 h2 h3).
Defined.

(** X20 on the users of the scenario: a token of user 2. *)
Lemma requireAuth_passes_only_users_witness :
  (Auth.requireAuth Scenario.empty_catalog (Some (lit "Bearer 2:steven")) =
      Auth.Next 2 (lit "steven"))
  /\ ((exists header,
           (Some (lit "Bearer 2:steven")) = Some header
           /\ Path.startsWith header (lit "Bearer ") = true)
        /\ (exists u, In u (users Scenario.empty_catalog) /\ u_id u = 2
                      /\ u_username u = (lit "steven"))
        /\ user_exists Scenario.empty_catalog 2 = true
        /\ ~ In Auth.colon (lit "steven")).
Proof.
  assert (h1 : Auth.requireAuth Scenario.empty_catalog (Some (lit
      "Bearer 2:steven")) = Auth.Next 2 (lit "steven"))
    by (vm_compute; reflexivity).
  split; [exact h1|].
  exact (requireAuth_passes_only_users Scenario.empty_catalog (Some (lit
      "Bearer 2:steven")) 2 (lit "steven") h1).
Defined.

(** X23 on the scenario: the upload of file 1 into folder 1. *)
Lemma uploadFiles_then_listed_witness :
  (reachable Scenario.with_folders)
  /\ (user_exists (w_db Scenario.with_folders) 1 = true)
  /\ (([Scenario.clip_v1]) <> [])
  /\ (Config.multer_array ([Scenario.clip_v1]))
  /\ (folder_given_exists (w_db Scenario.with_folders) (Some (Num 1)))
  /\ (exists created w',
        uploadFiles ([Scenario.clip_v1]) (Some (Num 1)) 1 200
            Scenario.with_folders = (Ok 201 created, w')
        /\ List.map (fun c => (up_filename c, up_size c)) created
           = List.map (fun m => (sanitizeFilename (mf_originalname m),
                                 mf_size m)) ([Scenario.clip_v1])
        /\ (forall c, In c created -> seq_files (w_db Scenario.with_folders) <
            up_id c)
        /\ exists subfolders contained,
             listContents (Some (Num 1)) w' = (Ok 200 (subfolders, contained),
                 w')
             /\ forall c, In c created ->
                  In (up_id c, utf8 (up_filename c), up_size c, 1)
                     (List.map (fun e => (li_id e, utf8 (li_filename e),
                                          li_size e, li_currentVersion e))
                               contained)).
Proof.
  assert (h1 : reachable Scenario.with_folders)
    by (exact scenario_folders_reachable).
  assert (h2 : user_exists (w_db Scenario.with_folders) 1 = true)
    by (reflexivity).
  assert (h3 : ([Scenario.clip_v1]) <> [])
    by (discriminate).
  assert (h4 : Config.multer_array ([Scenario.clip_v1]))
    by (split; [vm_compute; repeat constructor|]; constructor; [|constructor];
        split; [reflexivity|split; vm_compute; discriminate]).
  assert (h5 : folder_given_exists (w_db Scenario.with_folders) (Some (Num
      1)))
    by (exact scenario_folder_one_exists).
  split; [exact h1|].
  split; [exact h2|].
  split; [exact h3|].
  split; [exact h4|].
  split; [exact h5|].
  exact (uploadFiles_then_listed Scenario.with_folders ([Scenario.clip_v1])
      (Some (Num 1)) 1 200 h1 h2 h3 h4 h5).
Defined.

(** X22 on the scenario: the first new version of file 1. *)
Lemma addVersion_then_downloadVersion_witness :
  (reachable Scenario.with_file)
  /\ (get_file (w_db Scenario.with_file) 1 = Some (Cases.clip_row 1))
  /\ (user_exists (w_db Scenario.with_file) 1 = true)
  /\ (Config.multer_passes Scenario.clip_v2)
  /\ (header_ok (f_original_filename (Cases.clip_row 1)) = true)
  /\ (Forall plain_segment Cases.app_dir)
  /\ (w_cwd Scenario.with_file = rooted Cases.app_dir)
  /\ (plain_segment (mf_filename Scenario.clip_v2))
  /\ (mf_path Scenario.clip_v2 = Path.join [Path.uploadDir (w_cwd
      Scenario.with_file); (mf_filename Scenario.clip_v2)])
  /\ (w_disk Scenario.with_file (mf_path Scenario.clip_v2) = true)
  /\ (exists body w',
        addVersion (Num 1) (Some Scenario.clip_v2) 1 300 Scenario.with_file =
            (Ok 201 body, w')
        /\ exists dl w'',
             downloadVersion (Num 1) (Num (vc_versionNumber body)) w'
             = (Ok 200 dl, w'')
             /\ dl_stream dl = mf_path Scenario.clip_v2
             /\ dl_contentLength dl = mf_size Scenario.clip_v2
             /\ dl_versionSuffix dl = Some (vc_versionNumber body)
             /\ dl_filename dl = f_original_filename (Cases.clip_row 1)).
Proof.
  assert (h1 : reachable Scenario.with_file)
    by (exact scenario_file_reachable).
  assert (h2 : get_file (w_db Scenario.with_file) 1 = Some (Cases.clip_row 1))
    by (vm_compute; reflexivity).
  assert (h3 : user_exists (w_db Scenario.with_file) 1 = true)
    by (reflexivity).
  assert (h4 : Config.multer_passes Scenario.clip_v2)
    by (split; [reflexivity|split; vm_compute; discriminate]).
  assert (h5 : header_ok (f_original_filename (Cases.clip_row 1)) = true)
    by (vm_compute; reflexivity).
  assert (h6 : Forall plain_segment Cases.app_dir)
    by (exact app_dir_plain).
  assert (h7 : w_cwd Scenario.with_file = rooted Cases.app_dir)
    by (vm_compute; reflexivity).
  assert (h8 : plain_segment (mf_filename Scenario.clip_v2))
    by (exact clip_v2_plain).
  assert (h9 : mf_path Scenario.clip_v2 = Path.join [Path.uploadDir (w_cwd
      Scenario.with_file); (mf_filename Scenario.clip_v2)])
    by (vm_compute; reflexivity).
  assert (h10 : w_disk Scenario.with_file (mf_path Scenario.clip_v2) = true)
    by (reflexivity).
  split; [exact h1|].
  split; [exact h2|].
  split; [exact h3|].
  split; [exact h4|].
  split; [exact h5|].
  split; [exact h6|].
  split; [exact h7|].
  split; [exact h8|].
  split; [exact h9|].
  split; [exact h10|].
  exact (addVersion_then_downloadVersion Scenario.with_file 1 (Cases.clip_row
      1) Scenario.clip_v2 1 300 Cases.app_dir (mf_filename Scenario.clip_v2)
      h1 h2 h3 h4 h5 h6 h7 h8 h9 h10).
Defined.
